(** * BioSimSpace.Process.Somd: a shallow embedding of the SOMD engine adapter

    The development follows [python/BioSimSpace/Process/_somd.py].  Methods of
    the [Somd] class become functions in a state-and-exception monad over the
    mutable attributes of the object and the part of the operating system the
    class touches (working directory, files, child processes, the store of
    Sire systems).  A Python float is represented by the rational it
    denotes.  The cycle count and the conversion of an integer by [float] are
    computed as Python computes them, every operation rounded to the nearest
    float of 53 significant bits ([binary64.round]).  The exponent range of
    the floats is modelled only where an integer is converted; elsewhere
    overflow and subnormal numbers are left out.  The other quantities (time
    stamps, temperatures, gradients, cutoffs) are exact rationals.  The
    argument checks of the constructor come before
    [_setup] and touch neither the files nor the systems; the first part of
    the development starts from a constructed object, the second part adds
    the constructor, the requirement classes of
    [python/BioSimSpace/Gateway/requirements.py] and the argument checks of
    [python/BioSimSpace/Solvent/__init__.py]. *)

From Stdlib Require Import QArith Qround.
From Stdlib Require Import Ascii String.
From stdpp Require Import gmap strings list sorting pretty.

Local Open Scope Z_scope.
Local Open Scope string_scope.
Local Open Scope list_scope.

(** ** Exceptions and results *)

Inductive exn :=
  | TypeError | ValueError | IOError | OSError
  | IndexError | AttributeError | ZeroDivisionError
  | IncompatibleError | KeyError.

Inductive result (A : Type) :=
  | Ok (a : A)
  | Raise (e : exn).
Arguments Ok {A} a.
Arguments Raise {A} e.

Definition returns {A} (r : result A) : bool :=
  match r with Ok _ => true | Raise _ => false end.

(** ** Python floats *)

Module binary64.
Local Open Scope Z_scope.

(** The integer nearest to [n / d], the even one of two that are equally
    near. *)
Definition nearest_even (n d : Z) : Z :=
  let q := n / d in
  match 2 * (n mod d) ?= d with
  | Lt => q
  | Gt => q + 1
  | Eq => if Z.even q then q else q + 1
  end.

(** [floor (log2 (a / d))] for positive [a] and [d]. *)
Definition log2_floor (a d : Z) : Z :=
  let k := Z.log2 a - Z.log2 d in
  if a * 2 ^ Z.max 0 (- k) <? d * 2 ^ Z.max 0 k then k - 1 else k.

(** The number of 53 significant bits that is nearest to [x], the one of
    even significand of two that are equally near: the rounding of a float
    operation whose result is within the exponent range. *)
Definition round (x : Q) : Q :=
  let n := Qnum x in
  let d := Z.pos (Qden x) in
  if n =? 0 then 0%Q else
  let a := Z.abs n in
  let e := log2_floor a d - 52 in
  let m := if 0 <=? e then nearest_even a (d * 2 ^ e)
           else nearest_even (a * 2 ^ (- e)) d in
  let v := if 0 <=? e then inject_Z (m * 2 ^ e)
           else Qred (Qmake m (Z.to_pos (2 ^ (- e)))) in
  if n <? 0 then Qopp v else v.

(** A rounded value beyond the largest finite float, which is below
    [2 ^ 1024]. *)
Definition overflows (x : Q) : bool :=
  Qle_bool (inject_Z (2 ^ 1024)) x || Qle_bool x (inject_Z (- 2 ^ 1024)).

Global Arguments round : simpl never.
Global Arguments overflows : simpl never.

End binary64.

(** ** Quantities with units ([BioSimSpace.Types]) *)

Module Units.
Local Open Scope Q_scope.

Inductive TimeUnit := Nanosecond | Picosecond | Femtosecond.

(** Modelled from the spec: the time type of [BioSimSpace.Types], absent from
    the sources: a magnitude in a unit, converted to the unit of the engine
    (femtoseconds) on demand. *)
Record Time := mkTime { magnitude : Q; time_unit : TimeUnit }.

(** Number of femtoseconds in one unit. *)
Definition fs_per (u : TimeUnit) : Q :=
  match u with
  | Nanosecond => 1000000
  | Picosecond => 1000
  | Femtosecond => 1
  end.

Definition femtoseconds (t : Time) : Q := magnitude t * fs_per (time_unit t).
Definition nanoseconds (t : Time) : Q := femtoseconds t / 1000000.

(** Modelled from the spec: the magnitude as the float that holds it,
    converted to femtoseconds by a float multiplication. *)
Definition float_femtoseconds (t : Time) : Q :=
  binary64.round (binary64.round (magnitude t) * fs_per (time_unit t)).

(** [Time.__truediv__] on two times: the float division of the magnitudes
    in a common unit; as for every Python division, a zero divisor raises. *)
Definition time_div (a b : Time) : result Q :=
  if Qeq_bool (float_femtoseconds b) 0 then Raise ZeroDivisionError
  else Ok (binary64.round (float_femtoseconds a / float_femtoseconds b)).

(** Modelled from the spec: the temperature type, absent from the sources,
    carried by its magnitude in kelvin. *)
Record Temperature := mkTemp { kelvin : Q }.

Definition picoseconds_of (q : Q) : Time := mkTime q Picosecond.
Definition femtoseconds_of (q : Q) : Time := mkTime q Femtosecond.

End Units.
Import Units.

(** ** Protocols ([BioSimSpace.Protocol]) *)

(** Modelled from the spec: the ensemble kind of a production or free-energy
    protocol, constant volume or constant pressure, which [getEnsemble]
    returns by its identifier. *)
Inductive Ensemble := NVT | NPT.

Definition ensemble_name (e : Ensemble) : string :=
  match e with NVT => "NVT" | NPT => "NPT" end.

Definition is_constant_pressure (e : Ensemble) : bool :=
  match e with NPT => true | NVT => false end.

(** Modelled from the spec: the protocol classes, absent from the sources: a
    tagged variant over minimisation, equilibration, production, free energy
    and custom, each carrying its parameters (step count, run time, time
    step, temperatures, restraint, ensemble kind, lambda schedule, raw
    configuration lines). *)
Inductive Protocol :=
  | Minimisation (steps : Z)
  | Equilibration (runtime timestep : Time)
                  (temperature_start temperature_end : Temperature)
                  (restrained : bool)
  | Production (runtime timestep : Time) (temperature : Temperature)
               (ensemble : Ensemble)
  | FreeEnergy (lam : Q) (lam_vals : list Q)
               (runtime timestep : Time) (temperature : Temperature)
               (ensemble : Ensemble)
  | Custom (config : list string).

Definition is_FreeEnergy (p : Protocol) : bool :=
  match p with FreeEnergy _ _ _ _ _ _ => true | _ => false end.

Definition is_Minimisation (p : Protocol) : bool :=
  match p with Minimisation _ => true | _ => false end.

Definition isConstantTemp (ts te : Temperature) : bool :=
  Qeq_bool (kelvin ts) (kelvin te).

(** ** Sire systems *)

Record Molecule := mkMol {
  number : nat;
  residues : list string;
  isWater : bool;
  isPerturbable : bool;
}.

Record SireSystem := mkSys {
  molecules : list Molecule;
  propertyKeys : list string;
}.

Global Instance Molecule_eq_dec : EqDecision Molecule.
Proof. solve_decision. Defined.
Global Instance SireSystem_eq_dec : EqDecision SireSystem.
Proof. solve_decision. Defined.

(** ** The operating system and the object store *)

Record World := mkWorld {
  (** [os.getcwd()] *)
  cwd : string;
  (** regular files, by absolute path, with their text *)
  files : gmap string string;
  (** existing directories *)
  dirs : gset string;
  (** paths the process may neither create, truncate nor unlink *)
  denied : gset string;
  (** read offsets kept by Pygtail in the [.offset] companion of a log *)
  offsets : gmap string nat;
  (** Sire systems, by reference *)
  store : gmap nat SireSystem;
  (** process identifiers handed out so far, and those still alive *)
  spawned : gset nat;
  running : gset nat;
  (** [timeit.default_timer()] *)
  clock : nat;
}.

Definition set_cwd (d : string) (w : World) : World :=
  mkWorld d (files w) (dirs w) (denied w) (offsets w) (store w)
          (spawned w) (running w) (clock w).
Definition set_files (f : gmap string string) (w : World) : World :=
  mkWorld (cwd w) f (dirs w) (denied w) (offsets w) (store w)
          (spawned w) (running w) (clock w).
Definition set_offsets (o : gmap string nat) (w : World) : World :=
  mkWorld (cwd w) (files w) (dirs w) (denied w) o (store w)
          (spawned w) (running w) (clock w).
Definition set_store (h : gmap nat SireSystem) (w : World) : World :=
  mkWorld (cwd w) (files w) (dirs w) (denied w) (offsets w) h
          (spawned w) (running w) (clock w).
Definition set_procs (sp rn : gset nat) (w : World) : World :=
  mkWorld (cwd w) (files w) (dirs w) (denied w) (offsets w) (store w)
          sp rn (clock w).

(** A relative path is resolved against the current directory. *)
Definition is_absolute (p : string) : bool :=
  match p with String "/"%char _ => true | _ => false end.

Definition resolve (w : World) (p : string) : string :=
  if is_absolute p then p else cwd w +:+ "/" +:+ p.

(** ** The [Somd] object *)

(** Attributes fixed by the constructor. *)
Record Somd := mkSomd {
  _system : nat;
  _protocol : Protocol;
  _name : string;
  _work_dir : string;
  _seed : Z;
  _is_seeded : bool;
  _property_map : list (string * string);
  _platform : string;
  _exe : string;
  _has_water : bool;
  _is_blocked : bool;
  _is_queued : bool;
}.

Definition _rst_file (self : Somd) : string :=
  _work_dir self +:+ "/" +:+ _name self +:+ ".rst7".
Definition _top_file (self : Somd) : string :=
  _work_dir self +:+ "/" +:+ _name self +:+ ".prm7".
Definition _config_file (self : Somd) : string :=
  _work_dir self +:+ "/" +:+ _name self +:+ ".cfg".
Definition _pert_file (self : Somd) : string :=
  _work_dir self +:+ "/" +:+ _name self +:+ ".pert".
Definition _gradient_file (self : Somd) : string :=
  _work_dir self +:+ "/gradients.dat".

(** Modelled from the spec: the base class attribute [_stderr_file], absent
    from the sources; the standard error stream goes to [<name>.err] in the
    working directory. *)
Definition _stderr_file (self : Somd) : string :=
  _work_dir self +:+ "/" +:+ _name self +:+ ".err".

(** Attributes the methods assign to. *)
Record Vars := mkVars {
  _gradients : list Q;
  _input_files : list string;
  _config : list string;
  _args : list (string * string);
  _process : option nat;
  _command : option string;
  _timer : option nat;
}.

Definition set_gradients (g : list Q) (v : Vars) : Vars :=
  mkVars g (_input_files v) (_config v) (_args v) (_process v) (_command v) (_timer v).
Definition set_input_files (l : list string) (v : Vars) : Vars :=
  mkVars (_gradients v) l (_config v) (_args v) (_process v) (_command v) (_timer v).
Definition set_config (c : list string) (v : Vars) : Vars :=
  mkVars (_gradients v) (_input_files v) c (_args v) (_process v) (_command v) (_timer v).
Definition set_args (a : list (string * string)) (v : Vars) : Vars :=
  mkVars (_gradients v) (_input_files v) (_config v) a (_process v) (_command v) (_timer v).
Definition set_process (p : option nat) (v : Vars) : Vars :=
  mkVars (_gradients v) (_input_files v) (_config v) (_args v) p (_command v) (_timer v).
Definition set_command (c : option string) (v : Vars) : Vars :=
  mkVars (_gradients v) (_input_files v) (_config v) (_args v) (_process v) c (_timer v).
Definition set_timer (t : option nat) (v : Vars) : Vars :=
  mkVars (_gradients v) (_input_files v) (_config v) (_args v) (_process v) (_command v) t.

Record state := mkState { vars : Vars; world : World }.

(** ** The monad of methods: state that survives a raised exception *)

Definition M (A : Type) : Type := state → result A * state.

Global Instance M_ret : MRet M := λ A a st, (Ok a, st).
Global Instance M_bind : MBind M := λ A B f m st,
  match m st with
  | (Ok a, st') => f a st'
  | (Raise e, st') => (Raise e, st')
  end.

Definition raise {A} (e : exn) : M A := λ st, (Raise e, st).

(** [try: m except: h] with a bare [except]. *)
Definition try_except {A} (m : M A) (h : M A) : M A := λ st,
  match m st with
  | (Ok a, st') => (Ok a, st')
  | (Raise _, st') => h st'
  end.

Definition get_vars : M Vars := λ st, (Ok (vars st), st).
Definition get_world : M World := λ st, (Ok (world st), st).
Definition modify_vars (f : Vars → Vars) : M unit :=
  λ st, (Ok tt, mkState (f (vars st)) (world st)).
Definition modify_world (f : World → World) : M unit :=
  λ st, (Ok tt, mkState (vars st) (f (world st))).
Definition lift {A} (r : result A) : M A := λ st, (r, st).

Fixpoint for_each {A} (l : list A) (body : A → M unit) : M unit :=
  match l with
  | [] => mret tt
  | x :: l' => body x ;; for_each l' body
  end.

(** ** File-system calls *)

Module os.

Definition isfile (p : string) : M bool :=
  w ← get_world; mret (bool_decide (resolve w p ∈ dom (files w))).

Definition remove (p : string) : M unit :=
  w ← get_world;
  let q := resolve w p in
  if bool_decide (q ∈ denied w) then raise OSError
  else if bool_decide (q ∈ dom (files w)) then
    modify_world (set_files (delete q (files w)))
  else raise OSError.

Definition getcwd : M string := w ← get_world; mret (cwd w).

Definition chdir (d : string) : M unit :=
  w ← get_world;
  let q := resolve w d in
  if bool_decide (q ∈ dirs w) then modify_world (set_cwd q)
  else raise OSError.

(** [with open(p, "w") as f: f.write(text)] *)
Definition write_text (p text : string) : M unit :=
  w ← get_world;
  let q := resolve w p in
  if bool_decide (q ∈ denied w) then raise OSError
  else modify_world (set_files (<[q := text]> (files w))).

(** [os.path.basename]: what follows the last slash. *)
Fixpoint basename_go (acc s : string) : string :=
  match s with
  | "" => acc
  | String "/"%char s' => basename_go "" s'
  | String c s' => basename_go (acc +:+ String c "") s'
  end.
Definition basename (p : string) : string := basename_go "" p.

End os.

(** ** Text helpers of Python *)

(** [str.isspace] on the ASCII range. *)
Definition py_isspace (c : ascii) : bool :=
  let n := nat_of_ascii c in
  (Nat.leb 9 n && Nat.leb n 13) || (Nat.leb 28 n && Nat.leb n 32).

Fixpoint lstrip (s : string) : string :=
  match s with
  | String c s' => if py_isspace c then lstrip s' else s
  | "" => ""
  end.

(** [s.rstrip()] *)
Definition rstrip (s : string) : string := String.rev (lstrip (String.rev s)).

(** [s.split()]: the maximal runs of non-blank characters, in order. *)
Fixpoint split_go (cur s : string) : list string :=
  match s with
  | "" => if decide (cur = "") then [] else [cur]
  | String c s' =>
      if py_isspace c
      then (if decide (cur = "") then [] else [cur]) ++ split_go "" s'
      else split_go (cur +:+ String c "") s'
  end.
Definition split (s : string) : list string := split_go "" s.

Fixpoint string_drop (n : nat) (s : string) : string :=
  match n, s with
  | S n', String _ s' => string_drop n' s'
  | _, _ => s
  end.

(** The lines of a text, each with its terminator when it has one, as
    iterating over a file yields them. *)
Fixpoint readlines (s : string) : list string :=
  match s with
  | "" => []
  | String c s' =>
      if decide (c = "010"%char) then String c "" :: readlines s'
      else match readlines s' with
           | [] => [String c ""]
           | l :: ls => String c l :: ls
           end
  end.

(** ** Pygtail: reading what was appended to a log since the last visit *)

Module pygtail.

(** The lines after the stored offset; an offset beyond the end of the
    file means the log was replaced, and reading restarts from the top. *)
Definition unread (w : World) (file : string) : list string :=
  let q := resolve w file in
  let text := default "" (files w !! q) in
  let off := default 0%nat (offsets w !! q) in
  let off := if Nat.ltb (String.length text) off then 0%nat else off in
  readlines (string_drop off text).

(** Once the iteration is exhausted the offset of the end of the file is
    stored. *)
Definition commit (file : string) : M unit :=
  modify_world (λ w,
    let q := resolve w file in
    set_offsets (<[q := String.length (default "" (files w !! q))]> (offsets w)) w).

End pygtail.

(** ** What Python and Sire provide

    Float formatting and parsing, the Amber serialisers of Sire, the
    perturbation-file writer, the trajectory reader and the wait on a child
    are collaborators of the class; the adapter is verified for any behaviour
    of theirs. *)

Class Runtime := {
  (** ["%.2f" % x] *)
  fmt_2f : Q → string;
  (** [str(x)] and ["%s" % x] on a float *)
  str_float : Q → string;
  (** [float(s)]; [None] when Python raises [ValueError] *)
  float_of_string : string → option Q;
  (** [Sire.IO.AmberRst7(system, map)] and [Sire.IO.AmberPrm(system, map)]:
      the text written by [writeToFile], [None] when the parser raises *)
  AmberRst7 : SireSystem → list (string * string) → option string;
  AmberPrm : SireSystem → list (string * string) → option string;
  (** the text [Molecule._toPertFile] writes *)
  pert_text : Molecule → list (string * string) → string;
  (** [Trajectory(process=self)]: the frames read from the trajectory file,
      [None] when the constructor raises *)
  read_trajectory : Somd → World → option (list SireSystem);
  (** the world once the given child has exited *)
  wait_for : nat → World → World;
  (** [Process._clear_output], the base-class method that resets the
      standard output and error records *)
  base_clear_output : Somd → M unit;
}.

Section Adapter.
Context `{Runtime}.

(** ** Methods inherited from [Process] *)

Definition newline : string := String "010"%char "".

Definition join (sep : string) (l : list string) : string :=
  match l with
  | [] => ""
  | x :: l' => foldl (λ acc y, acc +:+ sep +:+ y) x l'
  end.

(** Modelled from the spec: the base-class configuration and argument
    methods, absent from the sources.  The configuration is an ordered
    sequence of lines, appended to during generation, replaced as a whole by
    a custom protocol and persisted verbatim, one line each; the argument
    table is an insertion-ordered mapping from flag to value. *)
Definition addToConfig (line : string) : M unit :=
  modify_vars (λ v, set_config (_config v ++ [line]) v).

Definition setConfig (c : list string) : M unit :=
  modify_vars (set_config c).

Definition writeConfig (file : string) : M unit :=
  v ← get_vars;
  os.write_text file (join newline (_config v)).

Definition clearArgs : M unit := modify_vars (set_args []).

Fixpoint set_assoc (k v : string) (l : list (string * string)) :
    list (string * string) :=
  match l with
  | [] => [(k, v)]
  | (k', v') :: l' =>
      if decide (k' = k) then (k, v) :: l' else (k', v') :: set_assoc k v l'
  end.

Definition setArg (k v : string) : M unit :=
  modify_vars (λ x, set_args (set_assoc k v (_args x)) x).

Definition getArgStringList : M (list string) :=
  v ← get_vars; mret (concat (map (λ kv, [kv.1; kv.2]) (_args v))).

Definition getArgString : M string :=
  l ← getArgStringList; mret (join " " l).

(** Modelled from the spec: the cheap state queries and the wait of the base
    class, absent from the sources. *)
Definition isQueued (self : Somd) : M bool := mret (_is_queued self).

(** [self._process.isRunning()] *)
Definition isRunning (pid : nat) : M bool :=
  w ← get_world; mret (bool_decide (pid ∈ running w)).

(** [self.wait()]: nothing to wait for before the first start. *)
Definition wait : M unit :=
  v ← get_vars;
  match _process v with
  | None => mret tt
  | Some pid => modify_world (wait_for pid)
  end.

(** Reading a Sire system through its reference. *)
Definition deref (a : nat) : M SireSystem :=
  w ← get_world;
  match store w !! a with
  | Some s => mret s
  | None => raise AttributeError
  end.

(** ** [Somd._generate_config] *)

(** [math.ceil((run_time / time_step) / 100)]: the quotient of the two times
    is a float, its division by 100 a second float division. *)
Definition ncycles_of (run_time time_step : Time) : result Z :=
  match time_div run_time time_step with
  | Ok r => Ok (Qceiling (binary64.round (r / 100)))
  | Raise e => Raise e
  end.

Definition _generate_config (self : Somd) : M unit :=
  modify_vars (set_config []);;
  sys ← deref (_system self);
  let has_box := bool_decide ("space" ∈ propertyKeys sys) in
  match _protocol self with
  | Minimisation steps =>
      addToConfig "minimise = True";;
      addToConfig ("minimise maximum iterations = " +:+ pretty steps);;
      addToConfig "minimise tolerance = 1";;
      addToConfig "ncycles = 1";;
      addToConfig "nmoves = 1";;
      addToConfig "save coordinates = True";;
      (if negb has_box || negb (_has_water self)
       then addToConfig "cutoff type = cutoffnonperiodic"
       else addToConfig "cutoff type = cutoffperiodic");;
      addToConfig "cutoff distance = 10 angstrom"
  | Equilibration run_time time_step temp_start temp_end restrained =>
      (if negb (isConstantTemp temp_start temp_end)
       then raise IncompatibleError else mret tt);;
      (if restrained then raise IncompatibleError else mret tt);;
      ncycles ← lift (ncycles_of run_time time_step);
      let timestep := femtoseconds time_step in
      let temperature := kelvin temp_start in
      addToConfig ("ncycles = " +:+ pretty ncycles);;
      addToConfig "nmoves = 100";;
      addToConfig "save coordinates = True";;
      addToConfig "buffered coordinates frequency = 100";;
      addToConfig ("timestep = " +:+ fmt_2f timestep +:+ " femtosecond");;
      addToConfig "thermostat = True";;
      addToConfig ("temperature = " +:+ fmt_2f temperature +:+ " kelvin");;
      addToConfig "barostat = False";;
      (if _has_water self
       then addToConfig "reaction field dielectric = 78.3"
       else addToConfig "reaction field dielectric = 82.0");;
      (if negb has_box || negb (_has_water self)
       then addToConfig "cutoff type = cutoffnonperiodic"
       else addToConfig "cutoff type = cutoffperiodic");;
      addToConfig "cutoff distance = 10 angstrom";;
      (if _is_seeded self
       then addToConfig ("random seed = " +:+ pretty (_seed self))
       else mret tt)
  | Production run_time time_step temp ensemble =>
      ncycles ← lift (ncycles_of run_time time_step);
      let timestep := femtoseconds time_step in
      let temperature := kelvin temp in
      addToConfig ("ncycles = " +:+ pretty ncycles);;
      addToConfig "nmoves = 100";;
      addToConfig "save coordinates = True";;
      addToConfig "buffered coordinates frequency = 100";;
      addToConfig ("timestep = " +:+ fmt_2f timestep +:+ " femtosecond");;
      addToConfig "thermostat = True";;
      addToConfig ("temperature = " +:+ fmt_2f temperature +:+ " kelvin");;
      (if String.eqb (ensemble_name ensemble) "NVT"
       then addToConfig "barostat = False"
       else if _has_water self && has_box
            then addToConfig "barostat = True";;
                 addToConfig "pressure = 1 atm"
            else addToConfig "barostat = False");;
      (if _has_water self
       then addToConfig "reaction field dielectric = 78.3"
       else addToConfig "reaction field dielectric = 82.0");;
      (if negb has_box || negb (_has_water self)
       then addToConfig "cutoff type = cutoffnonperiodic"
       else addToConfig "cutoff type = cutoffperiodic");;
      addToConfig "cutoff distance = 10 angstrom";;
      (if _is_seeded self
       then addToConfig ("random seed = " +:+ pretty (_seed self))
       else mret tt)
  | FreeEnergy lam lam_vals run_time time_step temp ensemble =>
      ncycles ← lift (ncycles_of run_time time_step);
      let timestep := femtoseconds time_step in
      let temperature := kelvin temp in
      addToConfig ("ncycles = " +:+ pretty ncycles);;
      addToConfig "nmoves = 100";;
      addToConfig "energy frequency = 100";;
      addToConfig "save coordinates = True";;
      addToConfig "buffered coordinates frequency = 100";;
      addToConfig ("timestep = " +:+ fmt_2f timestep +:+ " femtosecond");;
      addToConfig "thermostat = True";;
      addToConfig ("temperature = " +:+ fmt_2f temperature +:+ " kelvin");;
      (if String.eqb (ensemble_name ensemble) "NVT"
       then addToConfig "barostat = False"
       else if _has_water self && has_box
            then addToConfig "barostat = True";;
                 addToConfig "pressure = 1 atm"
            else addToConfig "barostat = False");;
      (if _has_water self
       then addToConfig "reaction field dielectric = 78.3"
       else addToConfig "reaction field dielectric = 82.0");;
      (if negb has_box || negb (_has_water self)
       then addToConfig "cutoff type = cutoffnonperiodic"
       else addToConfig "cutoff type = cutoffperiodic");;
      addToConfig "cutoff distance = 10 angstrom";;
      (if _is_seeded self
       then addToConfig ("random seed = " +:+ pretty (_seed self))
       else mret tt);;
      addToConfig ("lambda array = " +:+ join ", " (map str_float lam_vals));;
      addToConfig ("lambda_val = " +:+ str_float lam)
  | Custom _ => raise IncompatibleError
  end.

(** ** [Somd._generate_args] *)

Definition _generate_args (self : Somd) : M unit :=
  clearArgs;;
  setArg "-c" (_name self +:+ ".rst7");;
  setArg "-t" (_name self +:+ ".prm7");;
  (if is_FreeEnergy (_protocol self)
   then setArg "-m" (_name self +:+ ".pert") else mret tt);;
  setArg "-C" (_name self +:+ ".cfg");;
  setArg "-p" (_platform self).

(** ** [Somd._setup] *)

(** Modelled from the spec: the wrapper constructor [_System(...)], absent
    from the sources.  The adapter holds an internal working copy distinct
    from the caller's original: the constructor allocates a new Sire system
    with the content of the one it is given. *)
Definition System_copy (a : nat) : M nat :=
  s ← deref a;
  w ← get_world;
  let a' := fresh (dom (store w)) in
  modify_world (set_store (<[a' := s]> (store w)));;
  mret a'.

Definition getPerturbableMolecules (a : nat) : M (list Molecule) :=
  s ← deref a; mret (filter (λ m, isPerturbable m = true) (molecules s)).

Definition nPerturbableMolecules (a : nat) : M nat :=
  l ← getPerturbableMolecules a; mret (length l).

Definition getWaterMolecules (a : nat) : M (list Molecule) :=
  s ← deref a; mret (filter (λ m, isWater m = true) (molecules s)).

(** Modelled from the spec: [Molecule._toPertFile], absent from the sources,
    writes the perturbation description and returns the end-state
    (lambda = 0) counterpart of the molecule, which keeps its number. *)
Definition _toPertFile (self : Somd) (m : Molecule) (file : string) : M Molecule :=
  os.write_text file (pert_text m (_property_map self));;
  mret (mkMol (number m) (residues m) (isWater m) false).

(** [system._sire_system.remove(n)], [.add(mol, MGName("all"))] and
    [.molecule(n)] act on the referenced object in place. *)
Definition sire_remove (a n : nat) : M unit :=
  s ← deref a;
  modify_world (λ w, set_store
    (<[a := mkSys (filter (λ m, number m ≠ n) (molecules s)) (propertyKeys s)]>
       (store w)) w).

Definition sire_add (a : nat) (m : Molecule) : M unit :=
  s ← deref a;
  modify_world (λ w, set_store
    (<[a := mkSys (molecules s ++ [m]) (propertyKeys s)]> (store w)) w).

Definition sire_molecule (a n : nat) : M Molecule :=
  s ← deref a;
  match filter (λ m, number m = n) (molecules s) with
  | m :: _ => mret m
  | [] => raise KeyError
  end.

(** [mol.edit().residue(ResIdx(0)).rename(ResName(name)).molecule().commit()] *)
Definition rename_first_residue (m : Molecule) (name : string) : M Molecule :=
  match residues m with
  | [] => raise IndexError
  | _ :: rs => mret (mkMol (number m) (name :: rs) (isWater m) (isPerturbable m))
  end.

(** The blocks of [_setup], in the order of the source. *)

(** The perturbation file and the substitution of the end state for the
    perturbable molecule. *)
Definition substitute_end_state (self : Somd) (system : nat) : M unit :=
  pert_mols ← getPerturbableMolecules system;
  match pert_mols with
  | [] => raise IndexError
  | pert_mol :: _ =>
      pert_mol ← _toPertFile self pert_mol (_pert_file self);
      modify_vars (λ v, set_input_files (_input_files v ++ [_pert_file self]) v);;
      sire_remove system (number pert_mol);;
      sire_add system pert_mol
  end.

(** For a free-energy protocol: the check on the number of perturbable
    molecules, then the substitution. *)
Definition stage_perturbation (self : Somd) (system : nat) : M unit :=
  if is_FreeEnergy (_protocol self) then
    n ← nPerturbableMolecules system;
    if decide (n = 1%nat) then substitute_end_state self system
    else raise ValueError
  else mret tt.

(** Every water molecule gets the residue label ["WAT"]. *)
Definition relabel_waters (system : nat) : M unit :=
  waters ← getWaterMolecules system;
  for_each waters (λ mol,
    mol ← sire_molecule system (number mol);
    mol ← rename_first_residue mol "WAT";
    sire_remove system (number mol);;
    sire_add system mol).

(** The coordinate and topology files. *)
Definition write_amber_files (self : Somd) (system : nat) : M unit :=
  system ← deref system;
  try_except
    (match AmberRst7 system (_property_map self) with
     | Some rst => os.write_text (_rst_file self) rst
     | None => raise ValueError
     end)
    (raise IOError);;
  try_except
    (match AmberPrm system (_property_map self) with
     | Some prm => os.write_text (_top_file self) prm
     | None => raise ValueError
     end)
    (raise IOError).

(** The configuration file. *)
Definition write_configuration (self : Somd) : M unit :=
  match _protocol self with
  | Custom config => setConfig config
  | _ => _generate_config self
  end;;
  writeConfig (_config_file self).

Definition _setup (self : Somd) : M (list string) :=
  system ← System_copy (_system self);
  stage_perturbation self system;;
  relabel_waters system;;
  write_amber_files self system;;
  write_configuration self;;
  _generate_args self;;
  v ← get_vars; mret (_input_files v).

(** ** [Somd._clear_output] *)

Definition remove_if_present (file : string) : M unit :=
  b ← os.isfile file;
  if (b : bool) then os.remove file else mret tt.

Definition _clear_output (self : Somd) : M unit :=
  base_clear_output self;;
  remove_if_present (_work_dir self +:+ "/sim_restart.s3");;
  remove_if_present (_work_dir self +:+ "/SYSTEM.s3");;
  remove_if_present (_work_dir self +:+ "/traj000000001.dcd");;
  if is_FreeEnergy (_protocol self) then
    remove_if_present (_work_dir self +:+ "/gradients.dat");;
    remove_if_present (_work_dir self +:+ "/simfile.dat")
  else mret tt.

(** ** [Somd.start] *)

(** [Sire.Base.Process.run]: a new child, alive when the call returns. *)
Definition Process_run (exe : string) (args : list string) (out err : string) : M nat :=
  w ← get_world;
  let pid := fresh (spawned w) in
  modify_world (set_procs ({[pid]} ∪ spawned w) ({[pid]} ∪ running w));;
  mret pid.

(** What follows the clearing of the output in [start]. *)
Definition launch (self : Somd) : M (option unit) :=
  dir ← os.getcwd;
  os.chdir (_work_dir self);;
  args ← getArgStringList;
  os.write_text "README.txt" "";;
  argstr ← getArgString;
  let command := _exe self +:+ " " +:+ argstr in
  modify_vars (set_command (Some command));;
  os.write_text "README.txt"
    ("# SOMD was run with the following command:" +:+ newline +:+
     command +:+ newline);;
  w ← get_world;
  modify_vars (set_timer (Some (clock w)));;
  pid ← Process_run (_exe self) args (_name self +:+ ".out") (_name self +:+ ".out");
  modify_vars (set_process (Some pid));;
  os.write_text (os.basename (_stderr_file self))
    ("All output has been redirected to the stdout stream!" +:+ newline);;
  os.chdir dir;;
  mret (Some tt).

(** [start] returns [None] when it has nothing to do and the object once the
    engine was spawned. *)
Definition start (self : Somd) : M (option unit) :=
  queued ← isQueued self;
  if (queued : bool) then mret None else
  v ← get_vars;
  alive ← match _process v with
          | Some pid => isRunning pid
          | None => mret false
          end;
  if (alive : bool) then mret None else
  _clear_output self;;
  launch self.

(** ** Accessors *)

(** The [block] argument: [True], [False] or ["AUTO"]. *)
Inductive Block := BlockTrue | BlockFalse | BlockAuto.

(** What [getTime] and [getGradient] hand back: the whole series or its
    latest record. *)
Inductive reading :=
  | Series (l : list Q)
  | Latest (x : Q).

Definition getTrajectory (self : Somd) (block : Block) : M (option (list SireSystem)) :=
  match block with
  | BlockTrue => wait
  | BlockAuto => if _is_blocked self then wait else mret tt
  | BlockFalse => mret tt
  end;;
  try_except
    (w ← get_world;
     match read_trajectory self w with
     | Some frames => mret (Some frames)
     | None => raise ValueError
     end)
    (mret None).

Definition getSystem (self : Somd) (block : Block) : M (option SireSystem) :=
  traj ← getTrajectory self block;
  try_except
    (match traj with
     | None => raise AttributeError
     | Some frames =>
         match last frames with
         | Some f => mret (Some f)
         | None => raise IndexError
         end
     end)
    (mret None).

Definition getCurrentSystem (self : Somd) : M (option SireSystem) :=
  getSystem self BlockFalse.

Definition getTimeStep (p : Protocol) : result Time :=
  match p with
  | Equilibration _ ts _ _ _ | Production _ ts _ _ | FreeEnergy _ _ _ ts _ _ => Ok ts
  | _ => Raise AttributeError
  end.

Definition getTime (self : Somd) (time_series : bool) (block : Block) : M (option reading) :=
  if is_Minimisation (_protocol self) then mret None else
  traj ← getTrajectory self block;
  num_frames ← match traj with
               | Some frames => mret (length frames)
               | None => raise AttributeError
               end;
  if decide (num_frames = 0%nat) then mret None else
  times ← try_except
            (ts ← lift (getTimeStep (_protocol self));
             mret (Some (map (λ x : nat, (100 * nanoseconds ts) * inject_Z (Z.of_nat x))%Q
                             (seq 1 num_frames))))
            (mret None);
  match times with
  | None => mret None
  | Some times =>
      if time_series then mret (Some (Series times))
      else match last times with
           | Some t => mret (Some (Latest t))
           | None => raise IndexError
           end
  end.

Definition getCurrentTime (self : Somd) (time_series : bool) : M (option reading) :=
  getTime self time_series BlockFalse.

(** One pass of the loop over the new lines of the gradient file. *)
Definition read_gradient_line (line : string) : M unit :=
  match line with
  | "" => raise IndexError
  | String c _ =>
      if decide (c = "#"%char) then mret tt
      else match last (split (rstrip line)) with
           | None => raise IndexError
           | Some tok =>
               match float_of_string tok with
               | Some g => modify_vars (λ v, set_gradients (_gradients v ++ [g]) v)
               | None => raise ValueError
               end
           end
  end.

Definition getGradient (self : Somd) (time_series : bool) (block : Block) : M (option reading) :=
  present ← os.isfile (_gradient_file self);
  if negb present then mret None else
  w ← get_world;
  for_each (pygtail.unread w (_gradient_file self)) read_gradient_line;;
  pygtail.commit (_gradient_file self);;
  v ← get_vars;
  if decide (length (_gradients v) = 0%nat) then mret None
  else if time_series then mret (Some (Series (_gradients v)))
  else match last (_gradients v) with
       | Some g => mret (Some (Latest g))
       | None => raise IndexError
       end.

Definition getCurrentGradient (self : Somd) (time_series : bool) : M (option reading) :=
  getGradient self time_series BlockFalse.

End Adapter.

(** ** The specification's side *)


Definition getEnsemble (p : Protocol) : result Ensemble :=
  match p with
  | Production _ _ _ e | FreeEnergy _ _ _ _ _ e => Ok e
  | _ => Raise AttributeError
  end.


(** The cycle count as the specification words it:
    [ceil(run_time / (time_step * 100))]. *)
Definition spec_ncycles (run_time time_step : Time) : Z :=
  Qceiling (femtoseconds run_time / (femtoseconds time_step * 100))%Q.

(** The barostat policy as the specification words it: constant pressure,
    water present and box present. *)
Definition barostat_enabled (e : Ensemble) (has_water has_box : bool) : bool :=
  is_constant_pressure e && has_water && has_box.

(** [os.path.isfile] as a pure test on a state. *)
Definition file_exists (st : state) (p : string) : Prop :=
  resolve (world st) p ∈ dom (files (world st)).

(** The process is neither queued nor alive. *)
Definition idle (self : Somd) (st : state) : Prop :=
  _is_queued self = false ∧
  ∀ pid, _process (vars st) = Some pid → pid ∉ running (world st).

(** The fixed names of the artifacts of a previous run. *)
Definition restart_and_trajectory_files (self : Somd) : list string :=
  [_work_dir self +:+ "/sim_restart.s3";
   _work_dir self +:+ "/SYSTEM.s3";
   _work_dir self +:+ "/traj000000001.dcd"].

Definition gradient_and_energy_files (self : Somd) : list string :=
  [_work_dir self +:+ "/gradients.dat";
   _work_dir self +:+ "/simfile.dat"].

(** ** Vocabulary of the proofs *)

(** The cleanup never adds a file and never moves the process. *)
Definition shrinks (st st' : state) : Prop :=
  cwd (world st') = cwd (world st) ∧
  dom (files (world st')) ⊆ dom (files (world st)).

(** [ensures R E m]: from any state, [m] ends in a state related to the
    initial one by [R], and if it raises, the exception is in [E]. *)
Definition ensures {A} (R : relation state) (E : exn → Prop) (m : M A) : Prop :=
  ∀ st, R st (m st).2 ∧ ∀ e, (m st).1 = Raise e → E e.

(** Every Sire system but the one at [a] is what it was. *)
Definition store_frame (a : nat) (st st' : state) : Prop :=
  ∀ b, b ≠ a → store (world st') !! b = store (world st) !! b.

(** The relation that allows every change. *)
Definition any_change : relation state := λ _ _, True.

(** The lines of the configuration are what they were. *)
Definition same_config : relation state :=
  λ st st', _config (vars st') = _config (vars st).




(** What [_setup] needs from its surroundings to complete a free-energy
    setup on the system [sys]: every molecule has a first residue, the
    serialisers accept a system with the properties of [sys], the four input
    files may be written, and the time step is not zero. *)
Definition stageable `{Runtime} (self : Somd) (st : state) (sys : SireSystem) :
    Prop :=
  (∀ m, m ∈ molecules sys → residues m ≠ [])
  ∧ (∀ s, propertyKeys s = propertyKeys sys →
          is_Some (AmberRst7 s (_property_map self))
          ∧ is_Some (AmberPrm s (_property_map self)))
  ∧ (∀ p, p ∈ [_pert_file self; _rst_file self; _top_file self;
               _config_file self] →
          resolve (world st) p ∉ denied (world st))
  ∧ (∀ ts, getTimeStep (_protocol self) = Ok ts →
           Qeq_bool (femtoseconds ts) 0 = false).

(** ** A concrete runtime and concrete processes, to run the model on *)

Module Sample.

Definition two_digits (n : Z) : string :=
  if (n <? 10)%Z then "0" +:+ pretty n else pretty n.

(** Two decimals, rounding half up; enough for the non-negative values of
    the examples. *)
Definition fixed2 (q : Q) : string :=
  let n := Qfloor (Qplus (Qmult q 100%Q) (1 # 2)%Q) in
  pretty (n / 100)%Z +:+ "." +:+ two_digits (n mod 100)%Z.

Fixpoint digits_go (acc : N) (s : string) : option N :=
  match s with
  | "" => Some acc
  | String c s' =>
      match Ascii.is_nat c with
      | Some d => digits_go (acc * 10 + N.of_nat d)%N s'
      | None => None
      end
  end.

(** Plain decimal integers with an optional sign. *)
Definition parse_number (s : string) : option Q :=
  match s with
  | "" => None
  | String "-"%char (String c s') =>
      (λ n, inject_Z (- Z.of_N n)) <$> digits_go 0%N (String c s')
  | _ => (λ n, inject_Z (Z.of_N n)) <$> digits_go 0%N s
  end.

Definition work_traj (self : Somd) : string :=
  _work_dir self +:+ "/traj000000001.dcd".

Global Instance runtime : Runtime := {|
  fmt_2f := fixed2;
  str_float := fixed2;
  float_of_string := parse_number;
  AmberRst7 sys _ :=
    if decide ("coordinates" ∈ propertyKeys sys)
    then Some ("rst7 " +:+ pretty (length (molecules sys)))
    else None;
  AmberPrm sys _ := Some ("prm7 " +:+ pretty (length (molecules sys)));
  pert_text m _ := "pert " +:+ pretty (number m);
  read_trajectory self w :=
    if decide (work_traj self ∈ dom (files w)) then Some [] else None;
  wait_for pid w := set_procs (spawned w) (running w ∖ {[pid]}) w;
  base_clear_output _ := mret tt;
|}.

Definition ligand : Molecule := mkMol 1 ["LIG"] false true.
Definition ligand2 : Molecule := mkMol 4 ["LIG"] false true.
Definition water1 : Molecule := mkMol 2 ["HOH"] true false.
Definition water2 : Molecule := mkMol 3 ["T3P"] true false.

Definition solvated : SireSystem :=
  mkSys [ligand; water1; water2] ["space"; "coordinates"].
Definition two_ligands : SireSystem :=
  mkSys [ligand; water1; ligand2] ["space"; "coordinates"].
Definition no_ligand : SireSystem :=
  mkSys [water1; water2] ["space"; "coordinates"].

Definition ten_ps : Time := picoseconds_of 10.
Definition two_fs : Time := femtoseconds_of 2.
Definition room : Temperature := mkTemp 300.

Definition free_energy : Protocol :=
  FreeEnergy 0 [0; 1 # 2; 1]%Q ten_ps two_fs room NPT.
Definition production : Protocol := Production ten_ps two_fs room NPT.
Definition equilibration : Protocol :=
  Equilibration ten_ps two_fs room room false.

Definition process (p : Protocol) : Somd :=
  mkSomd 0 p "somd" "/work" 42 true [] "CPU" "/opt/sire/bin/somd"
         true false false.

Definition no_vars : Vars :=
  mkVars [] ["/work/somd.cfg"; "/work/somd.rst7"; "/work/somd.prm7"]
         [] [] None None None.

Definition machine (sys : SireSystem) (fs : gmap string string)
    (ro : gset string) : World :=
  mkWorld "/home/user" fs {["/home/user"; "/work"]} ro ∅ {[0%nat := sys]} ∅ ∅ 7.

Definition initial (sys : SireSystem) : state :=
  mkState no_vars (machine sys ∅ ∅).

(** A working directory that holds the output of an earlier run. *)
Definition stale_files : gmap string string :=
  {[ "/work/sim_restart.s3" := "restart";
     "/work/traj000000001.dcd" := "frames";
     "/work/gradients.dat" := "old gradients";
     "/work/simfile.dat" := "old energies" ]}.

Definition stale (sys : SireSystem) : state :=
  mkState no_vars (machine sys stale_files ∅).

(** The sample production process once started. *)
Definition started : state :=
  (start (process production) (initial solvated)).2.

(** A gradient log as the engine appends to it. *)
Definition gradient_log : string :=
  "#step gradient" +:+ newline +:+
  "100 -12" +:+ newline +:+
  "200 7" +:+ newline.

Definition logged (text : string) : state :=
  mkState no_vars
    (machine solvated {[ "/work/gradients.dat" := text ]} ∅).

End Sample.

(** * The constructor, and what else [_somd.py] shows *)

(** ** Python values, and exceptions beyond those of the methods *)

(** The values that reach an argument check: [None], booleans, integers,
    floats, strings and lists. *)
#[warnings="-register-all"]
Inductive pyval :=
  | PyNone
  | PyBool (b : bool)
  | PyInt (z : Z)
  | PyFloat (q : Q)
  | PyStr (s : string)
  | PyList (l : list pyval).

Inductive error :=
  | Known (e : exn)
  | MissingSoftwareError
  | UnboundLocalError
  | OverflowError.

Inductive outcome (A : Type) :=
  | Returned (a : A)
  | Raised (e : error).
Arguments Returned {A} a.
Arguments Raised {A} e.

Global Instance outcome_ret : MRet outcome := λ A a, Returned a.
Global Instance outcome_bind : MBind outcome := λ A B f m,
  match m with
  | Returned a => f a
  | Raised e => Raised e
  end.

(** ** [Somd.__init__] *)

(** [str.upper] on the ASCII range. *)
Definition upper_char (c : ascii) : ascii :=
  let n := nat_of_ascii c in
  if Nat.leb 97 n && Nat.leb n 122 then ascii_of_nat (n - 32) else c.

Fixpoint upper (s : string) : string :=
  match s with
  | "" => ""
  | String c s' => String (upper_char c) (upper s')
  end.

(** [s.replace(" ", "")] *)
Fixpoint remove_spaces (s : string) : string :=
  match s with
  | "" => ""
  | String c s' =>
      if decide (c = " "%char) then remove_spaces s'
      else String c (remove_spaces s')
  end.

(** The class attribute [_platforms]: the supported platforms and their
    OpenMM keyword. *)
Definition _platforms : list (string * string) :=
  [("CPU", "CPU"); ("CUDA", "CUDA"); ("OPENCL", "OpenCL")].

Fixpoint get_assoc (k : string) (l : list (string * string)) : option string :=
  match l with
  | [] => None
  | (k', v) :: l' => if decide (k' = k) then Some v else get_assoc k l'
  end.

(** The check of the [platform] argument. *)
Definition select_platform (platform : pyval) : outcome string :=
  match platform with
  | PyStr platform =>
      let platform := upper (remove_spaces platform) in
      match get_assoc platform _platforms with
      | Some keyword => Returned keyword
      | None => Raised (Known ValueError)
      end
  | _ => Raised (Known TypeError)
  end.

(** [os.path.isfile] on a state of the world. *)
Definition isfile_in (w : World) (p : string) : bool :=
  bool_decide (resolve w p ∈ dom (files w)).

(** The check of the [exe] argument; [bin_dir] is what
    [Sire.Base.getBinDir()] returns. *)
Definition select_exe (self : Somd) (exe : option string) (bin_dir : string)
    (w : World) : outcome string :=
  match exe with
  | None =>
      let somd_exe :=
        if is_FreeEnergy (_protocol self) then bin_dir +:+ "/somd-freenrg"
        else bin_dir +:+ "/somd" in
      if negb (isfile_in w somd_exe) then Raised MissingSoftwareError
      else Returned somd_exe
  | Some exe =>
      if isfile_in w exe then Returned exe else Raised (Known IOError)
  end.

Definition set_platform_exe (platform exe : string) (self : Somd) : Somd :=
  mkSomd (_system self) (_protocol self) (_name self) (_work_dir self)
         (_seed self) (_is_seeded self) (_property_map self) platform exe
         (_has_water self) (_is_blocked self) (_is_queued self).

(** The constructor, from the object and the state the base-class
    constructor leaves: the two argument checks, the empty gradient list,
    the list of input files and the set-up of the working directory. *)
Definition __init__ `{Runtime} (self : Somd) (exe : option string)
    (platform : pyval) (bin_dir : string) : state → outcome Somd * state :=
  λ st,
  match select_platform platform with
  | Raised e => (Raised e, st)
  | Returned keyword =>
      match select_exe self exe bin_dir (world st) with
      | Raised e => (Raised e, st)
      | Returned somd_exe =>
          let self := set_platform_exe keyword somd_exe self in
          let st := mkState
            (set_input_files [_config_file self; _rst_file self; _top_file self]
               (set_gradients [] (vars st))) (world st) in
          match _setup self st with
          | (Ok _, st') => (Returned self, st')
          | (Raise e, st') => (Raised (Known e), st')
          end
      end
  end.

(** ** Vocabulary of the further properties *)

(** The command-line arguments in the order of [_generate_args]. *)
Definition argument_list (self : Somd) : list string :=
  ["-c"; _name self +:+ ".rst7"; "-t"; _name self +:+ ".prm7"] ++
  (if is_FreeEnergy (_protocol self) then ["-m"; _name self +:+ ".pert"]
   else []) ++
  ["-C"; _name self +:+ ".cfg"; "-p"; _platform self].

(** The files [_clear_output] may delete. *)
Definition cleared_files (self : Somd) : list string :=
  restart_and_trajectory_files self ++
  (if is_FreeEnergy (_protocol self) then gradient_and_energy_files self
   else []).

(** A text that does not stop in the middle of a line. *)
Definition whole_lines (text : string) : Prop :=
  text = "" ∨ ∃ t, text = t +:+ newline.

(** The time of the [k]-th frame: frames are [100] steps apart. *)
Definition frame_time (ts : Time) (k : nat) : Q :=
  ((100 * nanoseconds ts) * inject_Z (Z.of_nat k))%Q.

(** No file is lost and the process has not moved. *)
Definition grows (st st' : state) : Prop :=
  cwd (world st') = cwd (world st) ∧
  dom (files (world st)) ⊆ dom (files (world st')).

(** Only the configuration lines may differ. *)
Definition config_only (st st' : state) : Prop :=
  world st' = world st ∧ set_config [] (vars st') = set_config [] (vars st).

(** Every water molecule carries the residue label ["WAT"]. *)
Definition waters_labelled (s : SireSystem) : Prop :=
  ∀ m, m ∈ molecules s → isWater m = true →
       ∃ rs, residues m = "WAT" :: rs.

(** The observation [f] of the state is what it was. *)
Definition unchanged {A} (f : state → A) : relation state :=
  λ st st', f st' = f st.

(** [steady]: no file is lost, the process has not moved, and the lists of
    input files and of gradients are what they were. *)
Definition steady (st st' : state) : Prop :=
  grows st st'
  ∧ _input_files (vars st') = _input_files (vars st)
  ∧ _gradients (vars st') = _gradients (vars st).

(** What [getGradient] hands back from the records it holds. *)
Definition gradient_reading (series : bool) (records : list Q) :
    result (option reading) :=
  if decide (length records = 0%nat) then Ok None
  else if series then Ok (Some (Series records))
  else match last records with
       | Some g => Ok (Some (Latest g))
       | None => Raise IndexError
       end.

(** The log once the engine has written [text] to it. *)
Definition with_log (file text : string) (st : state) : state :=
  mkState (vars st)
    (set_files (<[resolve (world st) file := text]> (files (world st)))
               (world st)).

(** [erases paths st st']: between [st] and [st'] files were deleted at
    most, and none but those at [paths]; nothing else has changed. *)
Definition erases (paths : list string) (st st' : state) : Prop :=
  vars st' = vars st
  ∧ world st' = set_files (files (world st')) (world st)
  ∧ files (world st') ⊆ files (world st)
  ∧ ∀ p, p ∉ paths → files (world st') !! p = files (world st) !! p.

(** * BioSimSpace.Gateway: the requirement classes

    The development follows [python/BioSimSpace/Gateway/requirements.py].  A
    requirement is an object of one of six classes; the base class refuses
    to be instantiated.  A method that assigns to [self] returns the updated
    object; when it raises, the object is what it was. *)

Module Gateway.

Inductive class := Boolean | Integer | Float | String | File | FileSet.

Record Requirement := mkRequirement {
  class_of : class;
  _help : string;
  _value : pyval;
  _default : pyval;
  _units : pyval;
  _min : pyval;
  _max : pyval;
  _allowed : pyval;
  _is_optional : bool;
}.

Definition set_value (v : pyval) (r : Requirement) : Requirement :=
  mkRequirement (class_of r) (_help r) v (_default r) (_units r) (_min r)
                (_max r) (_allowed r) (_is_optional r).
Definition set_default (v : pyval) (r : Requirement) : Requirement :=
  mkRequirement (class_of r) (_help r) (_value r) v (_units r) (_min r)
                (_max r) (_allowed r) (_is_optional r).
Definition set_is_optional (b : bool) (r : Requirement) : Requirement :=
  mkRequirement (class_of r) (_help r) (_value r) (_default r) (_units r)
                (_min r) (_max r) (_allowed r) b.
Definition set_min (v : pyval) (r : Requirement) : Requirement :=
  mkRequirement (class_of r) (_help r) (_value r) (_default r) (_units r) v
                (_max r) (_allowed r) (_is_optional r).
Definition set_max (v : pyval) (r : Requirement) : Requirement :=
  mkRequirement (class_of r) (_help r) (_value r) (_default r) (_units r)
                (_min r) v (_allowed r) (_is_optional r).
Definition set_allowed (v : pyval) (r : Requirement) : Requirement :=
  mkRequirement (class_of r) (_help r) (_value r) (_default r) (_units r)
                (_min r) (_max r) v (_is_optional r).

Definition raise {A} (e : exn) : outcome A := Raised (Known e).

Definition is_None (v : pyval) : bool :=
  match v with PyNone => true | _ => false end.

(** *** Python operators on the values a requirement holds *)

(** The number behind a boolean, an integer or a float. *)
Definition number_of (v : pyval) : option Q :=
  match v with
  | PyBool b => Some (inject_Z (Z.b2z b))
  | PyInt z => Some (inject_Z z)
  | PyFloat q => Some q
  | _ => None
  end.

(** [a < b]: numbers by value, strings by their order; the constructors
    store no bound of another type, and Python raises on a mixed pair. *)
Definition py_lt (a b : pyval) : outcome bool :=
  match number_of a, number_of b with
  | Some x, Some y => Returned (negb (Qle_bool y x))
  | _, _ =>
      match a, b with
      | PyStr s, PyStr t => Returned (String.ltb s t)
      | _, _ => raise TypeError
      end
  end.

(** [a == b] *)
Fixpoint py_eq (a b : pyval) : bool :=
  match number_of a, number_of b with
  | Some x, Some y => Qeq_bool x y
  | _, _ =>
      match a, b with
      | PyNone, PyNone => true
      | PyStr s, PyStr t => String.eqb s t
      | PyList l, PyList l' =>
          (fix go (l l' : list pyval) : bool :=
             match l, l' with
             | [], [] => true
             | x :: l, y :: l' => py_eq x y && go l l'
             | _, _ => false
             end) l l'
      | _, _ => false
      end
  end.

(** [value in allowed], for the list the constructors store. *)
Definition py_in (value allowed : pyval) : outcome bool :=
  match allowed with
  | PyList l => Returned (existsb (py_eq value) l)
  | _ => raise TypeError
  end.

(** [for x in v]: the elements of a list, the characters of a string. *)
Definition iterate (v : pyval) : outcome (list pyval) :=
  match v with
  | PyList l => Returned l
  | PyStr s => Returned ((λ c, PyStr (String.String c "")) <$> list_ascii_of_string s)
  | _ => raise TypeError
  end.

(** [raise ValueError("... %d ..." % (v, ...))]: the message is formatted
    first, and [%d] takes numbers only. *)
Definition raise_ValueError_d {A} (formatted : list pyval) : outcome A :=
  if forallb (λ v, bool_decide (is_Some (number_of v))) formatted
  then raise ValueError else raise TypeError.

(** *** [Requirement.__init__] *)

Definition Requirement__init__ (c : class)
    (help default units minimum maximum allowed optional : pyval) :
    outcome Requirement :=
  match help with
  | PyNone => raise ValueError
  | PyStr help =>
      match optional with
      | PyBool optional =>
          Returned (mkRequirement c help PyNone default PyNone minimum maximum
                                  allowed optional)
      | _ => raise TypeError
      end
  | _ => raise TypeError
  end.

(** *** [_validate], class by class *)

Definition Boolean_validate (value : pyval) : outcome pyval :=
  match value with PyBool _ => Returned value | _ => raise TypeError end.

Definition Integer_validate (value : pyval) : outcome pyval :=
  match value with PyInt _ => Returned value | _ => raise TypeError end.

(** [float(value)] for an integer: the float nearest to it, and
    OverflowError for an integer that is rounded beyond the largest float. *)
Definition float (value : Z) : outcome pyval :=
  let nearest := binary64.round (inject_Z value) in
  if binary64.overflows nearest then Raised OverflowError
  else Returned (PyFloat nearest).

Definition Float_validate (value : pyval) : outcome pyval :=
  match value with
  | PyFloat _ => Returned value
  | PyInt z => float z
  | _ => raise TypeError
  end.

Definition String_validate (value : pyval) : outcome pyval :=
  match value with PyStr _ => Returned value | _ => raise TypeError end.

Definition File_validate (self : Requirement) (w : World) (value : pyval) :
    outcome pyval :=
  if _is_optional self && is_None value then Returned PyNone else
  match value with
  | PyStr file =>
      if negb (isfile_in w file) then raise IOError else Returned (PyStr file)
  | _ => raise TypeError
  end.

(** The loop of [FileSet._validate]: the type of every element is checked,
    and the loop variable [file] is left at the last one. *)
Fixpoint check_types (value : list pyval) (file : option string) :
    outcome (option string) :=
  match value with
  | [] => Returned file
  | PyStr s :: value' => check_types value' (Some s)
  | _ :: _ => raise TypeError
  end.

Definition FileSet_validate (self : Requirement) (w : World) (value : pyval) :
    outcome pyval :=
  if _is_optional self && is_None value then Returned PyNone else
  match value with
  | PyList l =>
      file ← check_types l None;
      match file with
      | None => Raised UnboundLocalError
      | Some file =>
          if negb (isfile_in w file) then raise IOError else Returned value
      end
  | _ => Returned value
  end.

Definition _validate (self : Requirement) (w : World) (value : pyval) :
    outcome pyval :=
  match class_of self with
  | Boolean => Boolean_validate value
  | Integer => Integer_validate value
  | Float => Float_validate value
  | String => String_validate value
  | File => File_validate self w value
  | FileSet => FileSet_validate self w value
  end.

(** *** [Requirement.setValue] *)

Definition setValue (self : Requirement) (w : World) (value : pyval) :
    outcome Requirement :=
  value ← _validate self w value;
  below ← (if is_None (_min self) then Returned false
           else py_lt value (_min self));
  if (below : bool) then raise_ValueError_d [value; _min self] else
  above ← (if is_None (_max self) then Returned false
           else py_lt (_max self) value);
  if (above : bool) then raise_ValueError_d [value; _max self] else
  listed ← (if is_None (_allowed self) then Returned true
            else py_in value (_allowed self));
  if negb listed then raise_ValueError_d [value] else
  Returned (set_value value self).

Definition getValue (self : Requirement) : pyval := _value self.
Definition getDefault (self : Requirement) : pyval := _default self.
Definition getUnits (self : Requirement) : pyval := _units self.
Definition getHelp (self : Requirement) : string := _help self.
Definition isMulti (self : Requirement) : bool :=
  match class_of self with FileSet => true | _ => false end.
Definition isOptional (self : Requirement) : bool := _is_optional self.
Definition getMin (self : Requirement) : pyval := _min self.
Definition getMax (self : Requirement) : pyval := _max self.
Definition getAllowedValues (self : Requirement) : pyval := _allowed self.

(** *** The constructors of the classes *)

(** [if x is not None: self.<field> = self._validate(x)] *)
Definition validated (validate : pyval → outcome pyval)
    (set : pyval → Requirement → Requirement) (x : pyval)
    (self : Requirement) : outcome Requirement :=
  if is_None x then Returned self
  else v ← validate x; Returned (set v self).

(** [if allowed is not None:
       self._allowed = [self._validate(x) for x in allowed]] *)
Definition validated_list (validate : pyval → outcome pyval)
    (allowed : pyval) (self : Requirement) : outcome Requirement :=
  if is_None allowed then Returned self
  else l ← iterate allowed;
       l ← mapM validate l;
       Returned (set_allowed (PyList l) self).

(** [if default is not None:
       self._default = self._validate(default)
       self._is_optional = True] *)
Definition with_default (validate : pyval → outcome pyval) (default : pyval)
    (self : Requirement) : outcome Requirement :=
  if is_None default then Returned self
  else v ← validate default;
       Returned (set_is_optional true (set_default v self)).

Definition Boolean__init__ (help default : pyval) : outcome Requirement :=
  self ← Requirement__init__ Boolean help PyNone PyNone PyNone PyNone PyNone
                             (PyBool false);
  with_default Boolean_validate default self.

Definition Integer__init__ (help default minimum maximum allowed : pyval) :
    outcome Requirement :=
  self ← Requirement__init__ Integer help PyNone PyNone PyNone PyNone PyNone
                             (PyBool false);
  self ← validated Integer_validate set_min minimum self;
  self ← validated Integer_validate set_max maximum self;
  self ← validated_list Integer_validate allowed self;
  with_default Integer_validate default self.

Definition Float__init__ (help default minimum maximum allowed : pyval) :
    outcome Requirement :=
  self ← Requirement__init__ Float help PyNone PyNone PyNone PyNone PyNone
                             (PyBool false);
  self ← validated Float_validate set_min minimum self;
  self ← validated Float_validate set_max maximum self;
  self ← validated_list Float_validate allowed self;
  with_default Float_validate default self.

Definition String__init__ (help default allowed : pyval) :
    outcome Requirement :=
  self ← Requirement__init__ String help PyNone PyNone PyNone PyNone PyNone
                             (PyBool false);
  self ← validated_list String_validate allowed self;
  with_default String_validate default self.

Definition File__init__ (help optional : pyval) : outcome Requirement :=
  Requirement__init__ File help PyNone PyNone PyNone PyNone PyNone optional.

Definition FileSet__init__ (help optional : pyval) : outcome Requirement :=
  Requirement__init__ FileSet help PyNone PyNone PyNone PyNone PyNone optional.

End Gateway.

(** ** Vocabulary of the requirements *)

(** What [Float._validate] makes of a bound, a default or a value that it
    accepts: an integer becomes the float nearest to it. *)
Definition as_float (v : pyval) : pyval :=
  match v with
  | PyInt z => PyFloat (binary64.round (inject_Z z))
  | _ => v
  end.

(** The integers that [float] converts. *)
Definition in_float_range (z : Z) : Prop :=
  binary64.overflows (binary64.round (inject_Z z)) = false.

Definition none_or_number (v : pyval) : Prop :=
  v = PyNone ∨ (∃ z, v = PyInt z ∧ in_float_range z) ∨ (∃ q, v = PyFloat q).

(** * BioSimSpace.Solvent: the checks before the solvation

    The development follows [python/BioSimSpace/Solvent/__init__.py] up to
    the call of [_solvate], which drives the GROMACS tools.  The lengths of
    [BioSimSpace.Types], the bounding box of a solute, the paths of the
    GROMACS installation and [_solvate] itself are collaborators. *)

Module Solvent.

(** A molecule or a system of [BioSimSpace._SireWrappers], by reference,
    with what [isMerged] answers. *)
Record Body := mkBody { body_ref : nat; isMerged : bool }.

(** The [molecule] argument: [None], a molecule, a system, or a value of
    another type. *)
Inductive solute :=
  | NoSolute
  | AMolecule (b : Body)
  | ASystem (b : Body)
  | AnotherValue.

Definition dict := list (string * string).

Class Toolkit := {
  (** [BioSimSpace.Types.Length]: its constructor, from a magnitude and the
      name of a unit, and its order *)
  Length : Type;
  make_Length : Q → string → outcome Length;
  Length_lt : Length → Length → bool;
  (** [molecule._getAABox(map).halfExtents()] *)
  halfExtents : Body → dict → outcome (list Q);
  (** [BioSimSpace._gmx_exe] and [BioSimSpace._gromacs_path] *)
  _gmx_exe : option string;
  _gromacs_path : option string;
  (** the systems [_solvate] returns *)
  System : Type;
  _solvate : solute → list Length → option Length → string → Z →
             pyval → pyval → pyval → dict → outcome System;
}.

Section Checks.
Context `{Toolkit}.

(** An element of the [box] argument, and the [shell] argument: a length,
    or a value of another type. *)
Inductive item :=
  | ALength (l : Length)
  | NotALength.

(** The [map] argument: a dictionary, or a value of another type. *)
Inductive mapping :=
  | ADict (d : dict)
  | NotADict.

Definition raise {A} (e : exn) : outcome A := Raised (Known e).

(** [all(isinstance(x, _Length) for x in box)], with the lengths. *)
Fixpoint lengths (box : list item) : option (list Length) :=
  match box with
  | [] => Some []
  | ALength l :: box' => cons l <$> lengths box'
  | NotALength :: _ => None
  end.

(** [_check_box_size]: [zip] stops at the shorter of the two lists. *)
Fixpoint box_holds (box mol_box : list Length) : bool :=
  match box, mol_box with
  | len1 :: box', len2 :: mol_box' =>
      if Length_lt len1 len2 then false else box_holds box' mol_box'
  | _, _ => true
  end.

Definition _check_box_size (molecule : Body) (box : list Length) (map : dict) :
    outcome bool :=
  aabox ← halfExtents molecule map;
  mol_box ← mapM (λ x, make_Length (2 * x)%Q " A") aabox;
  Returned (box_holds box mol_box).

(** The remapping of the coordinates of a merged molecule. *)
Definition remap_coordinates (map : dict) : dict :=
  match get_assoc "coordinates" map with
  | None => set_assoc "coordinates" "coordinates0" map
  | Some c =>
      if negb (String.eqb c "coordinates0") && negb (String.eqb c "coordinates1")
      then set_assoc "coordinates" "coordinates0" map
      else map
  end.

Definition _validate_input (molecule : solute) (box : option (list item))
    (shell : option item) (ion_conc is_neutral work_dir : pyval)
    (map : mapping) :
    outcome (solute * list Length * option Length * pyval * dict) :=
  (* the box and the shell that go on *)
  '(box, shell) ←
    match molecule with
    | AnotherValue => raise TypeError
    | ASystem _ =>
        match box with
        | None =>
            (* [system] is not a name of this function: whatever the map
               holds, the body of the [try] raises, and the handler turns
               that into a ValueError *)
            raise ValueError
        | Some box => Returned (box, shell)
        end
    | AMolecule _ =>
        match box with
        | None => raise ValueError
        | Some box => Returned (box, shell)
        end
    | NoSolute =>
        match box with
        | None => raise ValueError
        | Some box => Returned (box, None)
        end
    end;
  (if negb (length box =? 3)%nat then raise ValueError else Returned tt);;
  box ← match lengths box with
        | Some box => Returned box
        | None => raise ValueError
        end;
  shell ← match shell with
           | None => Returned None
           | Some (ALength l) => Returned (Some l)
           | Some NotALength => raise ValueError
           end;
  map ← match map with
         | ADict d => Returned d
         | NotADict => raise TypeError
         end;
  match work_dir with
  | PyNone | PyStr _ => Returned tt
  | _ => raise TypeError
  end;;
  (* [molecule.isMerged()], also when [molecule] is [None] *)
  merged ← match molecule with
            | AMolecule b | ASystem b => Returned (isMerged b)
            | _ => raise AttributeError
            end;
  let map := if (merged : bool) then remap_coordinates map else map in
  match ion_conc with
  | PyFloat q => if Qle_bool 0 q then Returned tt else raise ValueError
  | PyInt z => if (0 <=? z)%Z then Returned tt else raise ValueError
  | _ => raise TypeError
  end;;
  match is_neutral with
  | PyBool _ => Returned tt
  | _ => raise TypeError
  end;;
  fits ← match molecule with
          | AMolecule b | ASystem b => _check_box_size b box map
          | _ => Returned true
          end;
  if negb fits then raise ValueError
  else Returned (molecule, box, shell, work_dir, map).

(** The functions of the water models: the tools are looked for, the
    arguments are validated, and [_solvate] is given the name of the model
    and its number of points. *)
Definition model (needs_path : bool) (name : string) (num_point : Z)
    (molecule : solute) (box : option (list item)) (shell : option item)
    (ion_conc is_neutral work_dir : pyval) (map : mapping) : outcome System :=
  if bool_decide (_gmx_exe = None)
     || (needs_path && bool_decide (_gromacs_path = None))
  then Raised MissingSoftwareError else
  '(molecule, box, shell, work_dir, map) ←
    _validate_input molecule box shell ion_conc is_neutral work_dir map;
  _solvate molecule box shell name num_point ion_conc is_neutral work_dir map.

Definition spc := model true "spc" 3.
Definition spce := model false "spce" 3.
Definition tip3p := model false "tip3p" 3.
Definition tip4p := model false "tip4p" 4.
Definition tip5p := model false "tip5p" 5.

(** *** The registry of the water models

    The last lines of the module fill [_models] and [_model_dict] from the
    names of the module itself. *)

Definition water_model : Type :=
  solute → option (list item) → option item → pyval → pyval → pyval →
  mapping → outcome System.

(** What a name of the module is bound to: the function of a water model,
    or another object (a module, a class, a value, a function of other
    arguments). *)
Inductive binding :=
  | WaterModel (f : water_model)
  | AnotherObject.

(** The names of the module when the loop starts, in the order of their
    binding: the names every package has, the imports, [__all__], the
    functions, and the names bound just before the loop.  [waterModels] is
    defined after the loop and is not among them. *)
Definition module_names : list (string * binding) :=
  [("__name__", AnotherObject); ("__doc__", AnotherObject);
   ("__package__", AnotherObject); ("__loader__", AnotherObject);
   ("__spec__", AnotherObject); ("__path__", AnotherObject);
   ("__file__", AnotherObject); ("__cached__", AnotherObject);
   ("__builtins__", AnotherObject);
   ("_gmx_exe", AnotherObject); ("_gromacs_path", AnotherObject);
   ("_MissingSoftwareError", AnotherObject); ("_System", AnotherObject);
   ("_Molecule", AnotherObject); ("_Length", AnotherObject);
   ("_IO", AnotherObject); ("_os", AnotherObject); ("_re", AnotherObject);
   ("_shutil", AnotherObject); ("_subprocess", AnotherObject);
   ("_sys", AnotherObject); ("_tempfile", AnotherObject);
   ("_warnings", AnotherObject);
   ("__all__", AnotherObject);
   ("solvate", AnotherObject);
   ("spc", WaterModel spc); ("spce", WaterModel spce);
   ("tip3p", WaterModel tip3p); ("tip4p", WaterModel tip4p);
   ("tip5p", WaterModel tip5p);
   ("_validate_input", AnotherObject); ("_solvate", AnotherObject);
   ("_check_box_size", AnotherObject);
   ("_models", AnotherObject); ("_model_dict", AnotherObject);
   ("_namespace", AnotherObject)].

(** [dir()]: the names, sorted. *)
Definition dir (namespace : list (string * binding)) : list string :=
  merge_sort String.le (fst <$> namespace).

(** [d[name]] *)
Fixpoint entry {A} (name : string) (d : list (string * A)) : option A :=
  match d with
  | [] => None
  | (k, v) :: d' => if decide (k = name) then Some v else entry name d'
  end.

(** [d[name] = v] *)
Fixpoint assign {A} (name : string) (v : A) (d : list (string * A)) :
    list (string * A) :=
  match d with
  | [] => [(name, v)]
  | (k, v') :: d' =>
      if decide (k = name) then (name, v) :: d' else (k, v') :: assign name v d'
  end.

(** [getattr(_namespace, _var)] *)
Definition getattr (namespace : list (string * binding)) (_var : string) :
    outcome binding :=
  match entry _var namespace with
  | Some v => Returned v
  | None => raise AttributeError
  end.

(** [_var[0] != "_" and _var != "solvate" and _var[0] != "M"] *)
Definition is_model_name (_var : string) : outcome bool :=
  match _var with
  | "" => raise IndexError
  | String c _ =>
      Returned (negb (Ascii.eqb c "_") && negb (String.eqb _var "solvate")
                && negb (Ascii.eqb c "M"))
  end.

(** The loop over [dir()]. *)
Fixpoint register (namespace : list (string * binding)) (names : list string)
    (_models : list string) (_model_dict : list (string * binding)) :
    outcome (list string * list (string * binding)) :=
  match names with
  | [] => Returned (_models, _model_dict)
  | _var :: names =>
      keep ← is_model_name _var;
      if (keep : bool) then
        v ← getattr namespace _var;
        register namespace names (_models ++ [_var]) (assign _var v _model_dict)
      else register namespace names _models _model_dict
  end.

(** The two variables once the module is loaded. *)
Definition load : outcome (list string * list (string * binding)) :=
  register module_names (dir module_names) [] [].

Definition _models : list string :=
  match load with Returned (models, _) => models | Raised _ => [] end.

Definition _model_dict : list (string * binding) :=
  match load with Returned (_, registry) => registry | Raised _ => [] end.

Definition waterModels : list string := _models.

Definition solvate (model : pyval) (molecule : solute)
    (box : option (list item)) (shell : option item)
    (ion_conc is_neutral work_dir : pyval) (map : mapping) : outcome System :=
  match model with
  | PyStr model =>
      if negb (bool_decide (model ∈ waterModels)) then raise ValueError else
      match entry model _model_dict with
      | Some (WaterModel f) =>
          f molecule box shell ion_conc is_neutral work_dir map
      | Some AnotherObject =>
          (* the call of an object that is not a water model; the loop
             registers none *)
          raise TypeError
      | None => raise KeyError
      end
  | _ => raise TypeError
  end.

End Checks.

End Solvent.

(** ** More concrete processes and tools *)

Module Cases.
Import Sample.

(** A runtime whose trajectory holds three frames. *)
Definition recorded : Runtime := {|
  fmt_2f := fixed2;
  str_float := fixed2;
  float_of_string := parse_number;
  AmberRst7 sys _ := Some ("rst7 " +:+ pretty (length (molecules sys)));
  AmberPrm sys _ := Some ("prm7 " +:+ pretty (length (molecules sys)));
  pert_text m _ := "pert " +:+ pretty (number m);
  read_trajectory _ _ := Some [solvated; solvated; solvated];
  wait_for pid w := set_procs (spawned w) (running w ∖ {[pid]}) w;
  base_clear_output _ := mret tt;
|}.

Definition custom : Protocol :=
  Custom ["minimise = True"; "ncycles = 7"].

(** The object as the base-class constructor leaves it, before the
    platform and the executable are known. *)
Definition bare (p : Protocol) : Somd :=
  mkSomd 0 p "somd" "/work" 42 true [] "" "" true false false.

(** A machine with the executables of Sire. *)
Definition installed : state :=
  mkState (mkVars [] [] [] [] None None None)
    (machine solvated
       {[ "/opt/sire/bin/somd" := "";
          "/opt/sire/bin/somd-freenrg" := "" ]} ∅).

(** A process whose set-up is done. *)
Definition ready : state := (_setup (process free_energy) (initial solvated)).2.

Definition two_readings : string :=
  "#step gradient" +:+ newline +:+ "100 -12" +:+ newline.

(** Tools without GROMACS, lengths in angstroms. *)
Definition bench : Solvent.Toolkit := {|
  Solvent.Length := Q;
  Solvent.make_Length x _ := Returned x;
  Solvent.Length_lt x y := negb (Qle_bool y x);
  Solvent.halfExtents _ _ := Returned [5; 5; 5]%Q;
  Solvent._gmx_exe := Some "/usr/bin/gmx";
  Solvent._gromacs_path := Some "/usr/share/gromacs";
  Solvent.System := unit;
  Solvent._solvate _ _ _ _ _ _ _ _ _ := Returned tt;
|}.

End Cases.

(** * Properties *)

(** ** Rounding to the nearest float *)

Section Rounding.
Local Open Scope Z_scope.

Lemma nearest_even_pos (n d : Z) : 0 < d → d ≤ n → 1 ≤ binary64.nearest_even n d.
Proof.
  intros Hd Hn. unfold binary64.nearest_even.
  assert (1 ≤ n / d) by (apply Z.div_le_lower_bound; lia).
  destruct (_ ?= _); [destruct (Z.even _)|..]; lia.
Qed.

Lemma log2_floor_below (a d : Z) :
  0 < a → 0 < d →
  let lg := binary64.log2_floor a d in
  (0 ≤ lg → d * 2 ^ lg ≤ a) ∧ (lg < 0 → d ≤ a * 2 ^ (- lg)).
Proof.
  intros Ha Hd. cbv zeta. unfold binary64.log2_floor.
  pose proof (Z.log2_spec a Ha) as [Ha1 Ha2].
  pose proof (Z.log2_spec d Hd) as [Hd1 Hd2].
  pose proof (Z.log2_nonneg a) as Hla. pose proof (Z.log2_nonneg d) as Hld.
  generalize dependent (Z.log2 a). generalize dependent (Z.log2 d).
  intros ld Hd1 Hd2 Hld la Ha1 Ha2 Hla.
  destruct (Z.ltb_spec (a * 2 ^ Z.max 0 (- (la - ld)))
                       (d * 2 ^ Z.max 0 (la - ld))) as [Hlt|Hge].
  - split; intros Hk.
    + (* d * 2^(k-1) < 2^(ld+1) * 2^(k-1) = 2^la ≤ a *)
      assert (2 ^ Z.succ ld * 2 ^ (la - ld - 1) = 2 ^ la) as Hpow.
      { rewrite <- Z.pow_add_r by lia. f_equal. lia. }
      assert (0 < 2 ^ (la - ld - 1)) by (apply Z.pow_pos_nonneg; lia).
      etrans; [|exact Ha1]. rewrite <- Hpow.
      apply Z.mul_le_mono_nonneg_r; apply Z.lt_le_incl; assumption.
    + assert (2 ^ la * 2 ^ (- (la - ld - 1)) = 2 ^ Z.succ ld) as Hpow.
      { rewrite <- Z.pow_add_r by lia. f_equal. lia. }
      assert (0 < 2 ^ (- (la - ld - 1))) by (apply Z.pow_pos_nonneg; lia).
      etrans; [apply Z.lt_le_incl, Hd2|]. rewrite <- Hpow.
      apply Z.mul_le_mono_nonneg_r; [apply Z.lt_le_incl|]; assumption.
  - split; intros Hk.
    + rewrite Z.max_r, Z.max_l, Z.pow_0_r in Hge by lia. lia.
    + rewrite Z.max_l, Z.max_r, Z.pow_0_r in Hge by lia. lia.
Qed.

(** Rounding keeps a number that is not zero away from zero. *)
Lemma round_zero (x : Q) : (binary64.round x == 0)%Q ↔ (x == 0)%Q.
Proof.
  unfold binary64.round. destruct x as [n d]. cbn [Qnum Qden].
  destruct (Z.eqb_spec n 0) as [->|Hn]; [done|].
  assert (¬ (n # d == 0)%Q) as Hx by (unfold Qeq; cbn; lia).
  split; [|done]. intros Hround. exfalso.
  set (a := Z.abs n) in *. set (D := Z.pos d) in *.
  assert (0 < a) as Ha by (unfold a; lia).
  assert (0 < D) as HD by (unfold D; lia).
  destruct (log2_floor_below a D Ha HD) as [Hpos Hneg].
  set (lg := binary64.log2_floor a D) in *.
  set (e := lg - 52) in *.
  assert (∀ v : Q, ¬ (v == 0)%Q → ¬ ((if n <? 0 then Qopp v else v) == 0)%Q)
    as Hsign.
  { intros v Hv. destruct (n <? 0); [|done]. intros Hopp. apply Hv.
    rewrite <- (Qopp_involutive v), Hopp. done. }
  revert Hround. apply Hsign. clear Hsign.
  destruct (Z.leb_spec 0 e) as [He|He].
  - assert (0 < 2 ^ e) by (apply Z.pow_pos_nonneg; lia).
    assert (D * 2 ^ e ≤ a) as Hle.
    { assert (2 ^ e ≤ 2 ^ lg) by (apply Z.pow_le_mono_r; lia).
      assert (D * 2 ^ lg ≤ a) by (apply Hpos; lia). nia. }
    pose proof (nearest_even_pos a (D * 2 ^ e) ltac:(nia) Hle).
    unfold Qeq. cbn. nia.
  - assert (0 < 2 ^ (- e)) by (apply Z.pow_pos_nonneg; lia).
    assert (D ≤ a * 2 ^ (- e)) as Hle.
    { destruct (Z.le_gt_cases 0 lg) as [Hlg|Hlg].
      - specialize (Hpos Hlg).
        assert (0 < 2 ^ lg) by (apply Z.pow_pos_nonneg; lia). nia.
      - specialize (Hneg Hlg).
        assert (2 ^ (- lg) ≤ 2 ^ (- e)) by (apply Z.pow_le_mono_r; lia).
        nia. }
    pose proof (nearest_even_pos (a * 2 ^ (- e)) D HD Hle).
    rewrite Qred_correct. unfold Qeq. cbn. lia.
Qed.

Lemma nearest_even_exact (n d : Z) :
  0 < d → binary64.nearest_even (n * d) d = n.
Proof.
  intros Hd. unfold binary64.nearest_even.
  rewrite Z.div_mul, Z.mod_mul by lia.
  destruct (Z.compare_spec (2 * 0) d); [lia|done|lia].
Qed.

Lemma nearest_even_one (n : Z) : binary64.nearest_even n 1 = n.
Proof.
  unfold binary64.nearest_even. by rewrite Z.div_1_r, Z.mod_1_r.
Qed.

Lemma Qred_integer (a : Z) : Qred (a # 1) = (a # 1).
Proof.
  unfold Qred. pose proof (Z.ggcd_gcd a 1) as Hg.
  pose proof (Z.ggcd_correct_divisors a 1) as Hd.
  destruct (Z.ggcd a 1) as [g [aa bb]]. cbn in Hg, Hd.
  rewrite Z.gcd_1_r in Hg. subst g. destruct Hd as [-> Hbb].
  replace bb with 1 by lia. f_equal. lia.
Qed.

(** An integer of at most 53 bits is a float. *)
Lemma round_small_integer (z : Z) :
  Z.abs z ≤ 2 ^ 53 → binary64.round (inject_Z z) = inject_Z z.
Proof.
  intros Hz. unfold binary64.round, inject_Z. cbn [Qnum Qden].
  destruct (Z.eqb_spec z 0) as [->|Hz0]; [done|].
  set (a := Z.abs z) in *.
  assert (0 < a) as Ha by (unfold a; lia).
  pose proof (Z.log2_spec a Ha) as [Ha1 Ha2].
  pose proof (Z.log2_nonneg a) as Hla.
  assert (binary64.log2_floor a 1 = Z.log2 a) as ->.
  { unfold binary64.log2_floor. change (Z.log2 1) with 0.
    rewrite Z.sub_0_r, Z.max_l, Z.max_r, Z.pow_0_r by lia.
    destruct (Z.ltb_spec (a * 1) (1 * 2 ^ Z.log2 a)); lia. }
  assert (Z.log2 a ≤ 53) as Hl.
  { destruct (Z.le_gt_cases (Z.log2 a) 53) as [|Hgt]; [done|].
    assert (2 ^ 54 ≤ 2 ^ Z.log2 a) by (apply Z.pow_le_mono_r; lia). lia. }
  assert (∀ q : Q, q = (a # 1) → (if z <? 0 then Qopp q else q) = (z # 1))
    as Hsign.
  { intros q ->. destruct (Z.ltb_spec z 0); unfold Qopp; cbn [Qnum Qden];
      f_equal; unfold a; lia. }
  apply Hsign. clear Hsign.
  generalize dependent (Z.log2 a). intros l Hl1 Hl2 Hl0 Hl.
  destruct (Z.leb_spec 0 (l - 52)) as [He|He].
  - assert (l = 52 ∨ l = 53) as [->| ->] by lia.
    + change (52 - 52) with 0. change (2 ^ 0) with 1.
      by rewrite !Z.mul_1_r, nearest_even_one.
    + assert (a = 2 ^ 53) as -> by lia. done.
  - assert (0 < 2 ^ (- (l - 52))) as Hp by (apply Z.pow_pos_nonneg; lia).
    rewrite nearest_even_one.
    rewrite <- (Qred_integer a).
    apply Qred_complete. unfold Qeq. cbn [Qnum Qden].
    rewrite Z2Pos.id by done. lia.
Qed.

(** A time is zero as a float exactly when it is zero. *)
Lemma float_femtoseconds_zero (t : Time) :
  Qeq_bool (float_femtoseconds t) 0 = Qeq_bool (femtoseconds t) 0.
Proof.
  assert ((float_femtoseconds t == 0)%Q ↔ (femtoseconds t == 0)%Q) as Hiff.
  { unfold float_femtoseconds, femtoseconds.
    assert (¬ (fs_per (time_unit t) == 0)%Q) as Hunit
      by (by destruct (time_unit t)).
    split; intros Hzero.
    - apply (proj1 (round_zero _)) in Hzero.
      apply Qmult_integral in Hzero as [Hzero|Hzero]; [|done].
      apply (proj1 (round_zero _)) in Hzero. rewrite Hzero. apply Qmult_0_l.
    - apply (proj2 (round_zero _)).
      apply Qmult_integral in Hzero as [Hzero|Hzero]; [|done].
      apply (proj2 (round_zero _)) in Hzero. rewrite Hzero. apply Qmult_0_l. }
  destruct (Qeq_bool (femtoseconds t) 0) eqn:E.
  - apply Qeq_bool_iff. apply Hiff. by apply Qeq_bool_iff.
  - destruct (Qeq_bool (float_femtoseconds t) 0) eqn:E'; [|done].
    apply Qeq_bool_iff, Hiff, Qeq_bool_iff in E'. congruence.
Qed.

End Rounding.

Section Properties.
Context `{Runtime}.

(** Running the monad by hand: unfold the plumbing, keep the strings. *)
Ltac mred :=
  cbv [mbind mret M_bind M_ret raise lift modify_vars modify_world get_vars
       get_world try_except addToConfig deref] in *;
  cbn [vars world _config _gradients _input_files _args _process _command _timer
       set_config set_gradients set_input_files set_args set_process
       set_command set_timer fst snd negb orb andb app] in *.

Ltac is_in :=
  solve [ repeat first [ apply list_elem_of_here | apply list_elem_of_further ] ].

Ltac not_in :=
  let Hin := fresh "Hin" in
  intros Hin;
  repeat (apply elem_of_cons in Hin as [Hin|Hin];
          [ cbv [String.append] in Hin; discriminate Hin | ]);
  by apply elem_of_nil in Hin.


(** *** Cycle count *)






(** *** Barostat policy *)

(** C7. For a Production or FreeEnergy protocol the generated configuration
    enables the barostat, with its pressure line, exactly when the ensemble
    is constant-pressure, the system contains water and it has a periodic
    box; in every other case it holds the disabled-barostat line and neither
    of the other two. *)
Theorem barostat_policy (self : Somd) (st st' : state) (e : Ensemble)
    (sys : SireSystem) :
  getEnsemble (_protocol self) = Ok e →
  store (world st) !! _system self = Some sys →
  _generate_config self st = (Ok tt, st') →
  let has_box := bool_decide ("space" ∈ propertyKeys sys) in
  let cfg := _config (vars st') in
  if barostat_enabled e (_has_water self) has_box
  then ("barostat = True" ∈ cfg) ∧ ("pressure = 1 atm" ∈ cfg) ∧
       ("barostat = False" ∉ cfg)
  else ("barostat = False" ∈ cfg) ∧ ("barostat = True" ∉ cfg) ∧
       ("pressure = 1 atm" ∉ cfg).
Proof.
  intros He Hsys. unfold _generate_config. mred. rewrite Hsys.
  destruct (_protocol self); try discriminate; injection He as ->.
  - destruct (ncycles_of _ _) as [n|]; [|discriminate].
    destruct e, (_has_water self), (bool_decide _), (_is_seeded self); mred;
      intros [= <-]; cbn;
      (split; [is_in | split; [first [is_in | not_in] | not_in]]).
  - destruct (ncycles_of _ _) as [n|]; [|discriminate].
    destruct e, (_has_water self), (bool_decide _), (_is_seeded self); mred;
      intros [= <-]; cbn;
      (split; [is_in | split; [first [is_in | not_in] | not_in]]).
Qed.

(** *** Non-blocking accessors *)

(** C10. The [getCurrent...] accessors are their blocking counterparts called
    with [block=False]: same result and same state after the call, for every
    process, state and [time_series] flag. *)
Theorem current_accessors_do_not_block (self : Somd) (time_series : bool)
    (st : state) :
  getCurrentSystem self st = getSystem self BlockFalse st
  ∧ getCurrentTime self time_series st = getTime self time_series BlockFalse st
  ∧ getCurrentGradient self time_series st
    = getGradient self time_series BlockFalse st.
Proof. repeat split. Qed.

(** With [block=False] the trajectory is read in the state the call found:
    nothing waits for the child. *)
Lemma getTrajectory_nonblocking (self : Somd) (st : state) :
  getTrajectory self BlockFalse st = (Ok (read_trajectory self (world st)), st).
Proof.
  unfold getTrajectory. mred. by destruct (read_trajectory self (world st)).
Qed.

(** *** Starting twice *)

(** C5. [start] on a process that is queued, or whose child is alive,
    returns at once: nothing is cleared, nothing is spawned, and the state
    of the object, the files and the command record are what they were. *)
Theorem start_again_is_noop (self : Somd) (st : state) :
  (_is_queued self = true ∨
   ∃ pid, _process (vars st) = Some pid ∧ pid ∈ running (world st)) →
  start self st = (Ok None, st).
Proof.
  intros Hbusy. unfold start, isQueued, isRunning. mred.
  destruct (_is_queued self); [reflexivity|].
  destruct Hbusy as [?|(pid & -> & Hrun)]; [discriminate|].
  by rewrite bool_decide_eq_true_2.
Qed.

(** *** Missing artifacts *)

Lemma getTrajectory_reads (self : Somd) (block : Block) (st : state) :
  ∃ st1, getTrajectory self block st
         = (Ok (read_trajectory self (world st1)), st1).
Proof.
  unfold getTrajectory, wait. mred.
  destruct block; [| |destruct (_is_blocked self)];
    try destruct (_process (vars st)); mred;
    match goal with
    | |- context [read_trajectory self ?w] =>
        destruct (read_trajectory self w) eqn:E;
        first [ by exists st; rewrite E
              | by exists (mkState (vars st) w); cbn; rewrite E ]
    end.
Qed.

Lemma getTrajectory_returns (self : Somd) (block : Block) (st : state) :
  returns (getTrajectory self block st).1 = true.
Proof. by destruct (getTrajectory_reads self block st) as [st1 ->]. Qed.

Lemma getSystem_returns (self : Somd) (block : Block) (st : state) :
  returns (getSystem self block st).1 = true.
Proof.
  unfold getSystem. unfold mbind at 1. unfold M_bind.
  pose proof (getTrajectory_returns self block st) as Ht.
  destruct (getTrajectory self block st) as [[traj|e] st1]; [|discriminate].
  mred. destruct traj as [frames|]; [|reflexivity].
  by destruct (last frames).
Qed.

(** A minimisation has no time records, and a trajectory without frames
    gives no time either. *)
Lemma getTime_minimisation (self : Somd) (time_series : bool) (block : Block)
    (st : state) :
  is_Minimisation (_protocol self) = true →
  getTime self time_series block st = (Ok None, st).
Proof. intros Hmin. unfold getTime. by rewrite Hmin. Qed.

Lemma getTime_no_frames (self : Somd) (time_series : bool) (st : state) :
  read_trajectory self (world st) = Some [] →
  getTime self time_series BlockFalse st = (Ok None, st).
Proof.
  intros Hnone. unfold getTime.
  destruct (is_Minimisation (_protocol self)); [reflexivity|].
  unfold mbind, M_bind. rewrite getTrajectory_nonblocking, Hnone.
  reflexivity.
Qed.

(** X28.  Output that is not there yet.  While the gradient file does not
    exist, [getGradient] returns [None] without raising and without touching
    the state, whatever its arguments.  [getTrajectory] and [getSystem]
    never raise: [getTrajectory] returns what the reader of the trajectory
    gives in the state the wait has left, and [None] when the reader fails;
    [getSystem] then returns [None] as well. *)
Theorem missing_artifact_is_absent (self : Somd) (time_series : bool)
    (block : Block) (st : state) :
  (¬ file_exists st (_gradient_file self) →
   getGradient self time_series block st = (Ok None, st))
  ∧ returns (getTrajectory self block st).1 = true
  ∧ returns (getSystem self block st).1 = true
  ∧ (∃ st1, getTrajectory self block st
            = (Ok (read_trajectory self (world st1)), st1))
  ∧ (∀ st1, getTrajectory self block st = (Ok None, st1) →
            getSystem self block st = (Ok None, st1))
  ∧ (read_trajectory self (world st) = None →
     getTrajectory self BlockFalse st = (Ok None, st)
     ∧ getSystem self BlockFalse st = (Ok None, st)).
Proof.
  split; [|split; [|split; [|split; [|split]]]].
  - intros Hmiss. unfold getGradient, os.isfile. mred.
    by rewrite bool_decide_eq_false_2.
  - apply getTrajectory_returns.
  - apply getSystem_returns.
  - apply getTrajectory_reads.
  - intros st1 Htraj. unfold getSystem, mbind, M_bind. by rewrite Htraj.
  - intros Hnone.
    assert (getTrajectory self BlockFalse st = (Ok None, st)) as Htraj
      by (by rewrite getTrajectory_nonblocking, Hnone).
    split; [exact Htraj|]. unfold getSystem, mbind, M_bind. by rewrite Htraj.
Qed.

(** *** Clearing stale output *)

Lemma shrinks_refl st : shrinks st st.
Proof. by split. Qed.

Lemma shrinks_trans st1 st2 st3 :
  shrinks st1 st2 → shrinks st2 st3 → shrinks st1 st3.
Proof. intros [??] [??]. split; [congruence | set_solver]. Qed.

Lemma shrinks_absent st st' f :
  shrinks st st' → ¬ file_exists st f → ¬ file_exists st' f.
Proof.
  unfold file_exists, resolve. intros [Hcwd Hdom] Hf. rewrite Hcwd. set_solver.
Qed.

Lemma remove_if_present_shrinks (f : string) (st : state) :
  shrinks st (remove_if_present f st).2.
Proof.
  unfold remove_if_present, os.isfile, os.remove. mred.
  destruct (bool_decide (resolve (world st) f ∈ dom (files (world st)))) eqn:Hf;
    mred; [|apply shrinks_refl].
  rewrite Hf. destruct (bool_decide (resolve (world st) f ∈ denied (world st)));
    mred; [apply shrinks_refl|].
  split; [reflexivity|]. cbn. rewrite dom_delete.
  intros x Hx. by apply elem_of_difference in Hx as [??].
Qed.

Lemma remove_if_present_absent (f : string) (st st' : state) :
  remove_if_present f st = (Ok tt, st') → ¬ file_exists st' f.
Proof.
  unfold remove_if_present, os.isfile, os.remove, file_exists. mred.
  destruct (bool_decide (resolve (world st) f ∈ dom (files (world st)))) eqn:Hf;
    mred.
  - rewrite Hf.
    destruct (bool_decide (resolve (world st) f ∈ denied (world st)));
      mred; [discriminate|].
    intros [= <-]. cbn. unfold resolve. cbn. rewrite dom_delete.
    intros [_ Hq]%elem_of_difference. by apply Hq, elem_of_singleton.
  - intros [= <-]. by apply bool_decide_eq_false in Hf.
Qed.

(** One removal, as a step of the cleanup that started in [st0]: what was
    absent stays absent and the removed file is absent. *)
Lemma remove_step (f : string) (k : M unit) (st0 st : state)
    (P : state → Prop) :
  shrinks st0 st →
  (∀ st1, shrinks st0 st1 → ¬ file_exists st1 f →
          match k st1 with
          | (Ok _, st2) => P st2
          | (Raise _, _) => True
          end) →
  match (remove_if_present f ;; k) st with
  | (Ok _, st2) => P st2
  | (Raise _, _) => True
  end.
Proof.
  intros Hs0 Hk. unfold mbind, M_bind.
  pose proof (remove_if_present_shrinks f st) as Hs.
  destruct (remove_if_present f st) as [[[]|e] st1] eqn:Hrm; [|done].
  apply Hk; [by eapply shrinks_trans|]. by eapply remove_if_present_absent.
Qed.

Lemma remove_last (f : string) (st0 st : state) (P : state → Prop) :
  shrinks st0 st →
  (∀ st1, shrinks st0 st1 → ¬ file_exists st1 f → P st1) →
  match remove_if_present f st with
  | (Ok _, st2) => P st2
  | (Raise _, _) => True
  end.
Proof.
  intros Hs0 Hk.
  pose proof (remove_if_present_shrinks f st) as Hs.
  destruct (remove_if_present f st) as [[[]|e] st1] eqn:Hrm; [|done].
  apply Hk; [by eapply shrinks_trans|]. by eapply remove_if_present_absent.
Qed.

Lemma removals_clear (self : Somd) (st : state) :
  match (remove_if_present (_work_dir self +:+ "/sim_restart.s3");;
         remove_if_present (_work_dir self +:+ "/SYSTEM.s3");;
         remove_if_present (_work_dir self +:+ "/traj000000001.dcd");;
         if is_FreeEnergy (_protocol self) then
           remove_if_present (_work_dir self +:+ "/gradients.dat");;
           remove_if_present (_work_dir self +:+ "/simfile.dat")
         else mret tt) st with
  | (Ok _, st') =>
      (∀ f, f ∈ restart_and_trajectory_files self → ¬ file_exists st' f) ∧
      (is_FreeEnergy (_protocol self) = true →
       ∀ f, f ∈ gradient_and_energy_files self → ¬ file_exists st' f)
  | (Raise _, _) => True
  end.
Proof.
  apply (remove_step _ _ st); [apply shrinks_refl|]. intros st1 Hs1 Ha1.
  apply (remove_step _ _ st1); [apply shrinks_refl|]. intros st2 Hs2 Ha2.
  apply (remove_step _ _ st2); [apply shrinks_refl|]. intros st3 Hs3 Ha3.
  assert (∀ st', shrinks st3 st' →
            ∀ f, f ∈ restart_and_trajectory_files self → ¬ file_exists st' f)
    as Hthree.
  { intros st' Hs f Hf. unfold restart_and_trajectory_files in Hf.
    rewrite !elem_of_cons, elem_of_nil in Hf.
    destruct Hf as [->|[->|[->|[]]]];
      eauto 6 using shrinks_absent, shrinks_trans. }
  destruct (is_FreeEnergy (_protocol self)).
  - apply (remove_step _ _ st3); [apply shrinks_refl|]. intros st4 Hs4 Ha4.
    apply (remove_last _ st4); [apply shrinks_refl|]. intros st5 Hs5 Ha5.
    split; [eauto using shrinks_trans|].
    intros _ f Hf. unfold gradient_and_energy_files in Hf.
    rewrite !elem_of_cons, elem_of_nil in Hf.
    destruct Hf as [->|[->|[]]]; eauto using shrinks_absent.
  - cbn. split; [eauto using shrinks_refl|discriminate].
Qed.

(** C6 (amended). [start] on a process that is neither queued nor running
    first clears the output and launches the engine from the state the
    clearing leaves.  In that state the restart checkpoint, [SYSTEM.s3] and
    the trajectory file are gone whatever the protocol; the gradient and
    energy logs are gone when the protocol is FreeEnergy.  If the clearing
    raises, [start] raises with it and nothing is launched. *)
Theorem start_clears_stale_output (self : Somd) (st : state) :
  idle self st →
  match _clear_output self st with
  | (Ok _, st1) =>
      start self st = launch self st1
      ∧ (∀ f, f ∈ restart_and_trajectory_files self → ¬ file_exists st1 f)
      ∧ (is_FreeEnergy (_protocol self) = true →
         ∀ f, f ∈ gradient_and_energy_files self → ¬ file_exists st1 f)
  | (Raise e, st1) => start self st = (Raise e, st1)
  end.
Proof.
  intros [Hq Hrun].
  assert (∀ st1 r, _clear_output self st = (r, st1) →
            start self st = match r with
                            | Ok _ => launch self st1
                            | Raise e => (Raise e, st1)
                            end) as Hstart.
  { intros st1 r Hc. unfold start, isQueued, isRunning. mred. rewrite Hq.
    destruct (_process (vars st)) as [pid|] eqn:Hp.
    - rewrite bool_decide_eq_false_2 by auto. rewrite Hc. by destruct r.
    - rewrite Hc. by destruct r. }
  destruct (_clear_output self st) as [r st1] eqn:Hc.
  specialize (Hstart _ _ eq_refl).
  destruct r as [[]|e]; [|exact Hstart]. split; [exact Hstart|].
  unfold _clear_output in Hc. unfold mbind at 1 in Hc. unfold M_bind at 1 in Hc.
  destruct (base_clear_output self st) as [[[]|e] st0]; [|discriminate].
  pose proof (removals_clear self st0) as Hrm.
  rewrite Hc in Hrm. apply Hrm.
Qed.

(** *** Incremental reading of the gradient file *)

Lemma string_drop_all (s : string) : string_drop (String.length s) s = "".
Proof. induction s; [reflexivity|exact IHs]. Qed.

Lemma set_gradients_app_nil (v : Vars) :
  set_gradients (_gradients v ++ []) v = v.
Proof. destruct v. unfold set_gradients. cbn. by rewrite app_nil_r. Qed.

(** One line either is skipped, or adds one record, or makes the call
    raise; which of these depends on the line alone. *)
Lemma read_line_outcome (line : string) :
  ∃ (r : result unit) (gs : list Q), ∀ st,
    read_gradient_line line st
    = (r, mkState (set_gradients (_gradients (vars st) ++ gs) (vars st))
                  (world st)).
Proof.
  unfold read_gradient_line.
  destruct line as [|c line'].
  { exists (Raise IndexError), []. intros [v w]. mred.
    by rewrite set_gradients_app_nil. }
  destruct (decide (c = "#"%char)).
  { exists (Ok tt), []. intros [v w]. mred. by rewrite set_gradients_app_nil. }
  destruct (last (split (rstrip (String c line')))) as [tok|].
  2:{ exists (Raise IndexError), []. intros [v w]. mred.
      by rewrite set_gradients_app_nil. }
  destruct (float_of_string tok) as [g|].
  2:{ exists (Raise ValueError), []. intros [v w]. mred.
      by rewrite set_gradients_app_nil. }
  exists (Ok tt), [g]. intros st. reflexivity.
Qed.

(** The loop over the new lines only appends to the series, and what it
    appends and how it ends depend on the lines alone. *)
Lemma read_lines_outcome (lines : list string) :
  ∃ (r : result unit) (gs : list Q), ∀ st,
    for_each lines read_gradient_line st
    = (r, mkState (set_gradients (_gradients (vars st) ++ gs) (vars st))
                  (world st)).
Proof.
  induction lines as [|line lines (r & gs & IH)].
  - exists (Ok tt), []. intros [v w]. cbn. by rewrite set_gradients_app_nil.
  - destruct (read_line_outcome line) as (r1 & gs1 & Hline).
    destruct r1 as [[]|e].
    + exists r, (gs1 ++ gs). intros st. cbn [for_each].
      unfold mbind, M_bind. rewrite Hline, IH. cbn.
      by rewrite <- app_assoc.
    + exists (Raise e), gs1. intros st. cbn [for_each].
      unfold mbind, M_bind. by rewrite Hline.
Qed.

Lemma resolve_set_offsets o w p : resolve (set_offsets o w) p = resolve w p.
Proof. reflexivity. Qed.

(** Right after a completed read nothing is left to read. *)
Lemma unread_after_commit (w : World) (file : string) :
  pygtail.unread
    (set_offsets (<[resolve w file :=
                    String.length (default "" (files w !! resolve w file))]>
                    (offsets w)) w) file = [].
Proof.
  unfold pygtail.unread. rewrite resolve_set_offsets.
  cbn [files offsets set_offsets]. rewrite lookup_insert_eq.
  cbn [default from_option id]. rewrite Nat.ltb_irrefl. cbv beta iota zeta.
  by rewrite string_drop_all.
Qed.

(** Two calls of [getGradient(time_series=True)] with nothing written in
    between end the same way; when the first returns, the second leaves the
    object and the read offset exactly as it found them; and the recorded
    series only ever grows at its end. *)
Lemma getGradient_twice_outcome (self : Somd) (block1 block2 : Block)
    (st : state) :
  let first := getGradient self true block1 st in
  let second := getGradient self true block2 first.2 in
  second.1 = first.1
  ∧ (returns first.1 = true → second.2 = first.2)
  ∧ _gradients (vars st) `prefix_of` _gradients (vars first.2)
  ∧ _gradients (vars first.2) `prefix_of` _gradients (vars second.2).
Proof.
  cbv zeta. unfold getGradient, os.isfile, pygtail.commit. mred.
  destruct (bool_decide (resolve (world st) (_gradient_file self)
                           ∈ dom (files (world st)))) eqn:Hfile; mred.
  2:{ rewrite Hfile. mred. by repeat split. }
  destruct (read_lines_outcome
              (pygtail.unread (world st) (_gradient_file self)))
    as (r & gs & Hloop).
  rewrite Hloop. destruct r as [[]|e]; mred.
  - (* the first call returns *)
    destruct (decide (length (_gradients (vars st) ++ gs) = 0%nat)) as [Hz|Hz];
      mred; rewrite !resolve_set_offsets; cbn [files set_offsets];
      rewrite Hfile; mred; rewrite unread_after_commit; cbn [for_each];
      mred; rewrite !resolve_set_offsets; cbn [files offsets set_offsets];
      rewrite insert_insert_eq.
    + rewrite decide_True by exact Hz.
      cbn. repeat split; try reflexivity. by apply prefix_app_r.
    + rewrite decide_False by exact Hz.
      cbn. repeat split; try reflexivity. by apply prefix_app_r.
  - (* the first call raises on a line *)
    rewrite Hfile. mred. rewrite Hloop. mred.
    split; [reflexivity|]. split; [discriminate|].
    split; by apply prefix_app_r.
Qed.

(** C3 (amended). From every state in which [getGradient(time_series=True)]
    returns, a second call with nothing written in between returns the same
    ordered series, reads nothing again and records nothing twice: it leaves
    the object and the read offset exactly as it found them; and the
    recorded series has only grown at its end. *)
Theorem getGradient_twice (self : Somd) (block1 block2 : Block) (st : state) :
  returns (getGradient self true block1 st).1 = true →
  let first := getGradient self true block1 st in
  let second := getGradient self true block2 first.2 in
  second.1 = first.1
  ∧ second.2 = first.2
  ∧ _gradients (vars st) `prefix_of` _gradients (vars first.2)
  ∧ _gradients (vars first.2) `prefix_of` _gradients (vars second.2).
Proof.
  intros Hret first second.
  destruct (getGradient_twice_outcome self block1 block2 st)
    as (Hsame & Hstate & Hgrow1 & Hgrow2).
  repeat split; try done. by apply Hstate.
Qed.

(** *** A small program logic: what a method may change and raise *)

Section Ensures.
Context (R : relation state) `{!PreOrder R} (E : exn → Prop).

Lemma ensures_ret {A} (a : A) : ensures R E (mret a).
Proof. intros st. split; [reflexivity|discriminate]. Qed.

Lemma ensures_raise {A} (e : exn) : E e → ensures R E (raise (A:=A) e).
Proof. intros He st. split; [reflexivity|]. by intros e' [= <-]. Qed.

Lemma ensures_lift {A} (r : result A) :
  (∀ e, r = Raise e → E e) → ensures R E (lift r).
Proof. intros Hr st. split; [reflexivity|exact Hr]. Qed.

Lemma ensures_get_vars : ensures R E get_vars.
Proof. intros st. split; [reflexivity|discriminate]. Qed.

Lemma ensures_get_world : ensures R E get_world.
Proof. intros st. split; [reflexivity|discriminate]. Qed.

Lemma ensures_modify_vars (f : Vars → Vars) :
  (∀ st, R st (mkState (f (vars st)) (world st))) →
  ensures R E (modify_vars f).
Proof. intros Hf st. split; [apply Hf|discriminate]. Qed.

Lemma ensures_modify_world (f : World → World) :
  (∀ st, R st (mkState (vars st) (f (world st)))) →
  ensures R E (modify_world f).
Proof. intros Hf st. split; [apply Hf|discriminate]. Qed.

Lemma ensures_bind {A B} (m : M A) (f : A → M B) :
  ensures R E m → (∀ a, ensures R E (f a)) → ensures R E (m ≫= f).
Proof.
  intros Hm Hf st. unfold mbind, M_bind.
  destruct (Hm st) as [HR HE]. destruct (m st) as [[a|e] st1]; cbn in *.
  - destruct (Hf a st1) as [HR' HE']. split; [by etrans|exact HE'].
  - split; [exact HR|]. intros e' [= <-]. by apply HE.
Qed.

Lemma ensures_try_except {A} (m h : M A) :
  ensures R (λ _, True) m → ensures R E h → ensures R E (try_except m h).
Proof.
  intros Hm Hh st. unfold try_except.
  destruct (Hm st) as [HR _]. destruct (m st) as [[a|e] st1]; cbn in *.
  - split; [exact HR|discriminate].
  - destruct (Hh st1) as [HR' HE']. split; [by etrans|exact HE'].
Qed.

Lemma ensures_for_each {A} (l : list A) (body : A → M unit) :
  (∀ x, ensures R E (body x)) → ensures R E (for_each l body).
Proof.
  intros Hbody. induction l as [|x l IH]; cbn [for_each].
  - apply ensures_ret.
  - apply ensures_bind; [apply Hbody|]. intros _. exact IH.
Qed.

End Ensures.

(** One step of a proof that a method is within its footprint. *)
Ltac ensures_step side :=
  lazymatch goal with
  | |- ensures _ _ (mbind _ _) => apply ensures_bind; [try apply _| |intros ?]
  | |- ensures _ _ (mret _) => apply ensures_ret; try apply _
  | |- ensures _ _ (raise _) => apply ensures_raise; [try apply _|side]
  | |- ensures _ _ (lift _) => apply ensures_lift; [try apply _|side]
  | |- ensures _ _ get_vars => apply ensures_get_vars; try apply _
  | |- ensures _ _ get_world => apply ensures_get_world; try apply _
  | |- ensures _ _ (modify_vars _) => apply ensures_modify_vars; side
  | |- ensures _ _ (modify_world _) => apply ensures_modify_world; side
  | |- ensures _ _ (try_except _ _) => apply ensures_try_except; [try apply _| |]
  | |- ensures _ _ (for_each _ _) => apply ensures_for_each; [try apply _|intros ?]
  | |- ensures _ _ (if ?b then _ else _) => destruct b
  | |- ensures _ _ (match ?x with _ => _ end) => destruct x
  end.

Ltac ensures_unfold :=
  unfold _generate_config, _generate_args, writeConfig, setConfig, addToConfig,
    clearArgs, setArg, deref, getPerturbableMolecules, nPerturbableMolecules,
    getWaterMolecules, _toPertFile, sire_remove, sire_add, sire_molecule,
    rename_first_residue, os.write_text, deref, stage_perturbation,
    relabel_waters, write_amber_files, write_configuration,
    substitute_end_state.

(** *** The caller's system *)

Global Instance store_frame_preorder a : PreOrder (store_frame a).
Proof.
  split.
  - by intros st b _.
  - intros st1 st2 st3 H12 H23 b Hb. by rewrite H23, H12.
Qed.

Ltac frame_side :=
  try done;
  try (intros st b Hb; cbn; by rewrite ?lookup_insert_ne by done).

Ltac ensures_auto side :=
  repeat first [ ensures_step side | progress ensures_unfold ].

(** What follows the copy in [_setup] changes no Sire system but the copy. *)
Lemma setup_body_frame (self : Somd) (a : nat) :
  ensures (store_frame a) (λ _, True)
    (stage_perturbation self a;;
     relabel_waters a;;
     write_amber_files self a;;
     write_configuration self;;
     _generate_args self;;
     v ← get_vars; mret (_input_files v)).
Proof. ensures_auto frame_side. Qed.

(** The copy is a new object holding what the original holds. *)
Lemma System_copy_spec (a : nat) (st : state) :
  match store (world st) !! a with
  | Some sys =>
      System_copy a st
      = (Ok (fresh (dom (store (world st)))),
         mkState (vars st)
           (set_store (<[fresh (dom (store (world st))) := sys]>
                         (store (world st))) (world st)))
  | None => System_copy a st = (Raise AttributeError, st)
  end.
Proof.
  unfold System_copy. mred. by destruct (store (world st) !! a).
Qed.

(** C9. [_setup] changes no Sire system that existed when it was called:
    the substitution of the end state and the relabelling of the waters act
    on a copy allocated by [_setup], and the caller's original is found
    unchanged afterwards, whether [_setup] returns or raises. *)
Theorem setup_preserves_original (self : Somd) (st : state) :
  store (world st) ⊆ store (world (_setup self st).2).
Proof.
  unfold _setup. unfold mbind at 1. unfold M_bind at 1.
  pose proof (System_copy_spec (_system self) st) as Hcopy.
  destruct (store (world st) !! _system self) as [sys|]; rewrite Hcopy;
    [|reflexivity].
  set (a := fresh (dom (store (world st)))).
  set (st1 := mkState _ _).
  destruct (setup_body_frame self a st1) as [Hframe _].
  apply map_subseteq_spec. intros b v Hb.
  assert (b ≠ a) as Hne.
  { intros ->. apply (is_fresh (dom (store (world st)))).
    apply elem_of_dom. by exists v. }
  rewrite (Hframe b Hne). subst st1. cbn. by rewrite lookup_insert_ne.
Qed.

(** *** The check on the perturbable molecules *)

Lemma bind_Ok_inv {A B} (m : M A) (f : A → M B) (st st' : state) (b : B) :
  (m ≫= f) st = (Ok b, st') →
  ∃ a st1, m st = (Ok a, st1) ∧ f a st1 = (Ok b, st').
Proof.
  unfold mbind, M_bind. destruct (m st) as [[a|e] st1]; [eauto|discriminate].
Qed.




Global Instance any_change_preorder : PreOrder any_change.
Proof. by split. Qed.

Global Instance same_config_preorder : PreOrder same_config.
Proof.
  split; [by intros st|]. intros st1 st2 st3 H12 H23.
  unfold same_config in *. congruence.
Qed.







(** *** When [_setup] completes *)



Section Working.
Context (a o : nat) (sys0 : SireSystem) (w0 : World) (Hao : a ≠ o).










End Working.


Lemma generate_args_runs (self : Somd) (st : state) :
  ∃ args, _generate_args self st
          = (Ok tt, mkState (set_args args (vars st)) (world st)).
Proof.
  unfold _generate_args, clearArgs, setArg. mred.
  destruct (is_FreeEnergy (_protocol self)); mred; eexists; reflexivity.
Qed.



(** *** The working directory around [start] *)

Lemma chdir_Ok (d : string) (st st' : state) :
  os.chdir d st = (Ok tt, st') → cwd (world st') = resolve (world st) d.
Proof.
  unfold os.chdir. mred.
  destruct (bool_decide (resolve (world st) d ∈ dirs (world st))); mred;
    [|discriminate].
  by intros [= <-].
Qed.

(** When the launch runs to its end the caller is back where it was. *)
Lemma launch_restores_cwd (self : Somd) (st st' : state) (r : option unit) :
  is_absolute (cwd (world st)) = true →
  launch self st = (Ok r, st') →
  cwd (world st') = cwd (world st).
Proof.
  intros Habs Hrun. unfold launch in Hrun.
  apply bind_Ok_inv in Hrun as (dir & st1 & Hdir & Hrun).
  unfold os.getcwd in Hdir. mred. injection Hdir as <- <-.
  repeat (apply bind_Ok_inv in Hrun as (? & ? & ? & Hrun)).
  mred. injection Hrun as _ <-.
  match goal with
  | Hcd : os.chdir (cwd (world st)) _ = (Ok ?u, ?s) |- cwd (world ?s) = _ =>
      destruct u; rewrite (chdir_Ok _ _ _ Hcd)
  end.
  unfold resolve. by rewrite Habs.
Qed.

(** When the command record cannot be opened the launch raises after the
    change of directory and before the change back: the process is left in
    its working directory. *)
Lemma launch_fails_in_work_dir (self : Somd) (st : state) :
  let d := resolve (world st) (_work_dir self) in
  d ∈ dirs (world st) →
  resolve (set_cwd d (world st)) "README.txt" ∈ denied (world st) →
  launch self st = (Raise OSError, mkState (vars st) (set_cwd d (world st))).
Proof.
  intros d Hdir Hdenied. unfold launch, os.getcwd, os.chdir, os.write_text,
    getArgStringList. mred. fold d.
  rewrite bool_decide_eq_true_2 by exact Hdir. mred.
  cbn [denied set_cwd]. by rewrite bool_decide_eq_true_2 by exact Hdenied.
Qed.

End Properties.

(** * Concrete runs *)

Import Sample.

(** The floats nearest to 0.7, to 0.1 and to a third, as
    [float.as_integer_ratio] gives them; a tie goes to the even
    significand. *)
Example nearest_floats :
  binary64.round (7 # 10) = (3152519739159347 # 4503599627370496)%Q
  ∧ binary64.round (1 # 10) = (3602879701896397 # 36028797018963968)%Q
  ∧ binary64.round (1 # 3) = (6004799503160661 # 18014398509481984)%Q
  ∧ binary64.round (inject_Z (2 ^ 53 + 1)) = inject_Z (2 ^ 53)
  ∧ binary64.round (inject_Z (2 ^ 53 + 3)) = inject_Z (2 ^ 53 + 4)
  ∧ binary64.round (- (7 # 10)) = (- (3152519739159347 # 4503599627370496))%Q.
Proof. by vm_compute. Qed.


(** Ten picoseconds by two femtoseconds: neither quotient is rounded, and
    the count is the exact ceiling. *)
Example ten_ps_by_two_fs_is_exact :
  let quotient :=
    binary64.round (float_femtoseconds ten_ps / float_femtoseconds two_fs) in
  (quotient == femtoseconds ten_ps / femtoseconds two_fs)%Q
  ∧ (binary64.round (quotient / 100) == quotient / 100)%Q
  ∧ spec_ncycles ten_ps two_fs = 50.
Proof. by vm_compute. Qed.


Example fifty_cycles :
  _config (vars (_generate_config (process production)
                   (initial solvated)).2) !! 0%nat
  = Some "ncycles = 50".
Proof. vm_compute. reflexivity. Qed.

Lemma barostat_policy_witness :
  let self := process production in
  let st := initial solvated in
  let cfg := _config (vars (_generate_config self st).2) in
  ("barostat = True" ∈ cfg) ∧ ("pressure = 1 atm" ∈ cfg) ∧
  ("barostat = False" ∉ cfg).
Proof.
  apply (barostat_policy (process production)
           (initial solvated) _ NPT solvated);
    [reflexivity | reflexivity | vm_compute; reflexivity].
Defined.

Lemma start_again_is_noop_witness :
  start (process production) started = (Ok None, started).
Proof.
  apply start_again_is_noop. right. exists 0%nat. split; [reflexivity|].
  vm_compute. reflexivity.
Defined.

Lemma missing_artifact_is_absent_witness :
  let self := process free_energy in
  let st := initial solvated in
  getGradient self true BlockFalse st = (Ok None, st)
  ∧ getTrajectory self BlockFalse st = (Ok None, st)
  ∧ getSystem self BlockFalse st = (Ok None, st).
Proof.
  cbv zeta.
  destruct (missing_artifact_is_absent (process free_energy) true BlockFalse
              (initial solvated))
    as (Hgradient & _ & _ & _ & _ & Htrajectory).
  split; [apply Hgradient; vm_compute; discriminate|].
  apply Htrajectory. vm_compute. reflexivity.
Defined.


Lemma idle_stale (p : Protocol) : idle (process p) (stale solvated).
Proof. split; [reflexivity|]. intros pid. discriminate. Qed.

Lemma start_clears_stale_output_witness :
  let self := process free_energy in
  let st := stale solvated in
  match _clear_output self st with
  | (Ok _, st1) =>
      start self st = launch self st1
      ∧ (∀ f, f ∈ restart_and_trajectory_files self → ¬ file_exists st1 f)
      ∧ (is_FreeEnergy (_protocol self) = true →
         ∀ f, f ∈ gradient_and_energy_files self → ¬ file_exists st1 f)
  | (Raise e, st1) => start self st = (Raise e, st1)
  end.
Proof.
  exact (start_clears_stale_output (process free_energy)
           (stale solvated) (idle_stale free_energy)).
Defined.

(** The clearing of that directory returns and leaves it empty. *)
Example clear_output_empties :
  let out := _clear_output (process free_energy)
               (stale solvated) in
  out.1 = Ok tt ∧ files (world out.2) = ∅.
Proof. vm_compute. by split. Qed.

(** C6, as stated, fails: a production run started in a directory that holds
    the gradient and energy logs of an earlier free-energy run completes its
    [start] and both logs are still there, with their old content. *)
Lemma production_start_keeps_gradient_logs :
  let self := process production in
  let st := stale solvated in
  idle self st
  ∧ (start self st).1 = Ok (Some tt)
  ∧ files (world (start self st).2) !! "/work/gradients.dat"
    = Some "old gradients"
  ∧ files (world (start self st).2) !! "/work/simfile.dat"
    = Some "old energies"
  ∧ files (world (start self st).2) !! "/work/sim_restart.s3" = None.
Proof.
  split; [apply idle_stale|]. vm_compute. repeat split.
Qed.


(** The sample machine lets a free-energy setup complete. *)
Example sample_is_stageable :
  stageable (process free_energy)
            (initial solvated) solvated.
Proof.
  repeat split.
  - intros m Hm. cbn in Hm. rewrite !elem_of_cons, elem_of_nil in Hm.
    by destruct Hm as [->|[->|[->|[]]]].
  - cbn. rewrite H. rewrite decide_True; [by eexists|].
    apply list_elem_of_further, list_elem_of_here.
  - cbn. by eexists.
  - intros p _. cbn. apply not_elem_of_empty.
  - intros ts [= <-]. reflexivity.
Qed.

(** With one perturbable molecule and files that can be written, [_setup]
    completes and writes the four input files. *)
Example setup_completes :
  (_setup (process free_energy)
          (initial solvated)).1
  = Ok ["/work/somd.cfg"; "/work/somd.rst7"; "/work/somd.prm7";
        "/work/somd.pert"].
Proof. vm_compute. reflexivity. Qed.

(** With none or two perturbable molecules it raises and writes nothing. *)
Example setup_rejects_two :
  _setup (process free_energy) (initial two_ligands)
  = (Raise ValueError,
     mkState no_vars
       (set_store {[0%nat := two_ligands; 1%nat := two_ligands]}
          (machine two_ligands ∅ ∅))).
Proof. vm_compute. reflexivity. Qed.

Example setup_rejects_none :
  (_setup (process free_energy)
          (initial no_ligand)).1 = Raise ValueError.
Proof. vm_compute. reflexivity. Qed.


(** C8. When the command record cannot be written, [start] raises from
    inside the working directory of the process and the caller is left
    there: the current directory is no longer the one [start] was called
    from. *)
Theorem start_failure_leaves_work_dir :
  let self := process production in
  let st := mkState no_vars
              (machine solvated ∅ {["/work/README.txt"]}) in
  (start self st).1 = Raise OSError
  ∧ cwd (world st) = "/home/user"
  ∧ cwd (world (start self st).2) = "/work".
Proof. vm_compute. repeat split. Qed.

(** The caller's system is intact after a completed [_setup], while the
    working copy holds the end state of the ligand and relabelled waters. *)
Example setup_mutates_the_copy_only :
  let st' := (_setup (process free_energy)
                     (initial solvated)).2 in
  store (world st') !! 0%nat = Some solvated
  ∧ store (world st') !! 1%nat
    = Some (mkSys [mkMol 1 ["LIG"] false false;
                   mkMol 2 ["WAT"] true false;
                   mkMol 3 ["WAT"] true false]
                  ["space"; "coordinates"]).
Proof. vm_compute. by split. Qed.

(** Reading twice gives the two records once; a record appended by the
    engine afterwards is read on the next call, after the ones already
    there. *)
Example gradients_read_once :
  let self := process free_energy in
  let first := getGradient self true BlockFalse (logged gradient_log) in
  let second := getGradient self true BlockFalse first.2 in
  let appended :=
    mkState (vars second.2)
      (set_files {[ "/work/gradients.dat" :=
                      gradient_log +:+ "300 5" +:+ newline ]}
         (world second.2)) in
  let third := getGradient self true BlockFalse appended in
  first.1 = Ok (Some (Series [inject_Z (-12); inject_Z 7]))
  ∧ second.1 = first.1
  ∧ third.1 = Ok (Some (Series [inject_Z (-12); inject_Z 7; inject_Z 5]))
  ∧ (getGradient self false BlockFalse third.2).1
    = Ok (Some (Latest (inject_Z 5))).
Proof. vm_compute. repeat split. Qed.

(** C3, as stated, fails: with an empty line at the end of the gradient
    file the call does not return a series; it raises, and raises again when
    repeated. *)
Lemma getGradient_raises_on_blank_line :
  let self := process free_energy in
  let first := getGradient self true BlockFalse
                 (logged (gradient_log +:+ newline)) in
  first.1 = Raise IndexError
  ∧ (getGradient self true BlockFalse first.2).1 = Raise IndexError.
Proof. vm_compute. by split. Qed.

(** A call that raises stores no offset: the records read before the bad
    line are read again by the next call. *)
Example raising_read_repeats_records :
  let self := process free_energy in
  let first := getGradient self true BlockFalse
                 (logged (gradient_log +:+ newline)) in
  let second := getGradient self true BlockFalse first.2 in
  _gradients (vars first.2) = [inject_Z (-12); inject_Z 7]
  ∧ _gradients (vars second.2)
    = [inject_Z (-12); inject_Z 7; inject_Z (-12); inject_Z 7].
Proof. vm_compute. by split. Qed.

Lemma getGradient_twice_witness :
  let self := process free_energy in
  let first := getGradient self true BlockFalse (logged gradient_log) in
  let second := getGradient self true BlockAuto first.2 in
  second.1 = first.1
  ∧ second.2 = first.2
  ∧ _gradients (vars (logged gradient_log))
      `prefix_of` _gradients (vars first.2)
  ∧ _gradients (vars first.2) `prefix_of` _gradients (vars second.2).
Proof.
  apply (getGradient_twice (process free_energy) BlockFalse BlockAuto
           (logged gradient_log)).
  vm_compute. reflexivity.
Defined.

(** * The constructor, the set-up and the life of a process *)

Section Lifecycle.
Context `{Runtime}.

Ltac mred :=
  cbv [mbind mret M_bind M_ret raise lift modify_vars modify_world get_vars
       get_world try_except addToConfig deref] in *;
  cbn [vars world _config _gradients _input_files _args _process _command _timer
       set_config set_gradients set_input_files set_args set_process
       set_command set_timer fst snd negb orb andb app] in *.

Ltac is_in :=
  solve [ repeat first [ apply list_elem_of_here | apply list_elem_of_further ] ].

Ltac not_in :=
  let Hin := fresh "Hin" in
  intros Hin;
  repeat (apply elem_of_cons in Hin as [Hin|Hin];
          [ cbv [String.append] in Hin; discriminate Hin | ]);
  by apply elem_of_nil in Hin.

(** *** The platform argument *)

Lemma upper_char_idemp c : upper_char (upper_char c) = upper_char c.
Proof. by destruct c as [[] [] [] [] [] [] [] []]. Qed.

Lemma upper_idemp s : upper (upper s) = upper s.
Proof. induction s as [|c s IH]; cbn; [done|]. by rewrite upper_char_idemp, IH. Qed.

Lemma upper_char_space c : upper_char c = " "%char ↔ c = " "%char.
Proof. split; [|by intros ->]. by destruct c as [[] [] [] [] [] [] [] []]. Qed.

Lemma remove_spaces_upper s : remove_spaces (upper s) = upper (remove_spaces s).
Proof.
  induction s as [|c s IH]; cbn; [done|].
  destruct (decide (c = " "%char)) as [->|Hc].
  - by rewrite decide_True.
  - rewrite decide_False by (by rewrite upper_char_space). cbn. by rewrite IH.
Qed.

Lemma remove_spaces_idemp s : remove_spaces (remove_spaces s) = remove_spaces s.
Proof.
  induction s as [|c s IH]; cbn; [done|].
  destruct (decide (c = " "%char)) as [->|Hc]; [done|].
  cbn. rewrite decide_False by done. by rewrite IH.
Qed.

Lemma normalise_idemp s :
  upper (remove_spaces (upper (remove_spaces s))) = upper (remove_spaces s).
Proof. by rewrite remove_spaces_upper, remove_spaces_idemp, upper_idemp. Qed.

(** X1.  The platform check of the constructor reads its argument without
    regard to case and spaces: a name selects what its normal form (no
    spaces, upper case) selects.  A string is accepted exactly when its
    normal form is a key of the platform table, and the keyword stored is
    then one of CPU, CUDA and OpenCL; a string that is refused raises
    ValueError, a value that is not a string raises TypeError.  The keyword
    stored is itself accepted, and selects itself. *)
Theorem platform_is_normalised (platform : pyval) :
  match platform with
  | PyStr s =>
      select_platform (PyStr s) = select_platform (PyStr (upper (remove_spaces s)))
      ∧ match select_platform (PyStr s) with
        | Returned keyword =>
            (upper (remove_spaces s), keyword) ∈ _platforms
            ∧ keyword ∈ ["CPU"; "CUDA"; "OpenCL"]
            ∧ select_platform (PyStr keyword) = Returned keyword
        | Raised e =>
            e = Known ValueError
            ∧ upper (remove_spaces s) ∉ ["CPU"; "CUDA"; "OPENCL"]
        end
  | _ => select_platform platform = Raised (Known TypeError)
  end.
Proof.
  destruct platform as [| | | |s|]; try reflexivity.
  split.
  { unfold select_platform. by rewrite normalise_idemp. }
  unfold select_platform at 1.
  generalize (upper (remove_spaces s)). intros n.
  unfold get_assoc at 1. unfold _platforms at 1.
  repeat case_decide; subst.
  - repeat split; first [is_in | reflexivity].
  - repeat split; first [is_in | reflexivity].
  - repeat split; first [is_in | reflexivity].
  - split; [done|]. intros Hin.
    repeat (apply elem_of_cons in Hin as [Hin|Hin]; [congruence|]).
    by apply elem_of_nil in Hin.
Qed.

(** ** Footprints *)

Global Instance unchanged_preorder {A} (f : state → A) : PreOrder (unchanged f).
Proof. split; [done|]. intros x y z Hxy Hyz. unfold unchanged in *. congruence. Qed.

Global Instance grows_preorder : PreOrder grows.
Proof.
  split; [done|]. intros x y z [? ?] [? ?]. split; [congruence|set_solver].
Qed.

Global Instance steady_preorder : PreOrder steady.
Proof.
  split; [done|]. intros x y z (? & ? & ?) (? & ? & ?).
  split; [by etrans|]. split; congruence.
Qed.

Global Instance config_only_preorder : PreOrder config_only.
Proof.
  split; [done|]. intros x y z [? ?] [? ?]. split; congruence.
Qed.

Lemma ensures_run {A} (R : relation state) (E : exn → Prop) (m : M A)
    (st st' : state) (r : result A) :
  ensures R E m → m st = (r, st') → R st st'.
Proof. intros Hm Hrun. destruct (Hm st) as [HR _]. by rewrite Hrun in HR. Qed.

Lemma ensures_weaken {A} (R R' : relation state) (E E' : exn → Prop) (m : M A) :
  (∀ st st', R st st' → R' st st') → (∀ e, E e → E' e) →
  ensures R E m → ensures R' E' m.
Proof. intros HR HE Hm st. destruct (Hm st). split; auto. Qed.

Ltac ensures_step side :=
  lazymatch goal with
  | |- ensures _ _ (mbind _ _) => apply ensures_bind; [try apply _| |intros ?]
  | |- ensures _ _ (mret _) => apply ensures_ret; try apply _
  | |- ensures _ _ (raise _) => apply ensures_raise; [try apply _|side]
  | |- ensures _ _ (lift _) => apply ensures_lift; [try apply _|side]
  | |- ensures _ _ get_vars => apply ensures_get_vars; try apply _
  | |- ensures _ _ get_world => apply ensures_get_world; try apply _
  | |- ensures _ _ (modify_vars _) => apply ensures_modify_vars; side
  | |- ensures _ _ (modify_world _) => apply ensures_modify_world; side
  | |- ensures _ _ (try_except _ _) => apply ensures_try_except; [try apply _| |]
  | |- ensures _ _ (for_each _ _) => apply ensures_for_each; [try apply _|intros ?]
  | |- ensures _ _ (if ?b then _ else _) => destruct b
  | |- ensures _ _ (match ?x with _ => _ end) => destruct x
  end.

Ltac any_side := try done; try (intros; exact I).

(** [_generate_config] touches nothing but the configuration lines. *)
Lemma generate_config_frame (self : Somd) :
  ensures config_only (λ _, True) (_generate_config self).
Proof.
  unfold _generate_config, addToConfig, deref.
  repeat ensures_step ltac:(any_side; try (intros; split; cbn; done)).
Qed.

(** The methods down to the file-system calls and the generation of the
    configuration. *)
Ltac open_methods :=
  unfold _generate_args, writeConfig, setConfig, addToConfig,
    clearArgs, setArg, deref, getPerturbableMolecules, nPerturbableMolecules,
    getWaterMolecules, _toPertFile, sire_remove, sire_add, sire_molecule,
    rename_first_residue, System_copy, stage_perturbation,
    relabel_waters, write_amber_files, write_configuration,
    substitute_end_state, _setup.

Ltac footprint prim side :=
  repeat first
    [ prim
    | lazymatch goal with
      | |- ensures _ _ (_generate_config _) =>
          eapply ensures_weaken; [| |apply generate_config_frame]; [side|done]
      end
    | ensures_step side
    | progress open_methods ].

Lemma write_text_steady (p text : string) :
  ensures steady (λ _, True) (os.write_text p text).
Proof.
  intros st. unfold os.write_text. mred.
  case_bool_decide; cbn; [done|]. split; [|done].
  split; [|done]. split; [done|]. cbn. rewrite dom_insert. set_solver.
Qed.

Lemma config_only_steady (st st' : state) : config_only st st' → steady st st'.
Proof.
  intros [Hw Hv]. split; [by split; rewrite Hw|].
  split; [exact (f_equal _input_files Hv)|exact (f_equal _gradients Hv)].
Qed.

Ltac steady_side :=
  any_side;
  try (intros; split; [split|split]; cbn; done);
  try (apply config_only_steady).

Ltac by_write_text lem :=
  idtac;
  lazymatch goal with
  | |- ensures _ _ (os.write_text _ _) => apply lem
  end.

Lemma resolve_set_files (f : gmap string string) (w : World) (p : string) :
  resolve (set_files f w) p = resolve w p.
Proof. reflexivity. Qed.

Lemma file_exists_grows (st st' : state) (f : string) :
  grows st st' → file_exists st f → file_exists st' f.
Proof.
  intros [Hcwd Hdom]. unfold file_exists, resolve. rewrite Hcwd.
  destruct (is_absolute f); set_solver.
Qed.

Lemma write_text_Ok (p text : string) (st st' : state) (u : unit) :
  os.write_text p text st = (Ok u, st') →
  st' = mkState (vars st)
          (set_files (<[resolve (world st) p := text]> (files (world st)))
                     (world st)).
Proof.
  unfold os.write_text. mred. case_bool_decide; [done|]. by intros [= <-].
Qed.

Lemma write_text_exists (p text : string) (st st' : state) (u : unit) :
  os.write_text p text st = (Ok u, st') → file_exists st' p.
Proof.
  intros ->%write_text_Ok. unfold file_exists. cbn.
  rewrite dom_insert. set_solver.
Qed.

Lemma try_write_Ok (o : option string) (p : string) (st st' : state) (u : unit) :
  try_except
    (match o with
     | Some text => os.write_text p text
     | None => raise ValueError
     end) (raise IOError) st = (Ok u, st') →
  ∃ text, o = Some text ∧ os.write_text p text st = (Ok u, st').
Proof.
  unfold try_except. destruct o as [text|]; [|done].
  destruct (os.write_text p text st) as [[[]|e] st1] eqn:E; [|done].
  destruct u. intros [= <-]. by exists text.
Qed.

(** What [_setup] does after the copy: the lists of gradients and no file is
    lost; the list of input files is kept but by the staging of the
    perturbation. *)
Lemma copy_steady (a : nat) : ensures steady (λ _, True) (System_copy a).
Proof. footprint ltac:(by_write_text write_text_steady) steady_side. Qed.

Lemma relabel_steady (a : nat) : ensures steady (λ _, True) (relabel_waters a).
Proof. footprint ltac:(by_write_text write_text_steady) steady_side. Qed.

Lemma amber_steady (self : Somd) (a : nat) :
  ensures steady (λ _, True) (write_amber_files self a).
Proof. footprint ltac:(by_write_text write_text_steady) steady_side. Qed.

Lemma configuration_steady (self : Somd) :
  ensures steady (λ _, True) (write_configuration self).
Proof. footprint ltac:(by_write_text write_text_steady) steady_side. Qed.

Lemma args_steady (self : Somd) :
  ensures steady (λ _, True) (_generate_args self).
Proof. footprint ltac:(by_write_text write_text_steady) steady_side. Qed.

Ltac mred_in H :=
  cbv [mbind mret M_bind M_ret raise lift modify_vars modify_world get_vars
       get_world try_except addToConfig deref] in H;
  cbn [vars world _config _gradients _input_files _args _process _command _timer
       set_config set_gradients set_input_files set_args set_process
       set_command set_timer fst snd negb orb andb app] in H.

Tactic Notation "inv_bind" hyp(H) "as" ident(a) ident(st) ident(E) :=
  apply bind_Ok_inv in H as (a & st & E & H).


(** ** What a completed [_setup] leaves *)

Lemma stage_Ok (self : Somd) (a : nat) (st st' : state) (u : unit) :
  stage_perturbation self a st = (Ok u, st') →
  grows st st'
  ∧ _gradients (vars st') = _gradients (vars st)
  ∧ _input_files (vars st')
    = _input_files (vars st)
      ++ (if is_FreeEnergy (_protocol self) then [_pert_file self] else [])
  ∧ (is_FreeEnergy (_protocol self) = true → file_exists st' (_pert_file self)).
Proof.
  unfold stage_perturbation.
  destruct (is_FreeEnergy (_protocol self)); cycle 1.
  { intros [= <- <-]. rewrite app_nil_r. by repeat split. }
  intros Hrun. inv_bind Hrun as n st0 En.
  destruct (decide (n = 1%nat)); [|done].
  unfold substitute_end_state in Hrun. inv_bind Hrun as mols st1 Emols.
  destruct mols as [|pert_mol ?]; [done|].
  inv_bind Hrun as mol0 st2 Epert. unfold _toPertFile in Epert.
  inv_bind Epert as u2 st3 Ewrite. injection Epert as <- <-.
  inv_bind Hrun as u3 st4 Eapp. injection Eapp as <- <-.
  assert (st0 = st) as ->.
  { unfold nPerturbableMolecules, getPerturbableMolecules, deref in En.
    mred. destruct (store (world st) !! a); by simplify_eq. }
  assert (st1 = st) as ->.
  { unfold getPerturbableMolecules, deref in Emols.
    mred. destruct (store (world st) !! a); by simplify_eq. }
  pose proof (write_text_exists _ _ _ _ _ Ewrite) as Hpert.
  pose proof (ensures_run _ _ _ _ _ _ (write_text_steady _ _) Ewrite)
    as (Hg & Hi & Hgr).
  assert (steady (mkState (set_input_files
                    (_input_files (vars st3) ++ [_pert_file self]) (vars st3))
                    (world st3)) st') as (Hg' & Hi' & Hgr').
  { eapply (ensures_run steady (λ _, True)); [|exact Hrun].
    footprint ltac:(by_write_text write_text_steady) steady_side. }
  cbn in Hi', Hgr'.
  split; [by etrans; [exact Hg|exact Hg']|].
  split; [congruence|]. split; [congruence|].
  intros _. eapply file_exists_grows; [exact Hg'|exact Hpert].
Qed.

(** The waters still to relabel are named by their numbers. *)
Lemma relabel_loop_Ok (a : nat) (todo : list Molecule) (st st' : state)
    (u : unit) :
  (∃ s, store (world st) !! a = Some s
        ∧ ∀ m, m ∈ molecules s → isWater m = true →
               (∃ rs, residues m = "WAT" :: rs)
               ∨ number m ∈ (number <$> todo)) →
  for_each todo (λ mol,
    mol ← sire_molecule a (number mol);
    mol ← rename_first_residue mol "WAT";
    sire_remove a (number mol);; sire_add a mol) st = (Ok u, st') →
  ∃ s', store (world st') !! a = Some s' ∧ waters_labelled s'.
Proof.
  revert st. induction todo as [|w todo IH]; intros st (s & Hs & Hinv).
  - intros [= <- <-]. exists s. split; [done|].
    intros m Hm Hw. destruct (Hinv m Hm Hw) as [?|Hin]; [done|].
    by apply elem_of_nil in Hin.
  - cbn [for_each]. intros Hrun. inv_bind Hrun as u1 st1 Ebody.
    apply (IH st1); [|exact Hrun]. clear IH Hrun.
    unfold sire_molecule, rename_first_residue, sire_remove, sire_add in Ebody.
    mred. rewrite Hs in Ebody.
    destruct (filter (λ m, number m = number w) (molecules s))
      as [|m0 ms] eqn:Efilter; [done|].
    assert (number m0 = number w ∧ m0 ∈ molecules s) as [Hn0 Hm0].
    { apply (list_elem_of_filter (λ m, number m = number w)).
      rewrite Efilter. apply list_elem_of_here. }
    destruct (residues m0) as [|r0 rs0] eqn:Eres; [done|].
    cbn in Ebody. rewrite Hs in Ebody. cbn in Ebody.
    rewrite lookup_insert_eq in Ebody. cbn in Ebody.
    injection Ebody as _ <-. cbn.
    rewrite insert_insert_eq, lookup_insert_eq.
    eexists. split; [done|]. cbn.
    intros m [Hm| ->%list_elem_of_singleton]%elem_of_app Hw.
    + apply list_elem_of_filter in Hm as [Hne Hm].
      destruct (Hinv m Hm Hw) as [?|Hin]; [by left|]. right.
      rewrite fmap_cons in Hin. apply elem_of_cons in Hin as [Heq|Hin]; [|done].
      congruence.
    + left. by eexists.
Qed.

Lemma relabel_waters_Ok (a : nat) (st st' : state) (u : unit) :
  relabel_waters a st = (Ok u, st') →
  ∃ s', store (world st') !! a = Some s' ∧ waters_labelled s'.
Proof.
  unfold relabel_waters. intros Hrun. inv_bind Hrun as waters st0 Ewaters.
  unfold getWaterMolecules, deref in Ewaters. mred_in Ewaters.
  destruct (store (world st) !! a) as [s|] eqn:Hs; [|done].
  injection Ewaters as <- <-.
  apply relabel_loop_Ok in Hrun; [done|].
  exists s. split; [done|]. intros m Hm Hw. right.
  apply list_elem_of_fmap. exists m. split; [done|].
  by apply (list_elem_of_filter (λ m, isWater m = true)).
Qed.

(** The serialisers are given the system at [a], and their texts are the
    coordinate and the topology file. *)
Lemma amber_Ok (self : Somd) (a : nat) (st st' : state) (u : unit) :
  write_amber_files self a st = (Ok u, st') →
  ∃ s rst prm,
    store (world st) !! a = Some s
    ∧ AmberRst7 s (_property_map self) = Some rst
    ∧ AmberPrm s (_property_map self) = Some prm
    ∧ st' = mkState (vars st)
              (set_files
                 (<[resolve (world st) (_top_file self) := prm]>
                    (<[resolve (world st) (_rst_file self) := rst]>
                       (files (world st))))
                 (world st)).
Proof.
  unfold write_amber_files. intros Hrun. inv_bind Hrun as s st0 Es.
  unfold deref in Es. mred_in Es.
  destruct (store (world st) !! a) as [s0|] eqn:Hs; [|done].
  injection Es as <- <-.
  inv_bind Hrun as u1 st1 Erst.
  apply try_write_Ok in Erst as (rst & Hrst & ->%write_text_Ok).
  apply try_write_Ok in Hrun as (prm & Hprm & ->%write_text_Ok).
  by exists s0, rst, prm.
Qed.

Lemma configuration_Ok (self : Somd) (st st' : state) (u : unit) :
  write_configuration self st = (Ok u, st') →
  ∃ v, config_only st (mkState v (world st))
       ∧ (∀ lines, _protocol self = Custom lines → _config v = lines)
       ∧ st' = mkState v
                 (set_files
                    (<[resolve (world st) (_config_file self)
                       := join newline (_config v)]> (files (world st)))
                    (world st)).
Proof.
  unfold write_configuration. intros Hrun. inv_bind Hrun as u1 st1 Egen.
  unfold writeConfig in Hrun. inv_bind Hrun as v st2 Ev.
  injection Ev as <- <-. apply write_text_Ok in Hrun as ->.
  assert (config_only st st1 ∧
          ∀ lines, _protocol self = Custom lines → _config (vars st1) = lines)
    as [[Hw Hv] Hcustom].
  { destruct (_protocol self) eqn:Ep;
      try (split; [|done];
           exact (ensures_run config_only (λ _, True) (_generate_config self)
                    _ _ _ (generate_config_frame self) Egen)).
    unfold setConfig in Egen. mred_in Egen. injection Egen as _ <-.
    split; [done|]. by intros ? [= <-]. }
  exists (vars st1). rewrite Hw. split; [|split; [done|]].
  - split; [done|]. cbn. exact Hv.
  - done.
Qed.

Lemma args_Ok (self : Somd) (st st' : state) (u : unit) :
  _generate_args self st = (Ok u, st') →
  st' = mkState (set_args (_args (vars st')) (vars st)) (world st)
  ∧ concat (map (λ kv, [kv.1; kv.2]) (_args (vars st'))) = argument_list self.
Proof.
  unfold _generate_args, clearArgs, setArg, argument_list. mred.
  destruct (is_FreeEnergy (_protocol self)); cbn; intros [= _ <-];
    split; reflexivity.
Qed.

(** The blocks of a completed [_setup], with the states between them. *)
Lemma setup_Ok (self : Somd) (st st' : state) (l : list string) :
  _setup self st = (Ok l, st') →
  let a := fresh (dom (store (world st))) in
  ∃ sys st2 st3 st4 st5,
    store (world st) !! _system self = Some sys
    ∧ stage_perturbation self a
        (mkState (vars st)
           (set_store (<[a := sys]> (store (world st))) (world st)))
      = (Ok tt, st2)
    ∧ relabel_waters a st2 = (Ok tt, st3)
    ∧ write_amber_files self a st3 = (Ok tt, st4)
    ∧ write_configuration self st4 = (Ok tt, st5)
    ∧ _generate_args self st5 = (Ok tt, st')
    ∧ l = _input_files (vars st').
Proof.
  intros Hrun. cbv zeta. unfold _setup in Hrun. inv_bind Hrun as a' st1 Ecopy.
  pose proof (System_copy_spec (_system self) st) as Hcopy.
  destruct (store (world st) !! _system self) as [sys|]; [|congruence].
  rewrite Hcopy in Ecopy. injection Ecopy as <- <-.
  inv_bind Hrun as u2 st2 Estage. inv_bind Hrun as u3 st3 Erelabel.
  inv_bind Hrun as u4 st4 Eamber. inv_bind Hrun as u5 st5 Econfig.
  inv_bind Hrun as u6 st6 Eargs. mred_in Hrun. injection Hrun as <- <-.
  destruct u2, u3, u4, u5, u6.
  by exists sys, st2, st3, st4, st5.
Qed.

Lemma resolve_cwd (w w' : World) (p : string) :
  cwd w' = cwd w → resolve w' p = resolve w p.
Proof. unfold resolve. by intros ->. Qed.

(** Two files of one directory with different names are different files. *)
Lemma resolve_sibling (w : World) (d x y : string) :
  resolve w (d +:+ "/" +:+ x) = resolve w (d +:+ "/" +:+ y) → x = y.
Proof.
  unfold resolve.
  assert (is_absolute (d +:+ "/" +:+ x) = is_absolute (d +:+ "/" +:+ y)) as ->
    by (by destruct d).
  destruct (is_absolute _); intros Heq;
    repeat apply (inj (String.app _)) in Heq; done.
Qed.

Lemma input_files_differ (self : Somd) (w : World) :
  resolve w (_rst_file self) ≠ resolve w (_top_file self)
  ∧ resolve w (_rst_file self) ≠ resolve w (_config_file self)
  ∧ resolve w (_top_file self) ≠ resolve w (_config_file self).
Proof.
  unfold _rst_file, _top_file, _config_file.
  repeat split; intros Heq%resolve_sibling;
    apply (inj (String.app _)) in Heq; discriminate Heq.
Qed.

(** The input files of a completed [_setup]: the list the object held, with
    the perturbation file for a free-energy protocol; and each of them, as
    the coordinate, topology and configuration file, exists. *)
Lemma setup_inputs (self : Somd) (st st' : state) (l : list string) :
  _setup self st = (Ok l, st') →
  l = _input_files (vars st)
      ++ (if is_FreeEnergy (_protocol self) then [_pert_file self] else [])
  ∧ _input_files (vars st') = l
  ∧ _gradients (vars st') = _gradients (vars st)
  ∧ grows st st'
  ∧ ∀ f, f ∈ [_config_file self; _rst_file self; _top_file self]
               ++ (if is_FreeEnergy (_protocol self) then [_pert_file self]
                   else []) →
         file_exists st' f.
Proof.
  intros Hrun. pose proof (setup_Ok _ _ _ _ Hrun)
    as (sys & st2 & st3 & st4 & st5 & Hsys & Estage & Erelabel & Eamber
        & Econfig & Eargs & ->).
  set (st1 := mkState _ _) in Estage.
  assert (steady st st1) as S1 by (by repeat split).
  apply stage_Ok in Estage as (G2 & Hgr2 & Hin2 & Hpert).
  pose proof (ensures_run _ _ _ _ _ _ (relabel_steady _) Erelabel) as S3.
  pose proof (ensures_run _ _ _ _ _ _ (amber_steady _ _) Eamber) as S4.
  pose proof (ensures_run _ _ _ _ _ _ (configuration_steady _) Econfig) as S5.
  pose proof (ensures_run _ _ _ _ _ _ (args_steady _) Eargs) as S6.
  assert (steady st2 st') as (G & Hin & Hgr).
  { etrans; [exact S3|]. etrans; [exact S4|]. by etrans; [exact S5|]. }
  destruct S1 as (G1 & Hin1 & Hgr1).
  split; [congruence|]. split; [done|]. split; [congruence|].
  split; [by etrans; [exact G1|]; etrans; [exact G2|]|].
  intros f [Hf|Hf]%elem_of_app.
  - apply amber_Ok in Eamber as (s & rst & prm & _ & _ & _ & ->).
    apply configuration_Ok in Econfig as (v & _ & _ & ->).
    apply args_Ok in Eargs as [-> _].
    pose proof (input_files_differ self (world st3)) as (? & ? & ?).
    unfold file_exists. cbn. rewrite !resolve_set_files, !dom_insert.
    repeat (apply elem_of_cons in Hf as [->|Hf]); [set_solver..|].
    by apply elem_of_nil in Hf.
  - destruct (is_FreeEnergy (_protocol self)); [|by apply elem_of_nil in Hf].
    apply list_elem_of_singleton in Hf as ->.
    eapply file_exists_grows; [exact G|]. by apply Hpert.
Qed.

(** X2.  The input files of a completed set-up.  [_setup] returns the list
    of input files the object held, followed by the perturbation file when
    the protocol is a free-energy one; the list is also what the object
    holds afterwards, and the configuration, coordinate and topology files
    (and the perturbation file of a free-energy protocol) exist when it
    returns.  No file that existed before is lost. *)
Theorem setup_returns_existing_inputs (self : Somd) (st st' : state)
    (l : list string) :
  _setup self st = (Ok l, st') →
  l = _input_files (vars st)
      ++ (if is_FreeEnergy (_protocol self) then [_pert_file self] else [])
  ∧ _input_files (vars st') = l
  ∧ (∀ f, f ∈ [_config_file self; _rst_file self; _top_file self]
               ++ (if is_FreeEnergy (_protocol self) then [_pert_file self]
                   else []) →
          file_exists st' f)
  ∧ (∀ f, file_exists st f → file_exists st' f).
Proof.
  intros (Hl & Hin & _ & Hg & Hex)%setup_inputs.
  repeat split; [done..|]. intros f. by apply file_exists_grows.
Qed.

(** X3.  The working copy that is serialised.  When [_setup] returns, the
    copy it made of the system (at the fresh reference) has the residue
    label WAT on every water molecule, and the coordinate and the topology
    file hold what the Amber serialisers of Sire make of that copy. *)
Theorem setup_serialises_relabelled_copy (self : Somd) (st st' : state)
    (l : list string) :
  _setup self st = (Ok l, st') →
  ∃ copy,
    store (world st') !! fresh (dom (store (world st))) = Some copy
    ∧ waters_labelled copy
    ∧ files (world st') !! resolve (world st) (_rst_file self)
      = AmberRst7 copy (_property_map self)
    ∧ files (world st') !! resolve (world st) (_top_file self)
      = AmberPrm copy (_property_map self).
Proof.
  intros Hrun. pose proof (setup_Ok _ _ _ _ Hrun)
    as (sys & st2 & st3 & st4 & st5 & Hsys & Estage & Erelabel & Eamber
        & Econfig & Eargs & ->).
  set (st1 := mkState _ _) in Estage.
  apply stage_Ok in Estage as ([C2 _] & _).
  pose proof (ensures_run _ _ _ _ _ _ (relabel_steady _) Erelabel)
    as ([C3 _] & _).
  assert (cwd (world st3) = cwd (world st)) as Hcwd by (by rewrite C3, C2).
  apply relabel_waters_Ok in Erelabel as (copy & Hcopy & Hwat).
  apply amber_Ok in Eamber as (s & rst & prm & Hs & Hrst & Hprm & ->).
  apply configuration_Ok in Econfig as (v & _ & _ & ->).
  apply args_Ok in Eargs as [-> _].
  rewrite Hcopy in Hs. injection Hs as <-.
  pose proof (input_files_differ self (world st3)) as (Hrt & Hrc & Htc).
  exists copy. cbn. split; [done|]. split; [done|].
  rewrite !resolve_set_files.
  rewrite <- !(resolve_cwd (world st) (world st3) _ Hcwd).
  rewrite Hrst, Hprm.
  split.
  - rewrite lookup_insert_ne by (by symmetry).
    rewrite lookup_insert_ne by (by symmetry).
    by rewrite lookup_insert_eq.
  - rewrite lookup_insert_ne by (by symmetry). by rewrite lookup_insert_eq.
Qed.

(** X4.  A custom protocol.  [_generate_config] refuses a custom protocol,
    but [_setup] does not call it for one: when [_setup] returns, the
    configuration of the object is the list of lines of the protocol,
    unchanged, and the configuration file holds these lines, one per
    line. *)
Theorem custom_configuration_is_verbatim (self : Somd) (lines : list string)
    (st st' : state) (l : list string) :
  _protocol self = Custom lines →
  _setup self st = (Ok l, st') →
  _config (vars st') = lines
  ∧ files (world st') !! resolve (world st) (_config_file self)
    = Some (join newline lines)
  ∧ (_generate_config self st).1 = Raise IncompatibleError.
Proof.
  intros Hp Hrun. pose proof (setup_Ok _ _ _ _ Hrun)
    as (sys & st2 & st3 & st4 & st5 & Hsys & Estage & Erelabel & Eamber
        & Econfig & Eargs & ->).
  set (st1 := mkState _ _) in Estage.
  apply stage_Ok in Estage as ([C2 _] & _).
  pose proof (ensures_run _ _ _ _ _ _ (relabel_steady _) Erelabel)
    as ([C3 _] & _).
  pose proof (ensures_run _ _ _ _ _ _ (amber_steady _ _) Eamber)
    as ([C4 _] & _).
  assert (cwd (world st4) = cwd (world st)) as Hcwd by (by rewrite C4, C3, C2).
  apply configuration_Ok in Econfig as (v & _ & Hv & ->).
  apply args_Ok in Eargs as [-> _].
  specialize (Hv lines Hp). cbn. rewrite Hv.
  split; [done|]. split.
  - rewrite <- (resolve_cwd (world st) (world st4) _ Hcwd).
    by rewrite lookup_insert_eq.
  - unfold _generate_config. mred. rewrite Hsys, Hp. done.
Qed.

(** ** The constructor *)

(** X5.  A refused argument stops the constructor before the set-up: when
    the platform is refused, or when the executable (the given one, or the
    one expected in the binary directory of Sire) is not a file, the
    constructor raises and the state is what it was: no system is copied
    and no file is written.  A missing default executable raises
    MissingSoftwareError, a missing given one IOError. *)
Theorem constructor_checks_come_first (self : Somd) (exe : option string)
    (platform : pyval) (bin_dir : string) (st : state) :
  let out := __init__ self exe platform bin_dir st in
  let default_exe :=
    bin_dir +:+ (if is_FreeEnergy (_protocol self) then "/somd-freenrg"
                 else "/somd") in
  (∀ e, select_platform platform = Raised e → out = (Raised e, st))
  ∧ (∀ keyword, select_platform platform = Returned keyword →
       match exe with
       | None =>
           ¬ file_exists st default_exe →
           out = (Raised MissingSoftwareError, st)
       | Some path =>
           ¬ file_exists st path → out = (Raised (Known IOError), st)
       end).
Proof.
  cbv zeta. unfold __init__. split.
  - by intros e ->.
  - intros keyword ->. unfold select_exe, isfile_in, file_exists.
    destruct exe as [path|].
    + intros Hno. by rewrite bool_decide_eq_false_2.
    + destruct (is_FreeEnergy (_protocol self));
        intros Hno; by rewrite bool_decide_eq_false_2.
Qed.

(** X6.  A constructed process.  When the constructor returns, the object
    is the one the base class made, with a platform keyword out of CPU,
    CUDA and OpenCL and an executable that is a file: the given one, or
    else [somd-freenrg] for a free-energy protocol and [somd] for any
    other, in the binary directory of Sire.  The object has no gradient
    record, its input files are the configuration, coordinate and
    topology file (and the perturbation file of a free-energy protocol),
    and its command-line arguments are those of [_generate_args]. *)
Theorem constructed_process (self obj : Somd) (exe : option string)
    (platform : pyval) (bin_dir : string) (st st' : state) :
  __init__ self exe platform bin_dir st = (Returned obj, st') →
  obj = set_platform_exe (_platform obj) (_exe obj) self
  ∧ _platform obj ∈ ["CPU"; "CUDA"; "OpenCL"]
  ∧ file_exists st (_exe obj)
  ∧ _exe obj = match exe with
               | Some path => path
               | None =>
                   bin_dir +:+ (if is_FreeEnergy (_protocol self)
                                then "/somd-freenrg" else "/somd")
               end
  ∧ _gradients (vars st') = []
  ∧ _input_files (vars st')
    = [_config_file obj; _rst_file obj; _top_file obj]
      ++ (if is_FreeEnergy (_protocol obj) then [_pert_file obj] else [])
  ∧ concat (map (λ kv, [kv.1; kv.2]) (_args (vars st'))) = argument_list obj.
Proof.
  unfold __init__.
  destruct (select_platform platform) as [keyword|] eqn:Hplatform; [|done].
  destruct (select_exe self exe bin_dir (world st)) as [somd_exe|] eqn:Hexe;
    [|done].
  set (obj' := set_platform_exe keyword somd_exe self).
  destruct (_setup obj' _) as [[l|e] st1] eqn:Hsetup; [|done].
  intros [= <- <-].
  split; [done|]. split.
  { unfold select_platform in Hplatform.
    destruct platform as [| | | |s|]; try done.
    unfold _platforms, get_assoc in Hplatform.
    repeat case_decide; simplify_eq; cbn; is_in. }
  assert (file_exists st somd_exe ∧
          somd_exe = match exe with
                     | Some path => path
                     | None =>
                         bin_dir +:+ (if is_FreeEnergy (_protocol self)
                                      then "/somd-freenrg" else "/somd")
                     end) as [Hfile Hpath].
  { unfold select_exe, isfile_in in Hexe. unfold file_exists.
    destruct exe as [path|].
    - case_bool_decide; by simplify_eq.
    - destruct (is_FreeEnergy (_protocol self));
        case_bool_decide; cbn in Hexe; by simplify_eq. }
  split; [done|]. split; [done|].
  pose proof (setup_inputs _ _ _ _ Hsetup) as (Hl & Hin & Hgr & _).
  pose proof (setup_Ok _ _ _ _ Hsetup)
    as (_ & _ & _ & _ & st5 & _ & _ & _ & _ & _ & Eargs & _).
  apply args_Ok in Eargs as [_ Hargs].
  split; [done|]. split; [|done]. by rewrite Hin, Hl.
Qed.

(** ** The command line and the start *)

Lemma chdir_inv (d : string) (st st' : state) (u : unit) :
  os.chdir d st = (Ok u, st') →
  st' = mkState (vars st) (set_cwd (resolve (world st) d) (world st)).
Proof.
  unfold os.chdir. intros Hrun. mred_in Hrun.
  case_bool_decide; [|done]. by injection Hrun as _ <-.
Qed.

Lemma string_app_assoc (a b c : string) : (a +:+ b) +:+ c = a +:+ b +:+ c.
Proof.
  induction a as [|x a IH]; [done|].
  change (String x ((a +:+ b) +:+ c) = String x (a +:+ b +:+ c)).
  by rewrite IH.
Qed.

Lemma list_ascii_app (a b : string) :
  list_ascii_of_string (a +:+ b)
  = (list_ascii_of_string a ++ list_ascii_of_string b)%list.
Proof.
  induction a as [|x a IH]; [done|].
  change (x :: list_ascii_of_string (a +:+ b)
          = x :: (list_ascii_of_string a ++ list_ascii_of_string b)%list).
  by rewrite IH.
Qed.

(** A name in [.err] is not [README.txt]. *)
Lemma err_is_not_readme (x y : string) : x +:+ ".err" ≠ y +:+ "README.txt".
Proof.
  intros Heq. apply (f_equal list_ascii_of_string) in Heq.
  rewrite !list_ascii_app in Heq. apply (f_equal last) in Heq.
  rewrite !last_app in Heq. discriminate Heq.
Qed.

(** The last component of a path keeps a suffix that has no slash. *)
Lemma basename_go_err (acc p : string) :
  os.basename_go acc (p +:+ ".err") = os.basename_go acc p +:+ ".err".
Proof.
  revert acc. induction p as [|c p IH]; intros acc.
  - change ("" +:+ ".err") with ".err". cbn.
    by rewrite !string_app_assoc.
  - change (String c p +:+ ".err") with (String c (p +:+ ".err")). cbn.
    destruct c as [[] [] [] [] [] [] [] []]; apply IH.
Qed.

Lemma stderr_is_not_readme (self : Somd) (w : World) :
  resolve w (os.basename (_stderr_file self)) ≠ resolve w "README.txt".
Proof.
  unfold _stderr_file, os.basename.
  rewrite <- !string_app_assoc, basename_go_err.
  unfold resolve. cbn [is_absolute].
  rewrite <- (string_app_assoc (cwd w) "/" "README.txt").
  destruct (is_absolute _).
  - apply err_is_not_readme.
  - rewrite <- !string_app_assoc. apply err_is_not_readme.
Qed.

(** What a completed launch leaves. *)
Lemma launch_Ok (self : Somd) (st st' : state) (r : option unit) :
  launch self st = (Ok r, st') →
  let w1 := set_cwd (resolve (world st) (_work_dir self)) (world st) in
  let command :=
    _exe self +:+ " " +:+
    join " " (concat (map (λ kv, [kv.1; kv.2]) (_args (vars st)))) in
  let pid := fresh (spawned (world st)) in
  r = Some tt
  ∧ vars st' = set_process (Some pid)
                 (set_timer (Some (clock (world st)))
                    (set_command (Some command) (vars st)))
  ∧ files (world st')
    = <[resolve w1 (os.basename (_stderr_file self))
        := "All output has been redirected to the stdout stream!" +:+ newline]>
        (<[resolve w1 "README.txt"
           := "# SOMD was run with the following command:" +:+ newline +:+
              command +:+ newline]>
           (<[resolve w1 "README.txt" := ""]> (files (world st))))
  ∧ spawned (world st') = {[pid]} ∪ spawned (world st)
  ∧ running (world st') = {[pid]} ∪ running (world st)
  ∧ store (world st') = store (world st).
Proof.
  unfold launch. intros Hrun.
  inv_bind Hrun as dir st0 Edir. injection Edir as <- <-.
  inv_bind Hrun as u1 st1 Echdir. apply chdir_inv in Echdir as ->.
  inv_bind Hrun as args st2 Eargs. injection Eargs as <- <-.
  inv_bind Hrun as u3 st3 Eopen. apply write_text_Ok in Eopen as ->.
  inv_bind Hrun as argstr st4 Eargstr. injection Eargstr as <- <-.
  inv_bind Hrun as u5 st5 Ecommand. injection Ecommand as _ <-.
  inv_bind Hrun as u6 st6 Ewrite. apply write_text_Ok in Ewrite as ->.
  inv_bind Hrun as w st7 Eworld. injection Eworld as <- <-.
  inv_bind Hrun as u8 st8 Etimer. injection Etimer as _ <-.
  inv_bind Hrun as pid st9 Erun. injection Erun as <- <-.
  inv_bind Hrun as u10 st10 Eprocess. injection Eprocess as _ <-.
  inv_bind Hrun as u11 st11 Eerr. apply write_text_Ok in Eerr as ->.
  inv_bind Hrun as u12 st12 Eback. apply chdir_inv in Eback as ->.
  injection Hrun as <- <-. repeat split; reflexivity.
Qed.

(** X7.  The command that is run and recorded.  Whatever the argument
    table held, [_generate_args] leaves the flags [-c], [-t], [-C] and [-p]
    in this order, with [-m] after [-t] for a free-energy protocol only.
    With that table, a completed launch records as the command the
    executable followed by these arguments, writes the command under a
    header to [README.txt] in the working directory, and leaves a note in
    the file of the standard error stream, which is another file. *)
Theorem launch_records_the_command (self : Somd) (st0 st st' : state)
    (r : option unit) :
  _args (vars st) = _args (vars (_generate_args self st0).2) →
  launch self st = (Ok r, st') →
  let w1 := set_cwd (resolve (world st) (_work_dir self)) (world st) in
  let command := _exe self +:+ " " +:+ join " " (argument_list self) in
  (_generate_args self;; getArgStringList) st0
  = (Ok (argument_list self), (_generate_args self st0).2)
  ∧ _command (vars st') = Some command
  ∧ files (world st') !! resolve w1 "README.txt"
    = Some ("# SOMD was run with the following command:" +:+ newline +:+
            command +:+ newline)
  ∧ files (world st') !! resolve w1 (os.basename (_stderr_file self))
    = Some ("All output has been redirected to the stdout stream!" +:+ newline).
Proof.
  intros Hargs Hrun. cbv zeta.
  destruct (_generate_args self st0) as [[[]|e] st1] eqn:Egen; cycle 1.
  { destruct (generate_args_runs self st0) as [? Hok]. congruence. }
  pose proof (args_Ok _ _ _ _ Egen) as [_ Hlist].
  apply launch_Ok in Hrun as (_ & Hvars & Hfiles & _).
  cbn [snd] in Hargs. rewrite Hargs, Hlist in Hvars, Hfiles.
  split.
  { unfold mbind, M_bind. rewrite Egen. unfold getArgStringList. mred.
    by rewrite Hlist. }
  rewrite Hvars, Hfiles. split; [done|]. split.
  - rewrite lookup_insert_ne by apply stderr_is_not_readme.
    by rewrite lookup_insert_eq.
  - by rewrite lookup_insert_eq.
Qed.

(** X8.  When [start] has nothing to return.  [start] returns nothing
    exactly when the process is queued or the child it holds is alive; in
    every other state it raises or returns the object.  When it returns the
    object, the output was cleared without an exception and the launch ran
    from the state the clearing left: the timer is the clock of that state,
    and the object holds a command and the child the launch was given. *)
Theorem start_returns_nothing_only_when_busy (self : Somd) (st : state) :
  let busy := _is_queued self = true
              ∨ ∃ pid, _process (vars st) = Some pid
                       ∧ pid ∈ running (world st) in
  ((start self st).1 = Ok None ↔ busy)
  ∧ (∀ r st', start self st = (Ok (Some r), st') →
       ¬ busy
       ∧ ∃ st1, _clear_output self st = (Ok tt, st1)
                ∧ launch self st1 = (Ok (Some tt), st')
                ∧ _timer (vars st') = Some (clock (world st1))
                ∧ is_Some (_process (vars st'))
                ∧ is_Some (_command (vars st'))).
Proof.
  cbv zeta.
  assert (_is_queued self = true
          ∨ (∃ pid, _process (vars st) = Some pid ∧ pid ∈ running (world st))
          → start self st = (Ok None, st)) as Hbusy.
  { intros Hbusy. unfold start, isQueued, isRunning. mred.
    destruct (_is_queued self); [reflexivity|].
    destruct Hbusy as [?|(pid & -> & Hrun)]; [discriminate|].
    by rewrite bool_decide_eq_true_2. }
  assert (∀ r st', start self st = (Ok r, st') →
            r = None
            ∧ (_is_queued self = true
               ∨ ∃ pid, _process (vars st) = Some pid
                        ∧ pid ∈ running (world st))
            ∨ ∃ st1, _clear_output self st = (Ok tt, st1)
                     ∧ launch self st1 = (Ok r, st')) as Hstart.
  { intros r st' Hrun. unfold start at 1, isQueued in Hrun.
    inv_bind Hrun as queued st0 Equeued. injection Equeued as <- <-.
    destruct (_is_queued self) eqn:Hq.
    { injection Hrun as <- <-. left. split; [done|by left]. }
    inv_bind Hrun as v st1 Ev. injection Ev as <- <-.
    inv_bind Hrun as alive st2 Ealive.
    assert (st2 = st
            ∧ (alive = true →
               ∃ pid, _process (vars st) = Some pid
                      ∧ pid ∈ running (world st))) as [-> Halive].
    { destruct (_process (vars st)) as [pid|].
      - unfold isRunning in Ealive. mred_in Ealive.
        injection Ealive as <- <-. split; [done|].
        intros Hrunning%bool_decide_eq_true. by exists pid.
      - by injection Ealive as <- <-. }
    destruct alive.
    { injection Hrun as <- <-. left. split; [done|]. right. by apply Halive. }
    inv_bind Hrun as u st3 Eclear. destruct u. right. by exists st3. }
  split; [split|].
  - intros Hnone. destruct (start self st) as [[r|e] st'] eqn:Hrun; [|done].
    cbn in Hnone. injection Hnone as ->.
    destruct (Hstart _ _ eq_refl) as [[_ Hwhy]|(st1 & _ & Hlaunch)]; [done|].
    by apply launch_Ok in Hlaunch as [[=] _].
  - intros Hwhy. by rewrite (Hbusy Hwhy).
  - intros r st' Hrun.
    destruct (Hstart _ _ Hrun) as [[[=] _]|(st1 & Hclear & Hlaunch)].
    split.
    { intros Hwhy. rewrite (Hbusy Hwhy) in Hrun. discriminate. }
    exists st1. split; [exact Hclear|]. destruct r.
    split; [exact Hlaunch|].
    apply launch_Ok in Hlaunch as (_ & -> & _). by cbn.
Qed.

(** ** Time records *)

(** X9.  The time series.  With a time step and a trajectory of at least
    one frame, [getTime] returns one record per frame, the [k]-th being
    [k] times a hundred time steps, in nanoseconds; asked for the latest
    record only, it returns the last of these, the time of the last
    frame.  Both leave the state the reading of the trajectory left. *)
Theorem time_series_follows_frames (self : Somd) (block : Block)
    (st st1 : state) (ts : Time) (frames : list SireSystem) :
  getTimeStep (_protocol self) = Ok ts →
  getTrajectory self block st = (Ok (Some frames), st1) →
  frames ≠ [] →
  ∃ times,
    getTime self true block st = (Ok (Some (Series times)), st1)
    ∧ length times = length frames
    ∧ (∀ k, (k < length frames)%nat →
            times !! k = Some (frame_time ts (S k)))
    ∧ getTime self false block st
      = (Ok (Some (Latest (frame_time ts (length frames)))), st1).
Proof.
  intros Hts Htraj Hne.
  assert (is_Minimisation (_protocol self) = false) as Hmin
    by (by destruct (_protocol self)).
  assert (length frames ≠ 0%nat) as Hlen by (by destruct frames).
  exists (map (frame_time ts) (seq 1 (length frames))).
  assert (∀ series, getTime self series block st
          = (if series
             then Ok (Some (Series (map (frame_time ts) (seq 1 (length frames)))))
             else match last (map (frame_time ts) (seq 1 (length frames))) with
                  | Some t => Ok (Some (Latest t))
                  | None => Raise IndexError
                  end, st1)) as Hget.
  { intros series. unfold getTime. rewrite Hmin.
    unfold mbind, M_bind. rewrite Htraj. unfold mret, M_ret.
    rewrite decide_False by done. unfold try_except, lift. rewrite Hts.
    destruct series; [done|]. by destruct (last _). }
  split; [exact (Hget true)|].
  split; [by rewrite length_map, length_seq|].
  split.
  - intros k Hk. rewrite list_lookup_fmap, lookup_seq_lt by done. done.
  - rewrite (Hget false).
    destruct (length frames) as [|n] eqn:En; [done|].
    rewrite seq_S, map_app. cbn [map]. by rewrite last_snoc.
Qed.

(** X10.  No time record.  [getTime] returns nothing for a minimisation
    (without looking at the trajectory), for a trajectory without a frame,
    and for a protocol without a time step, the custom one.  When the
    trajectory cannot be read it does not return nothing, as [getSystem]
    does: it raises AttributeError. *)
Theorem time_without_records (self : Somd) (series : bool) (block : Block)
    (st : state) :
  (is_Minimisation (_protocol self) = true →
   getTime self series block st = (Ok None, st))
  ∧ (is_Minimisation (_protocol self) = false →
     ∀ st1 traj, getTrajectory self block st = (Ok traj, st1) →
       match traj with
       | None =>
           getTime self series block st = (Raise AttributeError, st1)
           ∧ (getSystem self block st).1 = Ok None
       | Some [] => getTime self series block st = (Ok None, st1)
       | Some (_ :: _) =>
           (∀ lines, _protocol self = Custom lines →
                     getTime self series block st = (Ok None, st1))
       end).
Proof.
  split.
  - intros Hmin. unfold getTime. by rewrite Hmin.
  - intros Hmin st1 traj Htraj. unfold getTime, getSystem. rewrite Hmin.
    unfold mbind, M_bind. rewrite Htraj.
    destruct traj as [[|frame frames]|]; [done| |done].
    intros lines Hp. cbn. rewrite Hp. done.
Qed.

(** ** Gradient records *)

(** A read of the gradient file: the records of the unread lines are added
    to those held; the offset moves to the end of the file unless a line
    raises. *)
Lemma getGradient_outcome (self : Somd) (series : bool) (block : Block)
    (st : state) (r : result unit) (gs : list Q) :
  file_exists st (_gradient_file self) →
  (∀ s, for_each (pygtail.unread (world st) (_gradient_file self))
          read_gradient_line s
        = (r, mkState (set_gradients (_gradients (vars s) ++ gs) (vars s))
                      (world s))) →
  let v' := set_gradients (_gradients (vars st) ++ gs) (vars st) in
  let q := resolve (world st) (_gradient_file self) in
  getGradient self series block st
  = match r with
    | Ok _ =>
        (gradient_reading series (_gradients (vars st) ++ gs),
         mkState v'
           (set_offsets
              (<[q := String.length (default "" (files (world st) !! q))]>
                 (offsets (world st))) (world st)))
    | Raise e => (Raise e, mkState v' (world st))
    end.
Proof.
  intros Hfile Hlines. cbv zeta. unfold getGradient, os.isfile.
  unfold file_exists in Hfile. mred.
  rewrite bool_decide_eq_true_2 by done. cbn [negb].
  rewrite Hlines. destruct r as [[]|e]; [|done].
  unfold pygtail.commit. mred. unfold gradient_reading.
  destruct (decide _); [done|]. destruct series; [done|].
  by destruct (last _).
Qed.

(** X11.  The latest gradient is the last of the series.  From one state,
    [getGradient] asked for the series and asked for the latest record
    read the same lines and leave the same state; when the first returns
    the series of records the object holds, the second returns its last
    record; when the first returns nothing or raises, so does the
    second. *)
Theorem latest_gradient_is_last (self : Somd) (block : Block) (st : state) :
  let series := getGradient self true block st in
  let latest := getGradient self false block st in
  latest.2 = series.2
  ∧ match series.1 with
    | Ok (Some (Series l)) =>
        l = _gradients (vars series.2)
        ∧ ∃ g, last l = Some g ∧ latest.1 = Ok (Some (Latest g))
    | Ok (Some (Latest _)) => False
    | Ok None => latest.1 = Ok None
    | Raise e => latest.1 = Raise e
    end.
Proof.
  cbv zeta.
  destruct (decide (resolve (world st) (_gradient_file self)
                    ∈ dom (files (world st)))) as [Hfile|Hfile].
  - destruct (read_lines_outcome
                (pygtail.unread (world st) (_gradient_file self)))
      as (r & gs & Hlines).
    rewrite !(getGradient_outcome _ _ _ _ r gs Hfile Hlines).
    destruct r as [[]|e]; [|done]. cbn [fst snd]. split; [done|].
    unfold gradient_reading. cbn [vars _gradients set_gradients].
    destruct (decide _) as [|Hlen]; [done|]. split; [done|].
    destruct (last _) as [g|] eqn:Hlast; [by exists g|].
    apply last_None in Hlast. by rewrite Hlast in Hlen.
  - unfold getGradient, os.isfile. mred.
    by rewrite bool_decide_eq_false_2.
Qed.

Lemma readlines_nonempty (c : ascii) (s : string) : readlines (String c s) ≠ [].
Proof. cbn. destruct (decide _); [done|]. by destruct (readlines s). Qed.

Lemma readlines_app (t1 t2 : string) :
  whole_lines t1 → readlines (t1 +:+ t2) = readlines t1 ++ readlines t2.
Proof.
  intros [->|[t ->]]; [done|].
  induction t as [|c t IH].
  - done.
  - change (readlines (String c ((t +:+ newline) +:+ t2))
            = readlines (String c (t +:+ newline)) ++ readlines t2).
    cbn [readlines]. rewrite IH.
    destruct (decide (c = "010"%char)); [done|].
    destruct (readlines (t +:+ newline)) as [|l ls] eqn:E; [|done].
    exfalso. destruct t; by eapply readlines_nonempty.
Qed.

Lemma string_drop_app (t1 t2 : string) :
  string_drop (String.length t1) (t1 +:+ t2) = t2.
Proof. induction t1 as [|c t1 IH]; [by destruct t2|]. exact IH. Qed.

Lemma string_length_app (t1 t2 : string) :
  String.length (t1 +:+ t2) = (String.length t1 + String.length t2)%nat.
Proof.
  induction t1 as [|c t1 IH]; [done|].
  change (S (String.length (t1 +:+ t2))
          = S (String.length t1 + String.length t2)). by rewrite IH.
Qed.

Lemma for_each_app {A} (l1 l2 : list A) (body : A → M unit) (st : state) :
  for_each (l1 ++ l2) body st
  = match for_each l1 body st with
    | (Ok _, st1) => for_each l2 body st1
    | (Raise e, st1) => (Raise e, st1)
    end.
Proof.
  revert st. induction l1 as [|x l1 IH]; intros st; [done|].
  cbn [for_each app]. unfold mbind, M_bind.
  destruct (body x st) as [[[]|e] st1]; [apply IH|done].
Qed.

(** X12.  Reading in instalments.  Let the gradient file hold whole lines
    that have not been read, and let a first read return.  When the
    engine then appends to the file, the next read returns what a single
    read of the longer file would have returned from the start, with the
    same records; and when it returns, it leaves the same state. *)
Theorem gradient_reads_add_up (self : Somd) (block : Block) (st : state)
    (t1 t2 : string) :
  let file := _gradient_file self in
  let q := resolve (world st) file in
  files (world st) !! q = Some t1 →
  offsets (world st) !! q = None →
  whole_lines t1 →
  let first := getGradient self true block st in
  returns first.1 = true →
  let second := getGradient self true block
                  (with_log file (t1 +:+ t2) first.2) in
  let batch := getGradient self true block (with_log file (t1 +:+ t2) st) in
  second.1 = batch.1
  ∧ _gradients (vars second.2) = _gradients (vars batch.2)
  ∧ (returns batch.1 = true → second.2 = batch.2).
Proof.
  intros file q Hfile Hoff Hwhole. cbv zeta. subst file.
  assert (file_exists st (_gradient_file self)) as Hex.
  { unfold file_exists. apply elem_of_dom. by exists t1. }
  destruct (read_lines_outcome (readlines t1)) as (r1 & gs1 & H1).
  destruct (read_lines_outcome (readlines t2)) as (r2 & gs2 & H2).
  assert (pygtail.unread (world st) (_gradient_file self) = readlines t1) as U1.
  { unfold pygtail.unread. fold q. by rewrite Hfile, Hoff. }
  rewrite (getGradient_outcome self true block st r1 gs1 Hex)
    by (intros s; rewrite U1; apply H1).
  destruct r1 as [[]|e]; [|done]. intros _. cbn [fst snd].
  set (st1 := mkState _ _).
  (* the second read *)
  assert (file_exists (with_log (_gradient_file self) (t1 +:+ t2) st1) (_gradient_file self)) as Hex2.
  { unfold file_exists, with_log. cbn. rewrite dom_insert.
    apply elem_of_union_l, elem_of_singleton. done. }
  assert (pygtail.unread (world (with_log (_gradient_file self) (t1 +:+ t2) st1)) (_gradient_file self)
          = readlines t2) as U2.
  { unfold pygtail.unread, with_log, st1. cbn -[Nat.ltb].
    change (resolve (world st) (_gradient_file self)) with q.
    rewrite !lookup_insert_eq, Hfile. cbn -[Nat.ltb].
    rewrite string_length_app.
    replace (_ <? _)%nat with false by (symmetry; apply Nat.ltb_ge; lia).
    by rewrite string_drop_app. }
  rewrite (getGradient_outcome self true block _ r2 gs2 Hex2)
    by (intros s; rewrite U2; apply H2).
  (* the single read *)
  assert (file_exists (with_log (_gradient_file self) (t1 +:+ t2) st) (_gradient_file self)) as Hex3.
  { unfold file_exists, with_log. cbn. rewrite dom_insert.
    apply elem_of_union_l, elem_of_singleton. done. }
  assert (pygtail.unread (world (with_log (_gradient_file self) (t1 +:+ t2) st)) (_gradient_file self)
          = readlines t1 ++ readlines t2) as U3.
  { unfold pygtail.unread, with_log. cbn -[Nat.ltb].
    rewrite !resolve_set_files.
    change (resolve (world st) (_gradient_file self)) with q.
    rewrite lookup_insert_eq, Hoff. cbn. by apply readlines_app. }
  rewrite (getGradient_outcome self true block _ r2 (gs1 ++ gs2) Hex3); cycle 1.
  { intros s. rewrite U3, for_each_app, H1, H2. cbn.
    by rewrite <- app_assoc. }
  unfold with_log, st1. cbn.
  change (resolve (world st) (_gradient_file self)) with q.
  rewrite <- !app_assoc.
  destruct r2 as [[]|e]; cbn; [|done].
  split; [done|]. split; [done|]. intros _.
  by rewrite !lookup_insert_eq, insert_insert_eq.
Qed.

(** ** The generated configuration *)

(** A line ["random seed = k"] of a configuration names the seed. *)
Ltac seed_line Hin :=
  repeat (apply elem_of_cons in Hin as [Hin|Hin];
          [ cbv [String.append] in Hin;
            first [ discriminate Hin
                  | injection Hin as Hin; exact (inj pretty _ _ Hin) ] | ]);
  by apply elem_of_nil in Hin.

(** X13.  Cut-off and dielectric.  Every generated configuration has a
    cut-off distance of 10 angstrom, and one cut-off type: periodic when
    the system has a box and water, non-periodic otherwise.  But for a
    minimisation, which has none, it has one reaction-field dielectric:
    78.3 with water and 82.0 without. *)
Theorem cutoff_and_dielectric_policy (self : Somd) (st st' : state)
    (sys : SireSystem) :
  store (world st) !! _system self = Some sys →
  _generate_config self st = (Ok tt, st') →
  let has_box := bool_decide ("space" ∈ propertyKeys sys) in
  let cfg := _config (vars st') in
  "cutoff distance = 10 angstrom" ∈ cfg
  ∧ (if has_box && _has_water self
     then ("cutoff type = cutoffperiodic" ∈ cfg)
          ∧ ("cutoff type = cutoffnonperiodic" ∉ cfg)
     else ("cutoff type = cutoffnonperiodic" ∈ cfg)
          ∧ ("cutoff type = cutoffperiodic" ∉ cfg))
  ∧ (if is_Minimisation (_protocol self)
     then ("reaction field dielectric = 78.3" ∉ cfg)
          ∧ ("reaction field dielectric = 82.0" ∉ cfg)
     else if _has_water self
     then ("reaction field dielectric = 78.3" ∈ cfg)
          ∧ ("reaction field dielectric = 82.0" ∉ cfg)
     else ("reaction field dielectric = 82.0" ∈ cfg)
          ∧ ("reaction field dielectric = 78.3" ∉ cfg)).
Proof.
  intros Hsys. unfold _generate_config. mred. rewrite Hsys.
  destruct (_protocol self) as [steps|rt ts t0 t1 restrained|rt ts t e
                                |lam vals rt ts t e|lines];
    cbn [is_Minimisation].
  - destruct (_has_water self), (bool_decide _); mred;
      intros [= <-]; cbn;
      (split; [is_in | split; split; first [is_in | not_in]]).
  - destruct (isConstantTemp t0 t1); [|discriminate]. cbn [negb].
    destruct restrained; [discriminate|].
    destruct (ncycles_of _ _) as [n|]; [|discriminate].
    destruct (_has_water self), (bool_decide _), (_is_seeded self); mred;
      intros [= <-]; cbn;
      (split; [is_in | split; split; first [is_in | not_in]]).
  - destruct (ncycles_of _ _) as [n|]; [|discriminate].
    destruct e, (_has_water self), (bool_decide _), (_is_seeded self); mred;
      intros [= <-]; cbn;
      (split; [is_in | split; split; first [is_in | not_in]]).
  - destruct (ncycles_of _ _) as [n|]; [|discriminate].
    destruct e, (_has_water self), (bool_decide _), (_is_seeded self); mred;
      intros [= <-]; cbn;
      (split; [is_in | split; split; first [is_in | not_in]]).
  - discriminate.
Qed.

(** X14.  The random seed.  A generated configuration names a random seed
    exactly when the process was given one and the protocol is not a
    minimisation, and the seed it names is the seed of the process. *)
Theorem seed_line_policy (self : Somd) (st st' : state) (k : Z) :
  _generate_config self st = (Ok tt, st') →
  ("random seed = " +:+ pretty k) ∈ _config (vars st')
  ↔ is_Minimisation (_protocol self) = false
    ∧ _is_seeded self = true ∧ k = _seed self.
Proof.
  unfold _generate_config. mred.
  destruct (store (world st) !! _system self) as [sys|]; [|discriminate].
  destruct (_protocol self) as [steps|rt ts t0 t1 restrained|rt ts t e
                                |lam vals rt ts t e|lines];
    cbn [is_Minimisation].
  - destruct (_has_water self), (bool_decide _); mred;
      intros [= <-]; cbn;
      (split; [intros Hin; exfalso; revert Hin; not_in|by intros [? _]]).
  - destruct (isConstantTemp t0 t1); [|discriminate]. cbn [negb].
    destruct restrained; [discriminate|].
    destruct (ncycles_of _ _) as [n|]; [|discriminate].
    destruct (_is_seeded self).
    + destruct (_has_water self), (bool_decide _); mred;
        intros [= <-]; cbn;
        (split; [intros Hin; split; [done|split; [done|seed_line Hin]]
                |intros (_ & _ & ->); is_in]).
    + destruct (_has_water self), (bool_decide _); mred;
        intros [= <-]; cbn;
        (split; [intros Hin; exfalso; revert Hin; not_in
                |by intros (_ & ? & _)]).
  - destruct (ncycles_of _ _) as [n|]; [|discriminate].
    destruct (_is_seeded self).
    + destruct e, (_has_water self), (bool_decide _); mred;
        intros [= <-]; cbn;
        (split; [intros Hin; split; [done|split; [done|seed_line Hin]]
                |intros (_ & _ & ->); is_in]).
    + destruct e, (_has_water self), (bool_decide _); mred;
        intros [= <-]; cbn;
        (split; [intros Hin; exfalso; revert Hin; not_in
                |by intros (_ & ? & _)]).
  - destruct (ncycles_of _ _) as [n|]; [|discriminate].
    destruct (_is_seeded self).
    + destruct e, (_has_water self), (bool_decide _); mred;
        intros [= <-]; cbn;
        (split; [intros Hin; split; [done|split; [done|seed_line Hin]]
                |intros (_ & _ & ->); is_in]).
    + destruct e, (_has_water self), (bool_decide _); mred;
        intros [= <-]; cbn;
        (split; [intros Hin; exfalso; revert Hin; not_in
                |by intros (_ & ? & _)]).
  - discriminate.
Qed.

(** X15.  Equilibration.  For an equilibration protocol on an existing
    system, [_generate_config] raises IncompatibleError when the start and
    end temperatures differ or the backbone is restrained, and the
    configuration of the object is then empty.  Otherwise, with a time
    step that is not zero, it returns, and the configuration runs at the
    start temperature at constant volume: the barostat is disabled whatever
    the system holds. *)
Theorem equilibration_support (self : Somd) (st : state)
    (rt ts : Time) (t0 t1 : Temperature) (restrained : bool)
    (sys : SireSystem) :
  _protocol self = Equilibration rt ts t0 t1 restrained →
  store (world st) !! _system self = Some sys →
  let out := _generate_config self st in
  let cfg := _config (vars out.2) in
  if isConstantTemp t0 t1 && negb restrained
  then Qeq_bool (femtoseconds ts) 0 = false →
       out.1 = Ok tt
       ∧ ("barostat = False" ∈ cfg)
       ∧ ("barostat = True" ∉ cfg)
       ∧ ("pressure = 1 atm" ∉ cfg)
       ∧ (("temperature = " +:+ fmt_2f (kelvin t0) +:+ " kelvin") ∈ cfg)
  else out = (Raise IncompatibleError,
              mkState (set_config [] (vars st)) (world st)).
Proof.
  intros Hp Hsys. cbv zeta. unfold _generate_config. mred.
  rewrite Hsys, Hp.
  destruct (isConstantTemp t0 t1); [|done]. cbn [negb andb].
  destruct restrained; [done|]. cbn [negb].
  intros Hts. unfold ncycles_of, time_div.
  rewrite float_femtoseconds_zero, Hts.
  destruct (_has_water self), (bool_decide _), (_is_seeded self); mred; cbn;
    (split; [done|split; [is_in|split; [not_in|split; [not_in|is_in]]]]).
Qed.

(** X16.  Generation is self-contained.  [_generate_config] changes
    nothing but the configuration lines of the object: the files, the
    systems and the other attributes are what they were, also when it
    raises.  And what it leaves does not depend on the lines the object
    held before. *)
Theorem generation_is_self_contained (self : Somd) (st : state) :
  config_only st (_generate_config self st).2
  ∧ ∀ lines, _generate_config self
               (mkState (set_config lines (vars st)) (world st))
             = _generate_config self st.
Proof.
  split.
  - by destruct (generate_config_frame self st).
  - intros lines. unfold _generate_config.
    unfold mbind at 1 3. unfold M_bind, modify_vars. reflexivity.
Qed.

(** ** The footprint of the cleanup *)

Lemma erases_refl (paths : list string) (st : state) : erases paths st st.
Proof. repeat split; try done. by destruct (world st). Qed.

Lemma erases_trans (paths : list string) (st1 st2 st3 : state) :
  erases paths st1 st2 → erases paths st2 st3 → erases paths st1 st3.
Proof.
  intros (Hv1 & Hw1 & Hs1 & Hf1) (Hv2 & Hw2 & Hs2 & Hf2).
  split; [congruence|]. split; [by rewrite Hw2, Hw1|].
  split; [by etrans|]. intros p Hp. by rewrite Hf2, Hf1.
Qed.

Lemma remove_if_present_erases (paths : list string) (f : string) (st : state) :
  resolve (world st) f ∈ paths →
  erases paths st (remove_if_present f st).2.
Proof.
  intros Hin. unfold remove_if_present, os.isfile, os.remove. mred.
  case_bool_decide; [|apply erases_refl]. mred.
  case_bool_decide; [apply erases_refl|]. mred.
  rewrite bool_decide_eq_true_2 by done. cbn.
  split; [done|]. split; [done|]. split; [apply delete_subseteq|].
  intros p Hp. apply lookup_delete_ne. by intros <-.
Qed.

(** A step of the cleanup within the footprint. *)
Lemma erase_step (paths : list string) (f : string) (k : M unit)
    (st0 st : state) :
  erases paths st0 st →
  resolve (world st0) f ∈ paths →
  (∀ st1, erases paths st0 st1 → erases paths st0 (k st1).2) →
  erases paths st0 ((remove_if_present f;; k) st).2.
Proof.
  intros Hst Hin Hk. unfold mbind, M_bind.
  assert (erases paths st0 (remove_if_present f st).2) as Hstep.
  { eapply erases_trans; [exact Hst|]. apply remove_if_present_erases.
    destruct Hst as (_ & -> & _). exact Hin. }
  destruct (remove_if_present f st) as [[[]|e] st1]; [by apply Hk|done].
Qed.

(** X17.  The footprint of the cleanup.  After the part inherited from the
    base class, [_clear_output] only deletes, and only among the restart
    file, the system file and the trajectory file, with the gradient and
    energy files for a free-energy protocol: every other file is what it
    was, no file is created or rewritten, and the attributes of the
    object, the current directory and the rest of the world are
    untouched, also when a removal raises. *)
Theorem clear_output_footprint (self : Somd) (st : state) :
  let st0 := (base_clear_output self st).2 in
  let out := _clear_output self st in
  erases (resolve (world st0) <$> cleared_files self) st0 out.2.
Proof.
  cbv zeta. unfold _clear_output. unfold mbind at 1. unfold M_bind.
  destruct (base_clear_output self st) as [[[]|e] st0]; [|apply erases_refl].
  cbn [snd]. unfold cleared_files, restart_and_trajectory_files,
    gradient_and_energy_files.
  set (paths := resolve (world st0) <$> _).
  assert (∀ f, f ∈ cleared_files self → resolve (world st0) f ∈ paths) as Hin.
  { intros f Hf. by apply list_elem_of_fmap_2. }
  unfold cleared_files, restart_and_trajectory_files,
    gradient_and_energy_files in Hin.
  apply erase_step; [apply erases_refl|apply Hin; cbn; is_in|].
  intros st1 H1.
  apply erase_step; [done|apply Hin; cbn; is_in|].
  intros st2 H2.
  destruct (is_FreeEnergy (_protocol self)).
  - apply erase_step; [done|apply Hin; cbn; is_in|].
    intros st3 H3.
    apply erase_step; [done|apply Hin; cbn; is_in|].
    intros st4 H4.
    eapply erases_trans; [exact H4|]. apply remove_if_present_erases.
    destruct H4 as (_ & -> & _). apply Hin. cbn. is_in.
  - assert (∀ s, erases paths st0 s →
                 erases paths st0
                   ((remove_if_present (_work_dir self +:+ "/traj000000001.dcd");;
                     mret tt) s).2) as Hlast.
    { intros s Hs. apply erase_step; [done|apply Hin; cbn; is_in|].
      by intros. }
    exact (Hlast st2 H2).
Qed.

End Lifecycle.

(** * Requirements *)

Lemma outcome_bind_inv {A B} (m : outcome A) (f : A → outcome B) (b : B) :
  m ≫= f = Returned b → ∃ a, m = Returned a ∧ f a = Returned b.
Proof. destruct m as [a|e]; [|done]. intros Hf. by exists a. Qed.

(** The list of allowed values of an integer requirement is the list that
    was given, and holds integers only. *)
Lemma mapM_Integer_validate (l l' : list pyval) :
  mapM Gateway.Integer_validate l = Returned l' →
  l' = l ∧ Forall (λ v, ∃ z, v = PyInt z) l.
Proof.
  revert l'. induction l as [|v l IH]; intros l'.
  - by intros [= <-].
  - cbn. intros (v' & Hv & (l0 & Hl & [= <-])%outcome_bind_inv)%outcome_bind_inv.
    destruct v; try done. injection Hv as <-.
    destruct (IH _ Hl) as [-> Hall]. split; [done|].
    constructor; [by eexists|done].
Qed.

Lemma inject_Z_le (m z : Z) : Qle_bool (inject_Z m) (inject_Z z) = true ↔ (m ≤ z)%Z.
Proof. by rewrite Qle_bool_iff, <- Zle_Qle. Qed.

Lemma inject_Z_eq (m z : Z) : Qeq_bool (inject_Z m) (inject_Z z) = true ↔ m = z.
Proof.
  rewrite Qeq_bool_iff. split; [apply inject_Z_injective|by intros ->].
Qed.

Lemma integer_listed (z : Z) (l : list pyval) :
  Forall (λ v, ∃ z, v = PyInt z) l →
  existsb (Gateway.py_eq (PyInt z)) l = true → PyInt z ∈ l.
Proof.
  intros Hall (x & Hx & Heq)%existsb_exists. apply list_elem_of_In in Hx.
  rewrite Forall_forall in Hall. destruct (Hall x Hx) as [z' ->].
  cbn in Heq. apply inject_Z_eq in Heq as ->. done.
Qed.

(** What the constructor of an integer requirement returns. *)
Lemma Integer_init_inv (help default minimum maximum allowed : pyval)
    (r : Gateway.Requirement) :
  Gateway.Integer__init__ help default minimum maximum allowed = Returned r →
  ∃ h l,
    help = PyStr h
    ∧ (minimum = PyNone ∨ ∃ m, minimum = PyInt m)
    ∧ (maximum = PyNone ∨ ∃ m, maximum = PyInt m)
    ∧ (default = PyNone ∨ ∃ d, default = PyInt d)
    ∧ (allowed = PyNone ∧ l = PyNone
       ∨ ∃ vs, Gateway.iterate allowed = Returned vs ∧ l = PyList vs
               ∧ Forall (λ v, ∃ z, v = PyInt z) vs)
    ∧ r = Gateway.mkRequirement Gateway.Integer h PyNone default PyNone
            minimum maximum l (negb (Gateway.is_None default)).
Proof.
  unfold Gateway.Integer__init__, Gateway.Requirement__init__.
  destruct help as [| | | |h|]; try done. cbn.
  unfold Gateway.validated, Gateway.validated_list, Gateway.with_default.
  intros Hinit.
  apply outcome_bind_inv in Hinit as (r1 & H1 & Hinit).
  apply outcome_bind_inv in Hinit as (r2 & H2 & Hinit).
  apply outcome_bind_inv in Hinit as (r3 & H3 & Hinit).
  exists h.
  destruct minimum as [| |m| | |]; try done; injection H1 as <-;
  destruct maximum as [| |m'| | |]; try done; injection H2 as <-;
  destruct default as [| |d| | |]; try done; injection Hinit as <-;
  (destruct (Gateway.is_None allowed) eqn:Hnone;
   [ destruct allowed; try done; injection H3 as <-;
     exists PyNone; repeat split; eauto
   | apply outcome_bind_inv in H3 as (vs & Hvs & H3);
     apply outcome_bind_inv in H3 as (vs' & Hmap & [= <-]);
     apply mapM_Integer_validate in Hmap as [-> Hall];
     exists (PyList vs); repeat split; eauto 10 ]).
Qed.

(** X18.  An integer requirement.  The object the constructor returns
    keeps the arguments it was given as its bounds and its allowed values.
    [setValue] then accepts integers only (a boolean or a float raises),
    and stores nothing but a value that is not below the minimum, not
    above the maximum, and among the allowed values, when these are set;
    the rest of the object is what it was. *)
Theorem integer_requirement_keeps_bounds
    (help default minimum maximum allowed : pyval) (r : Gateway.Requirement) :
  Gateway.Integer__init__ help default minimum maximum allowed = Returned r →
  Gateway.getMin r = minimum
  ∧ Gateway.getMax r = maximum
  ∧ (∀ l, allowed = PyList l → Gateway.getAllowedValues r = allowed)
  ∧ ∀ w v r', Gateway.setValue r w v = Returned r' →
      ∃ z, v = PyInt z
           ∧ r' = Gateway.set_value (PyInt z) r
           ∧ (∀ m, minimum = PyInt m → (m ≤ z)%Z)
           ∧ (∀ m, maximum = PyInt m → (z ≤ m)%Z)
           ∧ (∀ l, Gateway.getAllowedValues r = PyList l → PyInt z ∈ l).
Proof.
  intros (h & l & -> & Hmin & Hmax & Hdef & Hallowed & ->)%Integer_init_inv.
  split; [done|]. split; [done|]. split.
  { intros vs ->. destruct Hallowed as [[? _]|(vs' & [= <-] & -> & _)]; done. }
  intros w v r'. unfold Gateway.setValue, Gateway._validate. cbn.
  intros (v' & Hv & Hset)%outcome_bind_inv.
  destruct v as [| |z| | |]; try done. injection Hv as <-. exists z.
  apply outcome_bind_inv in Hset as (below & Hbelow & Hset).
  destruct below; [by destruct Hmin as [->|[m ->]]|].
  apply outcome_bind_inv in Hset as (above & Habove & Hset).
  destruct above; [by destruct Hmax as [->|[m ->]]|].
  apply outcome_bind_inv in Hset as (listed & Hlisted & Hset).
  destruct listed; [|done]. injection Hset as <-.
  split; [done|]. split; [done|]. split; [|split].
  - intros m ->. cbn in Hbelow. injection Hbelow as Hle.
    apply negb_false_iff in Hle. by apply inject_Z_le.
  - intros m ->. cbn in Habove. injection Habove as Hle.
    apply negb_false_iff in Hle. by apply inject_Z_le.
  - intros vs ->. destruct Hallowed as [[_ [=]]|(vs' & _ & [= <-] & Hall)].
    cbn in Hlisted. injection Hlisted as Hin. by apply integer_listed.
Qed.

(** What [Float._validate] returns. *)
Lemma Float_validate_inv (v v' : pyval) :
  Gateway.Float_validate v = Returned v' →
  v' = as_float v
  ∧ (∃ q, v' = PyFloat q)
  ∧ ((∃ z, v = PyInt z ∧ in_float_range z) ∨ (∃ q, v = PyFloat q)).
Proof.
  unfold Gateway.Float_validate, Gateway.float, in_float_range.
  destruct v as [| |z|q| |]; try done.
  - destruct (binary64.overflows _) eqn:Hrange; [done|].
    intros [= <-]. eauto 10.
  - intros [= <-]. eauto 10.
Qed.

Lemma validated_Float_inv (set : pyval → Gateway.Requirement →
                                 Gateway.Requirement)
    (x : pyval) (self r : Gateway.Requirement) :
  Gateway.validated Gateway.Float_validate set x self = Returned r →
  none_or_number x
  ∧ r = (if Gateway.is_None x then self else set (as_float x) self).
Proof.
  unfold Gateway.validated, none_or_number.
  destruct (Gateway.is_None x) eqn:Hnone.
  - destruct x; try done. intros [= <-]. by split; [left|].
  - intros (v & Hv & [= <-])%outcome_bind_inv.
    apply Float_validate_inv in Hv as (-> & _ & Hnumber). by split; [right|].
Qed.

Lemma Float_init_inv (help default minimum maximum allowed : pyval)
    (r : Gateway.Requirement) :
  Gateway.Float__init__ help default minimum maximum allowed = Returned r →
  ∃ h l,
    help = PyStr h
    ∧ none_or_number minimum ∧ none_or_number maximum
    ∧ none_or_number default
    ∧ r = Gateway.mkRequirement Gateway.Float h PyNone (as_float default)
            PyNone (as_float minimum) (as_float maximum) l
            (negb (Gateway.is_None default)).
Proof.
  unfold Gateway.Float__init__, Gateway.Requirement__init__.
  destruct help as [| | | |h|]; try done. cbn.
  intros Hinit.
  apply outcome_bind_inv in Hinit as (r1 & H1 & Hinit).
  apply outcome_bind_inv in Hinit as (r2 & H2 & Hinit).
  apply outcome_bind_inv in Hinit as (r3 & H3 & Hinit).
  apply validated_Float_inv in H1 as [Hmin ->].
  apply validated_Float_inv in H2 as [Hmax ->].
  assert (none_or_number default
          ∧ r = if Gateway.is_None default then r3
                else Gateway.set_is_optional true
                       (Gateway.set_default (as_float default) r3))
    as [Hdef ->].
  { revert Hinit. unfold Gateway.with_default, none_or_number.
    destruct (Gateway.is_None default) eqn:Hnone.
    - destruct default; try done. intros [= <-]. by split; [left|].
    - intros (v & Hv & [= <-])%outcome_bind_inv.
      apply Float_validate_inv in Hv as (-> & _ & Hnumber).
      by split; [right|]. }
  exists h. unfold Gateway.validated_list in H3.
  assert (∃ l, r3 = Gateway.set_allowed l
                      (if Gateway.is_None maximum
                       then if Gateway.is_None minimum
                            then Gateway.mkRequirement Gateway.Float h PyNone
                                   PyNone PyNone PyNone PyNone PyNone false
                            else Gateway.set_min (as_float minimum)
                                   (Gateway.mkRequirement Gateway.Float h
                                      PyNone PyNone PyNone PyNone PyNone
                                      PyNone false)
                       else Gateway.set_max (as_float maximum)
                              (if Gateway.is_None minimum
                               then Gateway.mkRequirement Gateway.Float h
                                      PyNone PyNone PyNone PyNone PyNone
                                      PyNone false
                               else Gateway.set_min (as_float minimum)
                                      (Gateway.mkRequirement Gateway.Float h
                                         PyNone PyNone PyNone PyNone PyNone
                                         PyNone false))))
    as [l ->].
  { destruct (Gateway.is_None allowed).
    - injection H3 as <-. exists PyNone.
      by destruct (Gateway.is_None maximum), (Gateway.is_None minimum).
    - apply outcome_bind_inv in H3 as (vs & Hvs & H3).
      apply outcome_bind_inv in H3 as (vs' & Hmap & [= <-]).
      by exists (PyList vs'). }
  exists l. split; [done|]. split; [done|]. split; [done|]. split; [done|].
  destruct Hmin as [->|[(m & -> & _)|[m ->]]],
           Hmax as [->|[(m' & -> & _)|[m' ->]]],
           Hdef as [->|[(d & -> & _)|[d ->]]]; reflexivity.
Qed.

(** X19.  A float requirement.  [float] turns an integer into the float
    nearest to it: the integer itself up to [2 ^ 53] in magnitude, a
    neighbour beyond ([2 ^ 53 + 1] becomes [2 ^ 53]), and OverflowError for
    an integer that is rounded beyond the largest float.  The constructor
    stores a bound or a default given as an integer as this float, and
    [setValue] does the same with an integer value: what is stored is always
    a float, the given one or the float nearest to the given integer, and it
    is not below the stored minimum and not above the stored maximum, when
    these are set.  An integer beyond the floats raises OverflowError. *)
Theorem float_requirement_converts_integers
    (help default minimum maximum allowed : pyval) (r : Gateway.Requirement) :
  Gateway.Float__init__ help default minimum maximum allowed = Returned r →
  Gateway.getMin r = as_float minimum
  ∧ Gateway.getMax r = as_float maximum
  ∧ Gateway.getDefault r = as_float default
  ∧ (∀ w v r', Gateway.setValue r w v = Returned r' →
      ∃ q, as_float v = PyFloat q
           ∧ r' = Gateway.set_value (PyFloat q) r
           ∧ (∀ m, Gateway.getMin r = PyFloat m → (m <= q)%Q)
           ∧ (∀ m, Gateway.getMax r = PyFloat m → (q <= m)%Q))
  ∧ (∀ w z, ¬ in_float_range z →
            Gateway.setValue r w (PyInt z) = Raised OverflowError)
  ∧ (∀ z, (Z.abs z ≤ 2 ^ 53)%Z → as_float (PyInt z) = PyFloat (inject_Z z))
  ∧ as_float (PyInt (2 ^ 53 + 1)) = PyFloat (inject_Z (2 ^ 53))
  ∧ Gateway.float (10 ^ 400) = Raised OverflowError.
Proof.
  intros (h & l & -> & Hmin & Hmax & Hdef & ->)%Float_init_inv.
  split; [done|]. split; [done|]. split; [done|].
  split; [|split; [|split; [|split]]].
  - intros w v r'. unfold Gateway.setValue, Gateway._validate. cbn.
    intros (v' & Hv & Hset)%outcome_bind_inv.
    apply Float_validate_inv in Hv as (-> & [q Hq] & _).
    exists q. split; [done|]. rewrite Hq in Hset.
    apply outcome_bind_inv in Hset as (below & Hbelow & Hset).
    destruct below.
    { by destruct Hmin as [->|[(m & -> & _)|[m ->]]]. }
    apply outcome_bind_inv in Hset as (above & Habove & Hset).
    destruct above.
    { by destruct Hmax as [->|[(m & -> & _)|[m ->]]]. }
    apply outcome_bind_inv in Hset as (listed & Hlisted & Hset).
    destruct listed; [|done]. injection Hset as <-.
    split; [done|]. split.
    + intros m Hm. rewrite Hm in Hbelow. cbn in Hbelow.
      injection Hbelow as Hle. apply negb_false_iff in Hle.
      by apply Qle_bool_iff.
    + intros m Hm. rewrite Hm in Habove. cbn in Habove.
      injection Habove as Hle. apply negb_false_iff in Hle.
      by apply Qle_bool_iff.
  - intros w z Hrange. unfold in_float_range in Hrange.
    unfold Gateway.setValue, Gateway._validate, Gateway.Float_validate,
      Gateway.float. cbn.
    by destruct (binary64.overflows _).
  - intros z Hz. unfold as_float. by rewrite round_small_integer.
  - by vm_compute.
  - by vm_compute.
Qed.

(** X20.  A default is not held to the bounds.  The constructor of an
    integer requirement accepts a default below the minimum: the
    requirement is built, is optional, and hands the default back; but
    the same value is refused by [setValue], with ValueError. *)
Theorem default_is_not_held_to_bounds (help : string) (d m : Z) :
  (d < m)%Z →
  ∃ r, Gateway.Integer__init__ (PyStr help) (PyInt d) (PyInt m) PyNone PyNone
       = Returned r
       ∧ Gateway.getDefault r = PyInt d
       ∧ Gateway.isOptional r = true
       ∧ Gateway.getValue r = PyNone
       ∧ ∀ w, Gateway.setValue r w (PyInt d) = Raised (Known ValueError).
Proof.
  intros Hlt. eexists. split; [reflexivity|]. cbn.
  repeat split. intros w. unfold Gateway.setValue. cbn.
  replace (Qle_bool (inject_Z m) (inject_Z d)) with false; [done|].
  symmetry. apply not_true_iff_false. rewrite inject_Z_le. lia.
Qed.

Lemma mapM_String_validate (l l' : list pyval) :
  mapM Gateway.String_validate l = Returned l' → l' = l.
Proof.
  revert l'. induction l as [|v l IH]; intros l'.
  - by intros [= <-].
  - cbn. intros (v' & Hv & (l0 & Hl & [= <-])%outcome_bind_inv)%outcome_bind_inv.
    destruct v; try done. injection Hv as <-. by rewrite (IH _ Hl).
Qed.

(** X21.  A string outside the allowed values.  A string requirement with
    a list of allowed values stores a string of the list; for a string
    that is not in the list [setValue] raises, but TypeError and not
    ValueError: the message of the ValueError formats the value with
    [%d], which takes numbers only.  No call of [setValue] on a string
    requirement raises ValueError. *)
Theorem string_outside_allowed_raises_TypeError
    (help default : pyval) (allowed : list pyval) (r : Gateway.Requirement)
    (w : World) :
  Gateway.String__init__ help default (PyList allowed) = Returned r →
  (∀ s, Gateway.setValue r w (PyStr s)
        = if existsb (Gateway.py_eq (PyStr s)) allowed
          then Returned (Gateway.set_value (PyStr s) r)
          else Raised (Known TypeError))
  ∧ (∀ s, PyStr s ∈ allowed → Gateway.setValue r w (PyStr s)
                              = Returned (Gateway.set_value (PyStr s) r))
  ∧ ∀ v, Gateway.setValue r w v ≠ Raised (Known ValueError).
Proof.
  unfold Gateway.String__init__, Gateway.Requirement__init__.
  destruct help as [| | | |h|]; try done. cbn.
  unfold Gateway.validated_list, Gateway.with_default. cbn.
  intros (r1 & (vs & ->%mapM_String_validate & [= <-])%outcome_bind_inv
          & Hdefault)%outcome_bind_inv.
  assert (Gateway.class_of r = Gateway.String
          ∧ Gateway._min r = PyNone ∧ Gateway._max r = PyNone
          ∧ Gateway._allowed r = PyList allowed) as (Hc & Hmin & Hmax & Hal).
  { destruct (Gateway.is_None default); [by injection Hdefault as <-|].
    apply outcome_bind_inv in Hdefault as (d & _ & [= <-]). done. }
  assert (∀ s, Gateway.setValue r w (PyStr s)
               = if existsb (Gateway.py_eq (PyStr s)) allowed
                 then Returned (Gateway.set_value (PyStr s) r)
                 else Raised (Known TypeError)) as Hset.
  { intros s. unfold Gateway.setValue, Gateway._validate.
    rewrite Hc, Hmin, Hmax, Hal. cbn.
    by destruct (existsb _ allowed). }
  split; [exact Hset|]. split.
  - intros s Hin. rewrite Hset.
    replace (existsb _ allowed) with true; [done|].
    symmetry. apply existsb_exists. exists (PyStr s).
    split; [by apply list_elem_of_In|]. cbn. apply String.eqb_refl.
  - intros v. destruct v as [| | | |s|];
      try (unfold Gateway.setValue, Gateway._validate; by rewrite Hc).
    rewrite Hset. by destruct (existsb _ allowed).
Qed.

(** X22.  A set of files.  [FileSet] checks that every element of a list
    is a string, but looks for the last file only: a list of names is
    stored when its last name is a file, whatever the others are, and
    raises IOError when it is not.  The empty list raises
    UnboundLocalError; and a string, which is not a list, is stored as it
    is, without a look at the files. *)
Theorem fileset_checks_the_last_file_only
    (help optional : pyval) (r : Gateway.Requirement) (w : World) :
  Gateway.FileSet__init__ help optional = Returned r →
  (∀ names name,
     let value := PyList (PyStr <$> (names ++ [name])) in
     Gateway.setValue r w value
     = if isfile_in w name then Returned (Gateway.set_value value r)
       else Raised (Known IOError))
  ∧ Gateway.setValue r w (PyList []) = Raised UnboundLocalError
  ∧ (∀ s, Gateway.setValue r w (PyStr s)
          = Returned (Gateway.set_value (PyStr s) r))
  ∧ (∀ v vs, (∀ s, v ≠ PyStr s) →
             Gateway.setValue r w (PyList (v :: vs)) = Raised (Known TypeError)).
Proof.
  unfold Gateway.FileSet__init__, Gateway.Requirement__init__.
  destruct help as [| | | |h|]; try done.
  destruct optional as [|o| | | |]; try done. intros [= <-].
  assert (∀ names file,
            Gateway.check_types (PyStr <$> names) file
            = Returned (match last names with
                        | Some s => Some s
                        | None => file
                        end)) as Hcheck.
  { induction names as [|s names IH]; intros file; [done|].
    cbn [fmap list_fmap Gateway.check_types]. rewrite IH.
    destruct names as [|s0 names]; [done|]. rewrite last_cons_cons.
    destruct (last (s0 :: names)) eqn:E; [done|]. by apply last_None in E. }
  unfold Gateway.setValue, Gateway._validate, Gateway.FileSet_validate.
  cbn. replace (o && false) with false by (by destruct o).
  repeat split.
  - intros names name. rewrite Hcheck, last_snoc. cbn.
    by destruct (isfile_in w name).
  - intros v vs Hv. destruct v; try done. by destruct (Hv s).
Qed.

(** X23.  A file.  A file requirement stores the name of an existing file
    and raises IOError for a name that is no file; [None] is stored when
    the requirement is optional and raises TypeError when it is not. *)
Theorem file_requirement_checks_existence
    (help optional : pyval) (r : Gateway.Requirement) (w : World) :
  Gateway.File__init__ help optional = Returned r →
  (∃ o, optional = PyBool o ∧ Gateway.isOptional r = o)
  ∧ (∀ name, Gateway.setValue r w (PyStr name)
             = if isfile_in w name
               then Returned (Gateway.set_value (PyStr name) r)
               else Raised (Known IOError))
  ∧ Gateway.setValue r w PyNone
    = if Gateway.isOptional r then Returned (Gateway.set_value PyNone r)
      else Raised (Known TypeError).
Proof.
  unfold Gateway.File__init__, Gateway.Requirement__init__.
  destruct help as [| | | |h|]; try done.
  destruct optional as [|o| | | |]; try done. intros [= <-].
  split; [by exists o|].
  unfold Gateway.setValue, Gateway._validate, Gateway.File_validate. cbn.
  split.
  - intros name. replace (o && false) with false by (by destruct o).
    by destruct (isfile_in w name).
  - by destruct o.
Qed.

(** * The checks of the solvation *)

Section SolventChecks.
Context `{Solvent.Toolkit}.

Ltac is_in :=
  solve [ repeat first [ apply list_elem_of_here | apply list_elem_of_further ] ].


Lemma entry_assign {A} (name k : string) (v : A) (d : list (string * A)) :
  Solvent.entry name (Solvent.assign k v d)
  = if decide (k = name) then Some v else Solvent.entry name d.
Proof.
  induction d as [|[k' v'] d IH]; cbn.
  - done.
  - destruct (decide (k' = k)) as [->|Hne]; cbn.
    + by destruct (decide (k = name)).
    + rewrite IH. destruct (decide (k' = name)) as [->|]; [|done].
      by rewrite decide_False.
Qed.

(** An entry that agrees with the module is kept by the loop. *)
Lemma register_kept (namespace : list (string * Solvent.binding))
    (names models models' : list string)
    (registry registry' : list (string * Solvent.binding)) (name : string) :
  Solvent.register namespace names models registry
  = Returned (models', registry') →
  Solvent.entry name registry = Solvent.entry name namespace →
  Solvent.entry name registry' = Solvent.entry name namespace.
Proof.
  revert models registry.
  induction names as [|var names IH]; intros models registry; cbn.
  - by intros [= <- <-].
  - intros (keep & Hkeep & Hrun)%outcome_bind_inv Hname. destruct keep.
    + apply outcome_bind_inv in Hrun as (v & Hv & Hrun).
      apply IH in Hrun; [done|]. rewrite entry_assign.
      destruct (decide (var = name)) as [->|]; [|done].
      unfold Solvent.getattr in Hv.
      destruct (Solvent.entry name namespace); [by injection Hv as <-|done].
    + by apply IH in Hrun.
Qed.

(** What the loop adds to the two variables: the names that pass the test,
    each with what the module binds it to. *)
Lemma register_inv (namespace : list (string * Solvent.binding))
    (names models models' : list string)
    (registry registry' : list (string * Solvent.binding)) (name : string) :
  Solvent.register namespace names models registry
  = Returned (models', registry') →
  (name ∈ models' ↔
   name ∈ models
   ∨ name ∈ names ∧ Solvent.is_model_name name = Returned true)
  ∧ (name ∈ models' →
     name ∈ models
     ∨ Solvent.entry name registry' = Solvent.entry name namespace).
Proof.
  revert models registry.
  induction names as [|var names IH]; intros models registry; cbn.
  - intros [= <- <-]. split; [|by left].
    split; [by left|]. by intros [|[[]%elem_of_nil _]].
  - intros (keep & Hkeep & Hrun)%outcome_bind_inv. destruct keep.
    + apply outcome_bind_inv in Hrun as (v & Hv & Hrun).
      assert (Solvent.entry var namespace = Some v) as Hvar.
      { unfold Solvent.getattr in Hv.
        destruct (Solvent.entry var namespace); [by injection Hv as <-|done]. }
      pose proof (register_kept _ _ _ _ _ _ var Hrun) as Hkept.
      apply IH in Hrun as [Hin Hbound]. split.
      * rewrite Hin, elem_of_app, list_elem_of_singleton, elem_of_cons.
        split.
        -- intros [[?| ->]|[? ?]]; eauto.
        -- intros [?|[[->|?] ?]]; eauto.
      * intros Hname. destruct (decide (name = var)) as [->|Hne].
        -- right. apply Hkept. by rewrite entry_assign, decide_True.
        -- apply Hbound in Hname as [Hname|Hname]; [|by right].
           apply elem_of_app in Hname as [?|Hname%list_elem_of_singleton];
             [by left|done].
    + apply IH in Hrun as [Hin Hbound]. split; [|done].
      rewrite Hin, elem_of_cons. split.
      * intros [?|[? ?]]; eauto.
      * intros [?|[[->|?] Htest]]; eauto. congruence.
Qed.

(** The two variables of this module. *)
Lemma registry_is_loaded :
  Solvent.load
  = Returned (["spc"; "spce"; "tip3p"; "tip4p"; "tip5p"],
              [("spc", Solvent.WaterModel Solvent.spc);
               ("spce", Solvent.WaterModel Solvent.spce);
               ("tip3p", Solvent.WaterModel Solvent.tip3p);
               ("tip4p", Solvent.WaterModel Solvent.tip4p);
               ("tip5p", Solvent.WaterModel Solvent.tip5p)]).
Proof. reflexivity. Qed.

Lemma waterModels_loaded :
  Solvent.waterModels = ["spc"; "spce"; "tip3p"; "tip4p"; "tip5p"].
Proof.
  unfold Solvent.waterModels, Solvent._models. by rewrite registry_is_loaded.
Qed.

Lemma model_dict_loaded :
  Solvent._model_dict
  = [("spc", Solvent.WaterModel Solvent.spc);
     ("spce", Solvent.WaterModel Solvent.spce);
     ("tip3p", Solvent.WaterModel Solvent.tip3p);
     ("tip4p", Solvent.WaterModel Solvent.tip4p);
     ("tip5p", Solvent.WaterModel Solvent.tip5p)].
Proof. unfold Solvent._model_dict. by rewrite registry_is_loaded. Qed.

(** X24.  The box is required.  Without a [box] argument
    [_validate_input] raises: TypeError for a solute that is neither a
    molecule nor a system, and ValueError in every other case, also for a
    system, whatever box the system or the map may hold. *)
Theorem box_is_required (molecule : Solvent.solute)
    (shell : option Solvent.item) (ion_conc is_neutral work_dir : pyval)
    (map : Solvent.mapping) :
  Solvent._validate_input molecule None shell ion_conc is_neutral work_dir map
  = match molecule with
    | Solvent.AnotherValue => Raised (Known TypeError)
    | _ => Raised (Known ValueError)
    end.
Proof. by destruct molecule. Qed.

(** X25.  No solute, no validation.  With no solute [_validate_input]
    never returns: the question whether the molecule is merged is put to
    [None].  With a box of three lengths, a dictionary and a working
    directory that is a string or [None], the exception is AttributeError,
    and so it is for every water model when GROMACS is there: a box of
    water alone is not made. *)
Theorem no_solute_is_never_validated (box : option (list Solvent.item))
    (shell : option Solvent.item) (ion_conc is_neutral work_dir : pyval)
    (map : Solvent.mapping) :
  let out := Solvent._validate_input Solvent.NoSolute box shell ion_conc
               is_neutral work_dir map in
  (∃ e, out = Raised (Known e)
        ∧ e ∈ [ValueError; TypeError; AttributeError])
  ∧ (∀ l1 l2 l3 d,
       box = Some [Solvent.ALength l1; Solvent.ALength l2; Solvent.ALength l3] →
       map = Solvent.ADict d →
       work_dir = PyNone ∨ (∃ s, work_dir = PyStr s) →
       out = Raised (Known AttributeError)
       ∧ ∀ name, name ∈ Solvent.waterModels →
           Solvent._gmx_exe ≠ None → Solvent._gromacs_path ≠ None →
           Solvent.solvate (PyStr name) Solvent.NoSolute box shell ion_conc
             is_neutral work_dir map
           = Raised (Known AttributeError)).
Proof.
  cbv zeta. split.
  - unfold Solvent._validate_input, Solvent.raise.
    destruct box as [box|]; [|by exists ValueError; split; [|is_in]].
    cbn. destruct (negb _); [by exists ValueError; split; [|is_in]|].
    cbn. destruct (Solvent.lengths box);
      [|by exists ValueError; split; [|is_in]].
    cbn. destruct map; [|by exists TypeError; split; [|is_in]].
    cbn. destruct work_dir;
      first [ by exists TypeError; split; [|is_in]
            | by exists AttributeError; split; [|is_in] ].
  - intros l1 l2 l3 d -> -> Hdir.
    assert (Solvent._validate_input Solvent.NoSolute
              (Some [Solvent.ALength l1; Solvent.ALength l2; Solvent.ALength l3])
              shell ion_conc is_neutral work_dir (Solvent.ADict d)
            = Raised (Known AttributeError)) as Hout.
    { unfold Solvent._validate_input. cbn.
      by destruct Hdir as [->|[s ->]]. }
    split; [exact Hout|].
    intros name Hname Hgmx Hpath.
    assert (∀ needs_path name pts,
              Solvent.model needs_path name pts Solvent.NoSolute
                (Some [Solvent.ALength l1; Solvent.ALength l2;
                       Solvent.ALength l3])
                shell ion_conc is_neutral work_dir (Solvent.ADict d)
              = Raised (Known AttributeError)) as Hmodel.
    { intros needs_path name' pts. unfold Solvent.model.
      rewrite !bool_decide_eq_false_2 by done.
      rewrite andb_false_r. cbn [orb]. by rewrite Hout. }
    unfold Solvent.solvate. rewrite bool_decide_eq_true_2 by done.
    cbn [negb]. rewrite waterModels_loaded in Hname.
    rewrite model_dict_loaded.
    repeat (apply elem_of_cons in Hname as [->|Hname];
            [ cbn; apply Hmodel | ]).
    by apply elem_of_nil in Hname.
Qed.

(** X26.  The water models.  The loop at the end of the module registers
    the names of the module that begin with neither an underscore nor [M]
    and are not [solvate], each with the object it is bound to.  For this
    module these are spc, spce, tip3p, tip4p and tip5p, in this order, each
    with the function of its name.  [solvate] raises TypeError for a model
    that is not a string and ValueError for any other name, before anything
    else is looked at; for a supported model it raises MissingSoftwareError
    when the GROMACS executable is missing, whatever the other arguments
    are. *)
Theorem solvate_looks_up_the_model (model : pyval) (molecule : Solvent.solute)
    (box : option (list Solvent.item)) (shell : option Solvent.item)
    (ion_conc is_neutral work_dir : pyval) (map : Solvent.mapping) :
  let out := Solvent.solvate model molecule box shell ion_conc is_neutral
               work_dir map in
  (∀ namespace models registry,
     Solvent.register namespace (Solvent.dir namespace) [] []
     = Returned (models, registry) →
     ∀ name,
       (name ∈ models ↔
        name ∈ (fst <$> namespace)
        ∧ Solvent.is_model_name name = Returned true)
       ∧ (name ∈ models →
          Solvent.entry name registry = Solvent.entry name namespace))
  ∧ Solvent.load = Returned (Solvent.waterModels, Solvent._model_dict)
  ∧ Solvent.waterModels = ["spc"; "spce"; "tip3p"; "tip4p"; "tip5p"]
  ∧ Solvent._model_dict
    = [("spc", Solvent.WaterModel Solvent.spc);
       ("spce", Solvent.WaterModel Solvent.spce);
       ("tip3p", Solvent.WaterModel Solvent.tip3p);
       ("tip4p", Solvent.WaterModel Solvent.tip4p);
       ("tip5p", Solvent.WaterModel Solvent.tip5p)]
  ∧ match model with
    | PyStr name =>
        if bool_decide (name ∈ Solvent.waterModels)
        then Solvent._gmx_exe = None → out = Raised MissingSoftwareError
        else out = Raised (Known ValueError)
    | _ => out = Raised (Known TypeError)
    end.
Proof.
  cbv zeta. split.
  { intros namespace models registry Hrun name.
    pose proof (register_inv _ _ _ _ _ _ name Hrun) as [Hin Hbound].
    split.
    - rewrite Hin. unfold Solvent.dir. rewrite merge_sort_Permutation.
      split; [|by right]. intros [Hnil|Hname]; [|done].
      by apply elem_of_nil in Hnil.
    - intros Hname. apply Hbound in Hname as [Hnil|Hname]; [|done].
      by apply elem_of_nil in Hnil. }
  split.
  { by rewrite waterModels_loaded, model_dict_loaded, registry_is_loaded. }
  split; [exact waterModels_loaded|]. split; [exact model_dict_loaded|].
  destruct model as [| | | |name|]; try done.
  unfold Solvent.solvate. case_bool_decide as Hname; [|done].
  intros Hgmx. cbn [negb].
  assert (∀ needs_path name pts,
            Solvent.model needs_path name pts molecule box shell ion_conc
              is_neutral work_dir map
            = Raised MissingSoftwareError) as Hmodel.
  { intros needs_path name' pts. unfold Solvent.model.
    by rewrite (bool_decide_eq_true_2 _ Hgmx). }
  rewrite waterModels_loaded in Hname. rewrite model_dict_loaded.
  repeat (apply elem_of_cons in Hname as [->|Hname];
          [ cbn; apply Hmodel | ]).
  by apply elem_of_nil in Hname.
Qed.

Lemma get_set_assoc (k v : string) (l : list (string * string)) :
  get_assoc k (set_assoc k v l) = Some v.
Proof.
  induction l as [|[k' v'] l IH]; cbn.
  - by rewrite decide_True.
  - destruct (decide (k' = k)) as [->|Hne]; cbn.
    + by rewrite decide_True.
    + by rewrite decide_False.
Qed.

Lemma lengths_length (box : list Solvent.item) (ls : list Solvent.Length) :
  Solvent.lengths box = Some ls → box = Solvent.ALength <$> ls.
Proof.
  revert ls. induction box as [|[l|] box IH]; intros ls; cbn.
  - by intros [= <-].
  - destruct (Solvent.lengths box) as [ls'|]; [|done].
    intros [= <-]. by rewrite (IH ls').
  - done.
Qed.

(** X27.  Validated arguments.  When [_validate_input] returns, the solute
    is a molecule or a system and is returned as it was given, the box is
    made of exactly three lengths, the shell is a length or nothing, the
    ion concentration is a number that is not negative, the neutrality
    flag is a boolean and the working directory a string or nothing; the
    box holds the solute; and for a merged solute the map that is returned
    names the coordinates of one of the two end states. *)
Theorem validated_input (molecule molecule' : Solvent.solute)
    (box : option (list Solvent.item)) (shell : option Solvent.item)
    (ion_conc is_neutral work_dir work_dir' : pyval) (map : Solvent.mapping)
    (box' : list Solvent.Length) (shell' : option Solvent.Length)
    (map' : Solvent.dict) :
  Solvent._validate_input molecule box shell ion_conc is_neutral work_dir map
  = Returned (molecule', box', shell', work_dir', map') →
  molecule' = molecule ∧ work_dir' = work_dir
  ∧ (∃ b, (molecule = Solvent.AMolecule b ∨ molecule = Solvent.ASystem b)
          ∧ Solvent._check_box_size b box' map' = Returned true
          ∧ (Solvent.isMerged b = true →
             get_assoc "coordinates" map' = Some "coordinates0"
             ∨ get_assoc "coordinates" map' = Some "coordinates1")
          ∧ (Solvent.isMerged b = false → map = Solvent.ADict map'))
  ∧ box = Some (Solvent.ALength <$> box') ∧ length box' = 3%nat
  ∧ shell = Solvent.ALength <$> shell'
  ∧ ((∃ z, ion_conc = PyInt z ∧ (0 ≤ z)%Z)
     ∨ (∃ q, ion_conc = PyFloat q ∧ (0 <= q)%Q))
  ∧ (∃ flag, is_neutral = PyBool flag)
  ∧ (work_dir = PyNone ∨ ∃ s, work_dir = PyStr s).
Proof.
  unfold Solvent._validate_input.
  intros ([box0 shell0] & Hfirst & Hrun)%outcome_bind_inv.
  apply outcome_bind_inv in Hrun as ([] & Hlen & Hrun).
  apply outcome_bind_inv in Hrun as (ls & Hls & Hrun).
  apply outcome_bind_inv in Hrun as (sh & Hsh & Hrun).
  apply outcome_bind_inv in Hrun as (d & Hd & Hrun).
  apply outcome_bind_inv in Hrun as ([] & Hwd & Hrun).
  apply outcome_bind_inv in Hrun as (merged & Hmerged & Hrun).
  apply outcome_bind_inv in Hrun as ([] & Hion & Hrun).
  apply outcome_bind_inv in Hrun as ([] & Hneutral & Hrun).
  apply outcome_bind_inv in Hrun as (fits & Hfits & Hrun).
  destruct fits; [|done]. injection Hrun as <- <- <- <- <-.
  destruct (negb _) eqn:Hthree in Hlen; [done|].
  apply negb_false_iff, Nat.eqb_eq in Hthree.
  destruct (Solvent.lengths box0) as [ls0|] eqn:Hls0; [|done].
  injection Hls as <-. apply lengths_length in Hls0 as ->.
  rewrite length_fmap in Hthree.
  destruct map as [d0|]; [|done]. injection Hd as <-.
  assert (∃ b, (molecule = Solvent.AMolecule b ∨ molecule = Solvent.ASystem b)
               ∧ merged = Solvent.isMerged b
               ∧ box = Some (Solvent.ALength <$> ls0) ∧ shell0 = shell)
    as (b & Hb & -> & -> & ->).
  { destruct molecule as [|b|b|]; try done;
      destruct box; try done; injection Hfirst as -> ->;
      injection Hmerged as <-; exists b; eauto. }
  split; [done|]. split; [done|]. split.
  { exists b. split; [done|]. split.
    - by destruct Hb as [->| ->].
    - split.
      + intros ->. unfold Solvent.remap_coordinates.
        destruct (get_assoc "coordinates" d0) as [c|] eqn:Hc.
        * destruct (String.eqb_spec c "coordinates0") as [->|?]; [by left|].
          destruct (String.eqb_spec c "coordinates1") as [->|?]; [by right|].
          cbn. left. apply get_set_assoc.
        * left. apply get_set_assoc.
      + by intros ->. }
  split; [done|]. split; [done|]. split.
  { destruct shell as [[l|]|]; try done; by injection Hsh as <-. }
  split.
  { destruct ion_conc as [| |z|q| |]; try done.
    - left. exists z. split; [done|]. destruct (0 <=? z)%Z eqn:E; [|done].
      by apply Z.leb_le.
    - right. exists q. split; [done|]. destruct (Qle_bool 0 q) eqn:E; [|done].
      by apply Qle_bool_iff. }
  split.
  { destruct is_neutral; try done. by eexists. }
  destruct work_dir; try done; [by left|right; by eexists].
Qed.

End SolventChecks.

(** * Further concrete runs *)

Import Cases.

(** The set-up of the sample free-energy process returns its four input
    files, and they exist. *)
Lemma setup_returns_existing_inputs_witness :
  let self := process free_energy in
  let st := initial solvated in
  let l := ["/work/somd.cfg"; "/work/somd.rst7"; "/work/somd.prm7";
            "/work/somd.pert"] in
  let st' := (_setup self st).2 in
  l = _input_files (vars st)
      ++ (if is_FreeEnergy (_protocol self) then [_pert_file self] else [])
  ∧ _input_files (vars st') = l
  ∧ (∀ f, f ∈ [_config_file self; _rst_file self; _top_file self]
               ++ (if is_FreeEnergy (_protocol self) then [_pert_file self]
                   else []) →
          file_exists st' f)
  ∧ (∀ f, file_exists st f → file_exists st' f).
Proof.
  cbv zeta. apply (setup_returns_existing_inputs (process free_energy)
                     (initial solvated)).
  vm_compute; reflexivity.
Defined.

(** The set-up of the sample process serialises a copy whose two waters are
    labelled WAT. *)
Lemma setup_serialises_relabelled_copy_witness :
  let self := process free_energy in
  let st := initial solvated in
  let st' := (_setup self st).2 in
  ∃ copy,
    store (world st') !! fresh (dom (store (world st))) = Some copy
    ∧ waters_labelled copy
    ∧ files (world st') !! resolve (world st) (_rst_file self)
      = AmberRst7 copy (_property_map self)
    ∧ files (world st') !! resolve (world st) (_top_file self)
      = AmberPrm copy (_property_map self).
Proof.
  cbv zeta.
  apply (setup_serialises_relabelled_copy (process free_energy)
           (initial solvated) _
           ["/work/somd.cfg"; "/work/somd.rst7"; "/work/somd.prm7";
            "/work/somd.pert"]).
  vm_compute; reflexivity.
Defined.

(** A custom protocol of two lines. *)
Lemma custom_configuration_is_verbatim_witness :
  let self := process custom in
  let st := initial solvated in
  let st' := (_setup self st).2 in
  _config (vars st') = ["minimise = True"; "ncycles = 7"]
  ∧ files (world st') !! resolve (world st) (_config_file self)
    = Some (join newline ["minimise = True"; "ncycles = 7"])
  ∧ (_generate_config self st).1 = Raise IncompatibleError.
Proof.
  cbv zeta.
  apply (custom_configuration_is_verbatim (process custom) _
           (initial solvated) _
           ["/work/somd.cfg"; "/work/somd.rst7"; "/work/somd.prm7"]).
  - reflexivity.
  - vm_compute; reflexivity.
Defined.

(** On a machine without the executables the constructor stops at once. *)
Lemma constructor_checks_come_first_witness :
  let self := bare free_energy in
  let st := initial solvated in
  __init__ self None (PyStr "cuda") "/opt/sire/bin" st
  = (Raised MissingSoftwareError, st)
  ∧ __init__ self (Some "/usr/bin/somd") (PyStr "cuda") "/opt/sire/bin" st
    = (Raised (Known IOError), st)
  ∧ __init__ self None (PyStr "GPU") "/opt/sire/bin" st
    = (Raised (Known ValueError), st).
Proof.
  cbv zeta. split; [|split].
  - refine (proj2 (constructor_checks_come_first (bare free_energy) None
                     (PyStr "cuda") "/opt/sire/bin" (initial solvated))
              "CUDA" _ _); [reflexivity|].
    unfold file_exists. vm_compute. intros Hin. discriminate Hin.
  - refine (proj2 (constructor_checks_come_first (bare free_energy)
                     (Some "/usr/bin/somd") (PyStr "cuda") "/opt/sire/bin"
                     (initial solvated))
              "CUDA" _ _); [reflexivity|].
    unfold file_exists. vm_compute. intros Hin. discriminate Hin.
  - refine (proj1 (constructor_checks_come_first (bare free_energy) None
                     (PyStr "GPU") "/opt/sire/bin" (initial solvated))
              _ _). reflexivity.
Defined.

(** The constructor on a machine with Sire: a free-energy process on
    OpenCL. *)
Lemma constructed_process_witness :
  let self := bare free_energy in
  let obj := set_platform_exe "OpenCL" "/opt/sire/bin/somd-freenrg" self in
  let st' := (__init__ self None (PyStr "open cl") "/opt/sire/bin"
                installed).2 in
  obj = set_platform_exe (_platform obj) (_exe obj) self
  ∧ _platform obj ∈ ["CPU"; "CUDA"; "OpenCL"]
  ∧ file_exists installed (_exe obj)
  ∧ _exe obj = "/opt/sire/bin" +:+ (if is_FreeEnergy (_protocol self)
                                    then "/somd-freenrg" else "/somd")
  ∧ _gradients (vars st') = []
  ∧ _input_files (vars st')
    = [_config_file obj; _rst_file obj; _top_file obj]
      ++ (if is_FreeEnergy (_protocol obj) then [_pert_file obj] else [])
  ∧ concat (map (λ kv, [kv.1; kv.2]) (_args (vars st'))) = argument_list obj.
Proof.
  cbv zeta.
  apply (constructed_process (bare free_energy) _ None (PyStr "open cl")
           "/opt/sire/bin" installed).
  vm_compute; reflexivity.
Defined.

(** The launch of the sample process after its set-up. *)
Lemma launch_records_the_command_witness :
  let self := process free_energy in
  let st0 := initial solvated in
  let st := ready in
  let st' := (launch self st).2 in
  let w1 := set_cwd (resolve (world st) (_work_dir self)) (world st) in
  let command := _exe self +:+ " " +:+ join " " (argument_list self) in
  (_generate_args self;; getArgStringList) st0
  = (Ok (argument_list self), (_generate_args self st0).2)
  ∧ _command (vars st') = Some command
  ∧ files (world st') !! resolve w1 "README.txt"
    = Some ("# SOMD was run with the following command:" +:+ newline +:+
            command +:+ newline)
  ∧ files (world st') !! resolve w1 (os.basename (_stderr_file self))
    = Some ("All output has been redirected to the stdout stream!" +:+ newline).
Proof.
  cbv zeta.
  apply (launch_records_the_command (process free_energy) (initial solvated)
           ready _ (Some tt)).
  - vm_compute; reflexivity.
  - vm_compute; reflexivity.
Defined.

(** The first start of the sample production process. *)
Lemma start_returns_nothing_only_when_busy_witness :
  let self := process production in
  let st := initial solvated in
  let busy := _is_queued self = true
              ∨ ∃ pid, _process (vars st) = Some pid
                       ∧ pid ∈ running (world st) in
  ((start self st).1 = Ok None ↔ busy)
  ∧ (∀ r st', start self st = (Ok (Some r), st') →
       ¬ busy
       ∧ ∃ st1, _clear_output self st = (Ok tt, st1)
                ∧ launch self st1 = (Ok (Some tt), st')
                ∧ _timer (vars st') = Some (clock (world st1))
                ∧ is_Some (_process (vars st'))
                ∧ is_Some (_command (vars st'))).
Proof.
  cbv zeta.
  apply (start_returns_nothing_only_when_busy (process production)
           (initial solvated)).
Defined.

(** The first start of the sample process returns the object; the second,
    on the state the first one left, finds the child alive and returns
    nothing. *)
Example first_start_then_second :
  (start (process production) (initial solvated)).1 = Ok (Some tt)
  ∧ start (process production) started = (Ok None, started).
Proof. split; vm_compute; reflexivity. Qed.

(** Three frames, two femtoseconds a step. *)
Lemma time_series_follows_frames_witness :
  let self := process production in
  let st := initial solvated in
  ∃ times,
    @getTime recorded self true BlockFalse st = (Ok (Some (Series times)), st)
    ∧ length times = 3%nat
    ∧ (∀ k, (k < 3)%nat → times !! k = Some (frame_time two_fs (S k)))
    ∧ @getTime recorded self false BlockFalse st
      = (Ok (Some (Latest (frame_time two_fs 3))), st).
Proof.
  cbv zeta.
  apply (@time_series_follows_frames recorded (process production) BlockFalse
           (initial solvated) (initial solvated) two_fs
           [solvated; solvated; solvated]); done.
Defined.

(** A log of two lines, then a third. *)
Lemma gradient_reads_add_up_witness :
  let self := process free_energy in
  let st := logged two_readings in
  let file := _gradient_file self in
  let text := two_readings +:+ ("200 7" +:+ newline) in
  let first := getGradient self true BlockFalse st in
  let second := getGradient self true BlockFalse
                  (with_log file text first.2) in
  let batch := getGradient self true BlockFalse (with_log file text st) in
  second.1 = batch.1
  ∧ _gradients (vars second.2) = _gradients (vars batch.2)
  ∧ (returns batch.1 = true → second.2 = batch.2).
Proof.
  cbv zeta.
  apply (gradient_reads_add_up (process free_energy) BlockFalse
           (logged two_readings) two_readings ("200 7" +:+ newline)).
  - vm_compute; reflexivity.
  - vm_compute; reflexivity.
  - right. by exists ("#step gradient" +:+ newline +:+ "100 -12").
  - vm_compute; reflexivity.
Defined.

(** The sample production process: water and a box. *)
Lemma cutoff_and_dielectric_policy_witness :
  let self := process production in
  let st := initial solvated in
  let has_box := bool_decide ("space" ∈ propertyKeys solvated) in
  let cfg := _config (vars (_generate_config self st).2) in
  "cutoff distance = 10 angstrom" ∈ cfg
  ∧ (if has_box && _has_water self
     then ("cutoff type = cutoffperiodic" ∈ cfg)
          ∧ ("cutoff type = cutoffnonperiodic" ∉ cfg)
     else ("cutoff type = cutoffnonperiodic" ∈ cfg)
          ∧ ("cutoff type = cutoffperiodic" ∉ cfg))
  ∧ (if is_Minimisation (_protocol self)
     then ("reaction field dielectric = 78.3" ∉ cfg)
          ∧ ("reaction field dielectric = 82.0" ∉ cfg)
     else if _has_water self
     then ("reaction field dielectric = 78.3" ∈ cfg)
          ∧ ("reaction field dielectric = 82.0" ∉ cfg)
     else ("reaction field dielectric = 82.0" ∈ cfg)
          ∧ ("reaction field dielectric = 78.3" ∉ cfg)).
Proof.
  cbv zeta.
  apply (cutoff_and_dielectric_policy (process production)
           (initial solvated) _ solvated).
  - reflexivity.
  - vm_compute; reflexivity.
Defined.

(** The sample process has the seed 42. *)
Lemma seed_line_policy_witness :
  let self := process production in
  let st' := (_generate_config self (initial solvated)).2 in
  ("random seed = " +:+ pretty 42) ∈ _config (vars st')
  ↔ is_Minimisation (_protocol self) = false
    ∧ _is_seeded self = true ∧ 42 = _seed self.
Proof.
  cbv zeta.
  apply (seed_line_policy (process production) (initial solvated)).
  vm_compute; reflexivity.
Defined.

(** The sample equilibration: constant temperature, no restraint. *)
Lemma equilibration_support_witness :
  let self := process equilibration in
  let out := _generate_config self (initial solvated) in
  let cfg := _config (vars out.2) in
  if isConstantTemp room room && negb false
  then Qeq_bool (femtoseconds two_fs) 0 = false →
       out.1 = Ok tt
       ∧ ("barostat = False" ∈ cfg)
       ∧ ("barostat = True" ∉ cfg)
       ∧ ("pressure = 1 atm" ∉ cfg)
       ∧ (("temperature = " +:+ fmt_2f (kelvin room) +:+ " kelvin") ∈ cfg)
  else out = (Raise IncompatibleError,
              mkState (set_config [] (vars (initial solvated)))
                      (world (initial solvated))).
Proof.
  cbv zeta.
  apply (equilibration_support (process equilibration) (initial solvated)
           ten_ps two_fs room room false solvated); reflexivity.
Defined.

(** An integer between 1 and 10. *)
Lemma integer_requirement_keeps_bounds_witness :
  let r := Gateway.mkRequirement Gateway.Integer "cores" PyNone PyNone PyNone
             (PyInt 1) (PyInt 10) PyNone false in
  Gateway.getMin r = PyInt 1
  ∧ Gateway.getMax r = PyInt 10
  ∧ (∀ l, PyNone = PyList l → Gateway.getAllowedValues r = PyNone)
  ∧ ∀ w v r', Gateway.setValue r w v = Returned r' →
      ∃ z, v = PyInt z
           ∧ r' = Gateway.set_value (PyInt z) r
           ∧ (∀ m, PyInt 1 = PyInt m → (m ≤ z)%Z)
           ∧ (∀ m, PyInt 10 = PyInt m → (z ≤ m)%Z)
           ∧ (∀ l, Gateway.getAllowedValues r = PyList l → PyInt z ∈ l).
Proof.
  cbv zeta.
  apply (integer_requirement_keeps_bounds (PyStr "cores") PyNone (PyInt 1)
           (PyInt 10) PyNone).
  reflexivity.
Defined.

(** A float with integer bounds: the minimum [2 ^ 53 + 1] is stored as
    [2 ^ 53]. *)
Lemma float_requirement_converts_integers_witness :
  let r := Gateway.mkRequirement Gateway.Float "count" PyNone
             (PyFloat (inject_Z 300)) PyNone (PyFloat (inject_Z (2 ^ 53)))
             (PyFloat (inject_Z (2 ^ 60))) PyNone true in
  Gateway.getMin r = as_float (PyInt (2 ^ 53 + 1))
  ∧ Gateway.getMax r = as_float (PyInt (2 ^ 60))
  ∧ Gateway.getDefault r = as_float (PyInt 300)
  ∧ (∀ w v r', Gateway.setValue r w v = Returned r' →
      ∃ q, as_float v = PyFloat q
           ∧ r' = Gateway.set_value (PyFloat q) r
           ∧ (∀ m, Gateway.getMin r = PyFloat m → (m <= q)%Q)
           ∧ (∀ m, Gateway.getMax r = PyFloat m → (q <= m)%Q))
  ∧ (∀ w z, ¬ in_float_range z →
            Gateway.setValue r w (PyInt z) = Raised OverflowError)
  ∧ (∀ z, (Z.abs z ≤ 2 ^ 53)%Z → as_float (PyInt z) = PyFloat (inject_Z z))
  ∧ as_float (PyInt (2 ^ 53 + 1)) = PyFloat (inject_Z (2 ^ 53))
  ∧ Gateway.float (10 ^ 400) = Raised OverflowError.
Proof.
  cbv zeta.
  apply (float_requirement_converts_integers (PyStr "count")
           (PyInt 300) (PyInt (2 ^ 53 + 1)) (PyInt (2 ^ 60)) PyNone).
  vm_compute. reflexivity.
Defined.

(** Under the minimum [2 ^ 53 + 1] the value [2 ^ 53] is accepted: the
    bound that is enforced is the float. *)
Example float_minimum_is_rounded (w : World) :
  ∃ r, Gateway.Float__init__ (PyStr "count") PyNone (PyInt (2 ^ 53 + 1))
         PyNone PyNone = Returned r
       ∧ Gateway.setValue r w (PyInt (2 ^ 53))
         = Returned (Gateway.set_value (PyFloat (inject_Z (2 ^ 53))) r).
Proof. eexists. split; vm_compute; reflexivity. Qed.

(** The largest integer that [float] converts. *)
Example float_range :
  in_float_range (2 ^ 1024 - 2 ^ 970 - 1) ∧ ¬ in_float_range (2 ^ 1024 - 2 ^ 970).
Proof. by vm_compute. Qed.

(** A default of 1 under a minimum of 5. *)
Lemma default_is_not_held_to_bounds_witness :
  ∃ r, Gateway.Integer__init__ (PyStr "steps") (PyInt 1) (PyInt 5) PyNone
         PyNone = Returned r
       ∧ Gateway.getDefault r = PyInt 1
       ∧ Gateway.isOptional r = true
       ∧ Gateway.getValue r = PyNone
       ∧ ∀ w, Gateway.setValue r w (PyInt 1) = Raised (Known ValueError).
Proof. apply (default_is_not_held_to_bounds "steps" 1 5). lia. Defined.

(** Two allowed names. *)
Lemma string_outside_allowed_raises_TypeError_witness :
  let allowed := [PyStr "CPU"; PyStr "CUDA"] in
  let r := Gateway.mkRequirement Gateway.String "platform" PyNone PyNone
             PyNone PyNone PyNone (PyList allowed) false in
  let w := machine solvated ∅ ∅ in
  (∀ s, Gateway.setValue r w (PyStr s)
        = if existsb (Gateway.py_eq (PyStr s)) allowed
          then Returned (Gateway.set_value (PyStr s) r)
          else Raised (Known TypeError))
  ∧ (∀ s, PyStr s ∈ allowed → Gateway.setValue r w (PyStr s)
                              = Returned (Gateway.set_value (PyStr s) r))
  ∧ ∀ v, Gateway.setValue r w v ≠ Raised (Known ValueError).
Proof.
  cbv zeta.
  apply (string_outside_allowed_raises_TypeError (PyStr "platform") PyNone
           [PyStr "CPU"; PyStr "CUDA"]).
  reflexivity.
Defined.

(** A mandatory set of files. *)
Lemma fileset_checks_the_last_file_only_witness :
  let r := Gateway.mkRequirement Gateway.FileSet "files" PyNone PyNone PyNone
             PyNone PyNone PyNone false in
  let w := machine solvated {[ "/home/user/b.top" := "" ]} ∅ in
  (∀ names name,
     let value := PyList (PyStr <$> (names ++ [name])) in
     Gateway.setValue r w value
     = if isfile_in w name then Returned (Gateway.set_value value r)
       else Raised (Known IOError))
  ∧ Gateway.setValue r w (PyList []) = Raised UnboundLocalError
  ∧ (∀ s, Gateway.setValue r w (PyStr s)
          = Returned (Gateway.set_value (PyStr s) r))
  ∧ (∀ v vs, (∀ s, v ≠ PyStr s) →
             Gateway.setValue r w (PyList (v :: vs)) = Raised (Known TypeError)).
Proof.
  cbv zeta.
  apply (fileset_checks_the_last_file_only (PyStr "files") (PyBool false)).
  reflexivity.
Defined.

(** An optional file. *)
Lemma file_requirement_checks_existence_witness :
  let r := Gateway.mkRequirement Gateway.File "restart" PyNone PyNone PyNone
             PyNone PyNone PyNone true in
  let w := machine solvated ∅ ∅ in
  (∃ o, PyBool true = PyBool o ∧ Gateway.isOptional r = o)
  ∧ (∀ name, Gateway.setValue r w (PyStr name)
             = if isfile_in w name
               then Returned (Gateway.set_value (PyStr name) r)
               else Raised (Known IOError))
  ∧ Gateway.setValue r w PyNone
    = if Gateway.isOptional r then Returned (Gateway.set_value PyNone r)
      else Raised (Known TypeError).
Proof.
  cbv zeta.
  apply (file_requirement_checks_existence (PyStr "restart") (PyBool true)).
  reflexivity.
Defined.

(** A merged molecule in a box of 20 angstrom. *)
Lemma validated_input_witness :
  let molecule := Solvent.AMolecule (Solvent.mkBody 0 true) in
  let box' := [20; 20; 20]%Q in
  let box := Some (@Solvent.ALength bench <$> box') in
  let shell := @None (@Solvent.item bench) in
  let shell' := @None Q in
  let map := Solvent.ADict [] in
  let map' := [("coordinates", "coordinates0")] in
  let ion_conc := PyInt 0 in
  let is_neutral := PyBool true in
  let work_dir := PyNone in
  molecule = molecule ∧ work_dir = work_dir
  ∧ (∃ b, (molecule = Solvent.AMolecule b ∨ molecule = Solvent.ASystem b)
          ∧ @Solvent._check_box_size bench b box' map' = Returned true
          ∧ (Solvent.isMerged b = true →
             get_assoc "coordinates" map' = Some "coordinates0"
             ∨ get_assoc "coordinates" map' = Some "coordinates1")
          ∧ (Solvent.isMerged b = false → map = Solvent.ADict map'))
  ∧ box = Some (Solvent.ALength <$> box') ∧ length box' = 3%nat
  ∧ shell = Solvent.ALength <$> shell'
  ∧ ((∃ z, ion_conc = PyInt z ∧ (0 ≤ z)%Z)
     ∨ (∃ q, ion_conc = PyFloat q ∧ (0 <= q)%Q))
  ∧ (∃ flag, is_neutral = PyBool flag)
  ∧ (work_dir = PyNone ∨ ∃ s, work_dir = PyStr s).
Proof.
  cbv zeta.
  apply (@validated_input bench
           (Solvent.AMolecule (Solvent.mkBody 0 true))
           (Solvent.AMolecule (Solvent.mkBody 0 true))
           (Some (@Solvent.ALength bench <$> [20; 20; 20]%Q)) None
           (PyInt 0) (PyBool true) PyNone PyNone (Solvent.ADict [])
           [20; 20; 20]%Q None [("coordinates", "coordinates0")]).
  reflexivity.
Defined.
